(** * Guest boot construction and I/O port dispatch of the x86 VMM support library

    A shallow embedding of [libsel4vmmplatsupport/src/arch/x86/guest_boot_init.c]
    and of the interface declared in [sel4vmmplatsupport/ioports.h], with the
    properties the specification states about them.

    Machine integers are [Z] with the wrap-around written out, C arrays are
    lists updated by index, [assert] follows [NDEBUG], and the functions of
    libsel4vm that the file calls are parameters. *)

From Stdlib Require Import ZArith Lia String Ascii Bool.
From stdpp Require Import base numbers list.

Local Open Scope Z_scope.

(** ** Machine integers *)

Definition wrap (bits : Z) (x : Z) : Z := x mod 2 ^ bits.
Definition wrap8 : Z → Z := wrap 8.
Definition wrap16 : Z → Z := wrap 16.
Definition wrap32 : Z → Z := wrap 32.
Definition wrap64 : Z → Z := wrap 64.

(** [ROUND_DOWN(n, b)], [ROUND_UP(n, b)] and [ALIGN_UP(x, n)] of the utility
    headers, on non-negative values. *)
Definition ROUND_DOWN (n b : Z) : Z := n - n mod b.
Definition ROUND_UP (n b : Z) : Z :=
  n + (if n mod b =? 0 then 0 else b - n mod b).
Definition ALIGN_UP (x n : Z) : Z := Z.land (x + n - 1) (Z.lnot (n - 1)).

Definition PAGE_SIZE_4K : Z := 4096.

(** ** Build configuration

    What the headers and the build fix and the two source files do not:
    whether [assert] is compiled in, whether the VESA frame buffer is
    configured, the width of [uintptr_t], the capacity of the E820 table, the
    two E820 type codes, the size of [struct boot_params], and the value a
    read of an uninitialised local yields. *)
Record build_config : Type := {
  NDEBUG : bool;
  CONFIG_VMM_VESA_FRAMEBUFFER : bool;
  CONFIG_WORD_SIZE : Z;
  E820MAX : nat;
  E820_RAM : Z;
  E820_RESERVED : Z;
  sizeof_boot_params : Z;
  indeterminate : Z
}.

(** ** Outcome of a computation that may stop at an [assert] *)

Inductive result (A : Type) : Type :=
| Done (a : A)
| AssertFail
| OutOfBounds.
Arguments Done {A} a.
Arguments AssertFail {A}.
Arguments OutOfBounds {A}.

#[global] Instance result_ret : MRet result := λ A a, Done a.
#[global] Instance result_bind : MBind result := λ A B f m,
  match m with
  | Done a => f a
  | AssertFail => AssertFail
  | OutOfBounds => OutOfBounds
  end.

(** [assert(c)]: nothing when [NDEBUG] is defined, otherwise the program
    aborts unless [c] holds. *)
Definition assert_ (cfg : build_config) (c : bool) : result unit :=
  if NDEBUG cfg then Done tt else if c then Done tt else AssertFail.

(** ** The E820 memory map *)

(** Modelled from the spec: the E820 Entry of the data model, an address and
    a length of 64 bits and a type of 32 bits ([struct e820entry] is declared
    in e820.h, which is not among the sources). *)
Record e820entry : Type := {
  e820_addr : Z;
  e820_size : Z;
  e820_type : Z
}.

Definition set_addr (v : Z) (e : e820entry) : e820entry :=
  {| e820_addr := v; e820_size := e820_size e; e820_type := e820_type e |}.
Definition set_size (v : Z) (e : e820entry) : e820entry :=
  {| e820_addr := e820_addr e; e820_size := v; e820_type := e820_type e |}.
Definition set_type (v : Z) (e : e820entry) : e820entry :=
  {| e820_addr := e820_addr e; e820_size := e820_size e; e820_type := v |}.

Definition e820_zero : e820entry :=
  {| e820_addr := 0; e820_size := 0; e820_type := 0 |}.

(** Modelled from the spec: the Guest Memory Region of the data model,
    with its start address, size and flags (declared in the headers of
    libsel4vm). *)
Record vm_ram_region_t : Type := {
  ram_start : Z;
  ram_size : Z;
  ram_allocated : bool
}.

(** Modelled from the spec: the sequence of guest RAM regions the boot
    builder reads, [vm->mem]; [num_ram_regions] is its length. *)
Record vm_mem_t : Type := {
  ram_regions : list vm_ram_region_t
}.

Definition num_ram_regions (m : vm_mem_t) : Z := Z.of_nat (length (ram_regions m)).

(** Reads and writes of [e820[i]]: outside the array the behaviour is
    undefined. *)
Definition e820_get (e820 : list e820entry) (i : nat) : result e820entry :=
  match e820 !! i with
  | Some e => Done e
  | None => OutOfBounds
  end.

Definition e820_upd (e820 : list e820entry) (i : nat) (f : e820entry → e820entry)
  : result (list e820entry) :=
  match e820 !! i with
  | Some e => Done (<[i := f e]> e820)
  | None => OutOfBounds
  end.

Section E820.
Variable cfg : build_config.

(** [entry++; assert(entry < E820MAX);] *)
Definition next_entry (entry : nat) : result nat :=
  _ ← assert_ cfg (bool_decide (S entry < E820MAX cfg)%nat);
  Done (S entry).

(** The body of the loop over the RAM regions, for [ram_regions[i] = r]. *)
Definition e820_region (r : vm_ram_region_t) (st : list e820entry * nat)
  : result (list e820entry * nat) :=
  let '(e820, entry) := st in
  cur ← e820_get e820 entry;
  '(e820, entry) ←
    (if negb (wrap64 (e820_addr cur + e820_size cur) =? ram_start r) then
       '(e820, entry) ←
         (if negb (e820_size cur =? 0) then
            entry ← next_entry entry;
            prev ← e820_get e820 (entry - 1);
            e820 ← e820_upd e820 entry
                     (set_addr (wrap64 (e820_addr prev + e820_size prev)));
            e820 ← e820_upd e820 entry (set_type (E820_RESERVED cfg));
            Done (e820, entry)
          else Done (e820, entry));
       cur ← e820_get e820 entry;
       e820 ← e820_upd e820 entry
                (set_size (wrap64 (ram_start r - e820_addr cur)));
       entry ← next_entry entry;
       e820 ← e820_upd e820 entry (set_addr (ram_start r));
       e820 ← e820_upd e820 entry (set_type (E820_RAM cfg));
       Done (e820, entry)
     else Done (e820, entry));
  cur ← e820_get e820 entry;
  e820 ← e820_upd e820 entry
           (set_size (wrap64 (wrap64 (ram_start r - e820_addr cur) + ram_size r)));
  Done (e820, entry).

Fixpoint e820_regions (rs : list vm_ram_region_t) (st : list e820entry * nat)
  : result (list e820entry * nat) :=
  match rs with
  | [] => Done st
  | r :: rs' => st' ← e820_region r st; e820_regions rs' st'
  end.

(** The closing loop: [assert(e820[i].addr < e820[i].addr + e820[i].size)]
    for [i = 0 .. entry]. *)
Fixpoint e820_check (e820 : list e820entry) (i : nat) (n : nat) : result unit :=
  match n with
  | O => Done tt
  | S n' =>
      e ← e820_get e820 i;
      _ ← assert_ cfg (e820_addr e <? wrap64 (e820_addr e + e820_size e));
      e820_check e820 (S i) n'
  end.

(** [make_guest_e820_map(e820, guest_memory)]: the array after the call
    and the number of entries returned. *)
Definition make_guest_e820_map (e820 : list e820entry) (guest_memory : vm_mem_t)
  : result (nat * list e820entry) :=
  let entry := O in
  e820 ← e820_upd e820 entry (set_addr 0);
  e820 ← e820_upd e820 entry (set_size 0);
  e820 ← e820_upd e820 entry (set_type (E820_RESERVED cfg));
  _ ← assert_ cfg (0 <? num_ram_regions guest_memory);
  '(e820, entry) ← e820_regions (ram_regions guest_memory) (e820, entry);
  entry ← next_entry entry;
  prev ← e820_get e820 (entry - 1);
  e820 ← e820_upd e820 entry (set_addr (wrap64 (e820_addr prev + e820_size prev)));
  cur ← e820_get e820 entry;
  e820 ← e820_upd e820 entry (set_size (wrap64 (4294967296 - e820_addr cur)));
  e820 ← e820_upd e820 entry (set_type (E820_RESERVED cfg));
  _ ← e820_check e820 0 (S entry);
  Done (S entry, e820).
End E820.

(** *** The map as a list

    The loop keeps the entries below [entry] fixed and works on [e820[entry]]:
    [e820_step] is the loop body on the pair of the closed entries and the
    current one, and [e820_map_of] the [entry + 1] entries the call leaves. *)
Section E820_list.
Variable cfg : build_config.

Definition e820_ram_entry (r : vm_ram_region_t) : e820entry :=
  {| e820_addr := ram_start r;
     e820_size := wrap64 (wrap64 (ram_start r - ram_start r) + ram_size r);
     e820_type := E820_RAM cfg |}.

Definition e820_step (r : vm_ram_region_t) (st : list e820entry * e820entry)
  : list e820entry * e820entry :=
  let '(closed, cur) := st in
  if wrap64 (e820_addr cur + e820_size cur) =? ram_start r then
    (closed,
     set_size (wrap64 (wrap64 (ram_start r - e820_addr cur) + ram_size r)) cur)
  else if e820_size cur =? 0 then
    (closed ++ [set_size (wrap64 (ram_start r - e820_addr cur)) cur],
     e820_ram_entry r)
  else
    let a := wrap64 (e820_addr cur + e820_size cur) in
    (closed ++ [cur; {| e820_addr := a;
                        e820_size := wrap64 (ram_start r - a);
                        e820_type := E820_RESERVED cfg |}],
     e820_ram_entry r).

Definition e820_steps (rs : list vm_ram_region_t) (st : list e820entry * e820entry)
  : list e820entry * e820entry :=
  fold_left (λ st r, e820_step r st) rs st.

Definition e820_initial : e820entry :=
  {| e820_addr := 0; e820_size := 0; e820_type := E820_RESERVED cfg |}.

Definition e820_final (cur : e820entry) : e820entry :=
  let a := wrap64 (e820_addr cur + e820_size cur) in
  {| e820_addr := a; e820_size := wrap64 (4294967296 - a);
     e820_type := E820_RESERVED cfg |}.

Definition e820_map_of (rs : list vm_ram_region_t) : list e820entry :=
  let '(closed, cur) := e820_steps rs ([], e820_initial) in
  closed ++ [cur; e820_final cur].
End E820_list.

(** *** What the specification says of the map *)

Definition in_entry (x : Z) (e : e820entry) : Prop :=
  e820_addr e ≤ x < e820_addr e + e820_size e.

Definition e820_sorted (m : list e820entry) : Prop :=
  ∀ (i j : nat) ei ej, m !! i = Some ei → m !! j = Some ej → (i < j)%nat →
    e820_addr ei < e820_addr ej.

Definition e820_non_overlapping (m : list e820entry) : Prop :=
  ∀ (i j : nat) ei ej x, m !! i = Some ei → m !! j = Some ej → i ≠ j →
    in_entry x ei → ¬ in_entry x ej.

Definition e820_covers (m : list e820entry) (lo hi : Z) : Prop :=
  ∀ x, (∃ e, e ∈ m ∧ in_entry x e) ↔ lo ≤ x < hi.

Definition e820_nonzero_length (e : e820entry) : Prop :=
  e820_addr e < wrap64 (e820_addr e + e820_size e).

Definition ram_reported (cfg : build_config) (m : list e820entry) (r : vm_ram_region_t)
  : Prop :=
  ∃ e, e ∈ m ∧ e820_type e = E820_RAM cfg ∧
       e820_addr e ≤ ram_start r ∧
       ram_start r + ram_size r ≤ e820_addr e + e820_size e.

(** Region lists: sorted by start address and non-overlapping. *)
Definition regions_sorted (rs : list vm_ram_region_t) : Prop :=
  ∀ (i j : nat) ri rj, rs !! i = Some ri → rs !! j = Some rj → (i < j)%nat →
    ram_start ri ≤ ram_start rj ∧ ram_start ri + ram_size ri ≤ ram_start rj.

(** Entries laid end to end from [a] to [b], none of them empty. *)
Fixpoint chain (a : Z) (es : list e820entry) (b : Z) : Prop :=
  match es with
  | [] => a = b
  | e :: es' => e820_addr e = a ∧ 0 < e820_size e ∧ chain (a + e820_size e) es' b
  end.

(** Regions in increasing order from [lo] on, none of them empty, ending
    at [regions_end]. *)
Fixpoint regions_from (lo : Z) (rs : list vm_ram_region_t) : Prop :=
  match rs with
  | [] => True
  | r :: rs' => lo ≤ ram_start r ∧ 0 < ram_size r ∧
                regions_from (ram_start r + ram_size r) rs'
  end.

Fixpoint regions_end (lo : Z) (rs : list vm_ram_region_t) : Z :=
  match rs with
  | [] => lo
  | r :: rs' => regions_end (ram_start r + ram_size r) rs'
  end.

(** ** The boot parameters

    [struct boot_params] and the structures in it are declared in headers
    that are not part of the two files; the records below have the members
    the source names, with the widths of the boot protocol, and one more
    component for all the bytes of the structure the source never names. *)

(** Modelled from the spec: the header of the Boot Parameters structure
    (signature, boot flag, loader type, 32-bit kernel entry address, kernel
    alignment, relocatable flag, command-line pointer and size, ramdisk
    pointer, size, root device and version). *)
Record setup_header : Type := {
  root_dev : Z;
  boot_flag : Z;
  header : Z;
  version : Z;
  type_of_loader : Z;
  code32_start : Z;
  ramdisk_image : Z;
  ramdisk_size : Z;
  cmd_line_ptr : Z;
  kernel_alignment : Z;
  relocatable_kernel : Z;
  cmdline_size : Z;
  setup_header_other : Z → Z
}.

(** Modelled from the spec: the Screen Info block (VGA-mode marker, pixel
    width, height and depth, frame buffer base and size, line length,
    per-channel bit size and offset, protected-mode interface segment and
    offset, page count).  In the boot protocol [orig_video_isVGA] and the
    eight channel members have 8 bits, [lfb_base] and [lfb_size] 32 bits
    and the other members 16 bits. *)
Record screen_info : Type := {
  orig_video_isVGA : Z;
  lfb_width : Z;
  lfb_height : Z;
  lfb_depth : Z;
  lfb_base : Z;
  lfb_size : Z;
  lfb_linelength : Z;
  red_size : Z;
  red_pos : Z;
  green_size : Z;
  green_pos : Z;
  blue_size : Z;
  blue_pos : Z;
  rsvd_size : Z;
  rsvd_pos : Z;
  vesapm_seg : Z;
  vesapm_off : Z;
  pages : Z;
  screen_info_other : Z → Z
}.

(** Modelled from the spec: the Boot Parameters structure, with its header,
    its E820 map and count, its Screen Info block and the legacy alt-memory
    field. *)
Record boot_params : Type := {
  bp_screen_info : screen_info;
  alt_mem_k : Z;
  e820_entries : Z;
  hdr : setup_header;
  e820_map : list e820entry;
  boot_params_other : Z → Z
}.

(** [memset(.., 0, sizeof ..)] of each structure. *)
Definition setup_header_zero : setup_header :=
  {| root_dev := 0; boot_flag := 0; header := 0; version := 0; type_of_loader := 0;
     code32_start := 0; ramdisk_image := 0; ramdisk_size := 0; cmd_line_ptr := 0;
     kernel_alignment := 0; relocatable_kernel := 0; cmdline_size := 0;
     setup_header_other := λ _, 0 |}.

Definition screen_info_zero : screen_info :=
  {| orig_video_isVGA := 0; lfb_width := 0; lfb_height := 0; lfb_depth := 0;
     lfb_base := 0; lfb_size := 0; lfb_linelength := 0;
     red_size := 0; red_pos := 0; green_size := 0; green_pos := 0;
     blue_size := 0; blue_pos := 0; rsvd_size := 0; rsvd_pos := 0;
     vesapm_seg := 0; vesapm_off := 0; pages := 0;
     screen_info_other := λ _, 0 |}.

Definition boot_params_zero (cfg : build_config) : boot_params :=
  {| bp_screen_info := screen_info_zero; alt_mem_k := 0; e820_entries := 0;
     hdr := setup_header_zero; e820_map := replicate (E820MAX cfg) e820_zero;
     boot_params_other := λ _, 0 |}.

(** Assignments to the members of [boot_info.hdr]. *)
Definition set_root_dev (v : Z) (h : setup_header) : setup_header :=
  {| root_dev := v; boot_flag := boot_flag h; header := header h; version := version h;
     type_of_loader := type_of_loader h; code32_start := code32_start h;
     ramdisk_image := ramdisk_image h; ramdisk_size := ramdisk_size h;
     cmd_line_ptr := cmd_line_ptr h; kernel_alignment := kernel_alignment h;
     relocatable_kernel := relocatable_kernel h; cmdline_size := cmdline_size h;
     setup_header_other := setup_header_other h |}.
Definition set_boot_flag (v : Z) (h : setup_header) : setup_header :=
  {| root_dev := root_dev h; boot_flag := v; header := header h; version := version h;
     type_of_loader := type_of_loader h; code32_start := code32_start h;
     ramdisk_image := ramdisk_image h; ramdisk_size := ramdisk_size h;
     cmd_line_ptr := cmd_line_ptr h; kernel_alignment := kernel_alignment h;
     relocatable_kernel := relocatable_kernel h; cmdline_size := cmdline_size h;
     setup_header_other := setup_header_other h |}.
Definition set_header (v : Z) (h : setup_header) : setup_header :=
  {| root_dev := root_dev h; boot_flag := boot_flag h; header := v; version := version h;
     type_of_loader := type_of_loader h; code32_start := code32_start h;
     ramdisk_image := ramdisk_image h; ramdisk_size := ramdisk_size h;
     cmd_line_ptr := cmd_line_ptr h; kernel_alignment := kernel_alignment h;
     relocatable_kernel := relocatable_kernel h; cmdline_size := cmdline_size h;
     setup_header_other := setup_header_other h |}.
Definition set_version (v : Z) (h : setup_header) : setup_header :=
  {| root_dev := root_dev h; boot_flag := boot_flag h; header := header h; version := v;
     type_of_loader := type_of_loader h; code32_start := code32_start h;
     ramdisk_image := ramdisk_image h; ramdisk_size := ramdisk_size h;
     cmd_line_ptr := cmd_line_ptr h; kernel_alignment := kernel_alignment h;
     relocatable_kernel := relocatable_kernel h; cmdline_size := cmdline_size h;
     setup_header_other := setup_header_other h |}.
Definition set_type_of_loader (v : Z) (h : setup_header) : setup_header :=
  {| root_dev := root_dev h; boot_flag := boot_flag h; header := header h;
     version := version h; type_of_loader := v; code32_start := code32_start h;
     ramdisk_image := ramdisk_image h; ramdisk_size := ramdisk_size h;
     cmd_line_ptr := cmd_line_ptr h; kernel_alignment := kernel_alignment h;
     relocatable_kernel := relocatable_kernel h; cmdline_size := cmdline_size h;
     setup_header_other := setup_header_other h |}.
Definition set_code32_start (v : Z) (h : setup_header) : setup_header :=
  {| root_dev := root_dev h; boot_flag := boot_flag h; header := header h;
     version := version h; type_of_loader := type_of_loader h; code32_start := v;
     ramdisk_image := ramdisk_image h; ramdisk_size := ramdisk_size h;
     cmd_line_ptr := cmd_line_ptr h; kernel_alignment := kernel_alignment h;
     relocatable_kernel := relocatable_kernel h; cmdline_size := cmdline_size h;
     setup_header_other := setup_header_other h |}.
Definition set_ramdisk_image (v : Z) (h : setup_header) : setup_header :=
  {| root_dev := root_dev h; boot_flag := boot_flag h; header := header h;
     version := version h; type_of_loader := type_of_loader h;
     code32_start := code32_start h; ramdisk_image := v; ramdisk_size := ramdisk_size h;
     cmd_line_ptr := cmd_line_ptr h; kernel_alignment := kernel_alignment h;
     relocatable_kernel := relocatable_kernel h; cmdline_size := cmdline_size h;
     setup_header_other := setup_header_other h |}.
Definition set_ramdisk_size (v : Z) (h : setup_header) : setup_header :=
  {| root_dev := root_dev h; boot_flag := boot_flag h; header := header h;
     version := version h; type_of_loader := type_of_loader h;
     code32_start := code32_start h; ramdisk_image := ramdisk_image h; ramdisk_size := v;
     cmd_line_ptr := cmd_line_ptr h; kernel_alignment := kernel_alignment h;
     relocatable_kernel := relocatable_kernel h; cmdline_size := cmdline_size h;
     setup_header_other := setup_header_other h |}.
Definition set_cmd_line_ptr (v : Z) (h : setup_header) : setup_header :=
  {| root_dev := root_dev h; boot_flag := boot_flag h; header := header h;
     version := version h; type_of_loader := type_of_loader h;
     code32_start := code32_start h; ramdisk_image := ramdisk_image h;
     ramdisk_size := ramdisk_size h; cmd_line_ptr := v;
     kernel_alignment := kernel_alignment h;
     relocatable_kernel := relocatable_kernel h; cmdline_size := cmdline_size h;
     setup_header_other := setup_header_other h |}.
Definition set_kernel_alignment (v : Z) (h : setup_header) : setup_header :=
  {| root_dev := root_dev h; boot_flag := boot_flag h; header := header h;
     version := version h; type_of_loader := type_of_loader h;
     code32_start := code32_start h; ramdisk_image := ramdisk_image h;
     ramdisk_size := ramdisk_size h; cmd_line_ptr := cmd_line_ptr h;
     kernel_alignment := v;
     relocatable_kernel := relocatable_kernel h; cmdline_size := cmdline_size h;
     setup_header_other := setup_header_other h |}.
Definition set_relocatable_kernel (v : Z) (h : setup_header) : setup_header :=
  {| root_dev := root_dev h; boot_flag := boot_flag h; header := header h;
     version := version h; type_of_loader := type_of_loader h;
     code32_start := code32_start h; ramdisk_image := ramdisk_image h;
     ramdisk_size := ramdisk_size h; cmd_line_ptr := cmd_line_ptr h;
     kernel_alignment := kernel_alignment h;
     relocatable_kernel := v; cmdline_size := cmdline_size h;
     setup_header_other := setup_header_other h |}.
Definition set_cmdline_size (v : Z) (h : setup_header) : setup_header :=
  {| root_dev := root_dev h; boot_flag := boot_flag h; header := header h;
     version := version h; type_of_loader := type_of_loader h;
     code32_start := code32_start h; ramdisk_image := ramdisk_image h;
     ramdisk_size := ramdisk_size h; cmd_line_ptr := cmd_line_ptr h;
     kernel_alignment := kernel_alignment h;
     relocatable_kernel := relocatable_kernel h; cmdline_size := v;
     setup_header_other := setup_header_other h |}.

(** Assignments to the members of [boot_info]. *)
Definition set_hdr (f : setup_header → setup_header) (b : boot_params) : boot_params :=
  {| bp_screen_info := bp_screen_info b; alt_mem_k := alt_mem_k b;
     e820_entries := e820_entries b; hdr := f (hdr b); e820_map := e820_map b;
     boot_params_other := boot_params_other b |}.
Definition set_screen_info (v : screen_info) (b : boot_params) : boot_params :=
  {| bp_screen_info := v; alt_mem_k := alt_mem_k b;
     e820_entries := e820_entries b; hdr := hdr b; e820_map := e820_map b;
     boot_params_other := boot_params_other b |}.
Definition set_e820_map (v : list e820entry) (b : boot_params) : boot_params :=
  {| bp_screen_info := bp_screen_info b; alt_mem_k := alt_mem_k b;
     e820_entries := e820_entries b; hdr := hdr b; e820_map := v;
     boot_params_other := boot_params_other b |}.
Definition set_e820_entries (v : Z) (b : boot_params) : boot_params :=
  {| bp_screen_info := bp_screen_info b; alt_mem_k := alt_mem_k b;
     e820_entries := v; hdr := hdr b; e820_map := e820_map b;
     boot_params_other := boot_params_other b |}.
Definition set_alt_mem_k (v : Z) (b : boot_params) : boot_params :=
  {| bp_screen_info := bp_screen_info b; alt_mem_k := v;
     e820_entries := e820_entries b; hdr := hdr b; e820_map := e820_map b;
     boot_params_other := boot_params_other b |}.

(** ** The VBE boot information of the kernel

    The structures of the kernel's bootinfo_types.h, with the members the
    source reads: [vbeInterfaceSeg], [vbeInterfaceOff], [vbeInterfaceLen]
    and [physBasePtr] are 32-bit unsigned, [planes], [bitsPerPixel] and the
    eight channel members 8-bit, the others 16-bit. *)

(** The conversion of an integer to [int]. *)
Definition to_int (x : Z) : Z := (x + 2147483648) mod 4294967296 - 2147483648.

Record vbe_common_t : Type := { bytesPerScanLine : Z }.
Record vbe12_part1_t : Type := {
  xRes : Z; yRes : Z; planes : Z; bitsPerPixel : Z
}.
Record vbe12_part2_t : Type := {
  redLen : Z; redOff : Z; greenLen : Z; greenOff : Z;
  blueLen : Z; blueOff : Z; rsvdLen : Z; rsvdOff : Z
}.
Record vbe20_t : Type := { physBasePtr : Z }.
Record seL4_VBEModeInfoBlock_t : Type := {
  vbe_common : vbe_common_t;
  vbe12_part1 : vbe12_part1_t;
  vbe12_part2 : vbe12_part2_t;
  vbe20 : vbe20_t
}.
Record seL4_X86_BootInfo_VBE : Type := {
  vbeModeInfoBlock : seL4_VBEModeInfoBlock_t;
  vbeInterfaceSeg : Z;
  vbeInterfaceOff : Z;
  vbeInterfaceLen : Z
}.

(** [assert(block)] holds at the one call, on the address of a local. *)
Definition vmm_plat_vesa_fbuffer_size (block : seL4_VBEModeInfoBlock_t) : Z :=
  wrap32 (ALIGN_UP (bytesPerScanLine (vbe_common block) * yRes (vbe12_part1 block)) 65536).

(** ** Copies into guest memory

    [vm_ram_touch] hands a callback the mapped address of a piece of the
    guest range; the callbacks of this file copy that piece out of the object
    their cookie points to. *)
Inductive object : Type :=
| Obj_cmdline (s : string)
| Obj_boot_params (b : boot_params).

Record copy : Type := {
  copy_from : object;
  copy_offset : Z;
  copy_size : Z
}.

Definition ram_touch_callback : Type := Z → Z → copy * Z.

(** [memcpy(vaddr, cookie + offset, size); return 0;] *)
Definition guest_elf_write_address (cookie : object) : ram_touch_callback :=
  λ size offset, ({| copy_from := cookie; copy_offset := offset; copy_size := size |}, 0).

Definition make_guest_cmd_line_continued (cookie : object) : ram_touch_callback :=
  λ size offset, ({| copy_from := cookie; copy_offset := offset; copy_size := size |}, 0).

(** [strlen]: the characters before the first NUL. *)
Fixpoint strlen (s : string) : Z :=
  match s with
  | EmptyString => 0
  | String c s' => if Ascii.eqb c Ascii.zero then 0 else 1 + strlen s'
  end.

(** ** The services of libsel4vm

    The functions the file calls and does not define, over the state [W]
    they own (the guest address space, its RAM regions, the allocator).  A
    pointer result is an address, [0] for [NULL]; [vm_reserve_anon_memory]
    also tells what it stored through its [addr] argument, if anything. *)
Record libsel4vm (W : Type) : Type := {
  vm_mem : W → vm_mem_t;
  vm_ram_allocate : W → Z → Z * W;
  vm_ram_touch : W → Z → Z → ram_touch_callback → Z * W;
  simple_get_extended_bootinfo : W → Z * seL4_X86_BootInfo_VBE;
  vm_reserve_memory_at : W → Z → Z → Z * W;
  map_ut_alloc_reservation : W → Z → Z * W;
  vm_reserve_anon_memory : W → Z → Z * option Z * W;
  map_ut_alloc_reservation_with_base_paddr : W → Z → Z → Z * W;
  make_guest_acpi_tables : W → Z * W
}.
Arguments vm_mem {W} _ _.
Arguments vm_ram_allocate {W} _ _ _.
Arguments vm_ram_touch {W} _ _ _ _ _.
Arguments simple_get_extended_bootinfo {W} _ _.
Arguments vm_reserve_memory_at {W} _ _ _ _.
Arguments map_ut_alloc_reservation {W} _ _ _.
Arguments vm_reserve_anon_memory {W} _ _ _.
Arguments map_ut_alloc_reservation_with_base_paddr {W} _ _ _ _.
Arguments make_guest_acpi_tables {W} _ _.

(** The VM: the state libsel4vm owns and
    [vm->arch.guest_boot_info.boot_info], which only this file writes. *)
Record vm_t (W : Type) : Type := {
  vm_lib : W;
  guest_boot_info_boot_info : Z
}.
Arguments vm_lib {W} _.
Arguments guest_boot_info_boot_info {W} _.

Definition set_vm_lib {W} (w : W) (vm : vm_t W) : vm_t W :=
  {| vm_lib := w; guest_boot_info_boot_info := guest_boot_info_boot_info vm |}.
Definition set_boot_info {W} (v : Z) (vm : vm_t W) : vm_t W :=
  {| vm_lib := vm_lib vm; guest_boot_info_boot_info := v |}.

(** How a call on the VM ends: it returns, it stops at a failed [assert]
    (with the VM as it was then), or it has run into undefined behaviour. *)
Inductive outcome (S A : Type) : Type :=
| Returned (a : A) (s : S)
| Aborted (s : S)
| Undefined.
Arguments Returned {S A} a s.
Arguments Aborted {S A} s.
Arguments Undefined {S A}.

Section Boot.
Context {W : Type}.
Variable cfg : build_config.
Variable L : libsel4vm W.

(** [make_guest_cmd_line(vm, cmdline, &guest_cmd_addr, &guest_cmd_len)]:
    the value returned, the two locals the pointers designate (given as
    they were before the call) and the VM. *)
Definition make_guest_cmd_line (vm : vm_t W) (cmdline : string)
    (guest_cmd_addr guest_cmd_len : Z) : Z * (Z * Z) * vm_t W :=
  let len := strlen cmdline in
  let '(cmd_addr, w) := vm_ram_allocate L (vm_lib vm) (len + 1) in
  let vm := set_vm_lib w vm in
  if cmd_addr =? 0 then (-1, (guest_cmd_addr, guest_cmd_len), vm)
  else
    let guest_cmd_addr := cmd_addr in
    let guest_cmd_len := len in
    let '(r, w) := vm_ram_touch L (vm_lib vm) cmd_addr (len + 1)
                     (make_guest_cmd_line_continued (Obj_cmdline cmdline)) in
    (r, (guest_cmd_addr, guest_cmd_len), set_vm_lib w vm).

(** The block that fills [*info] once [base] is known to be set; each
    value is cut to the width of the member it is stored in. *)
Definition screen_info_of_vbe (info : screen_info) (vbeinfo : seL4_X86_BootInfo_VBE)
    (base fbuffer_size : Z) : screen_info :=
  let block := vbeModeInfoBlock vbeinfo in
  {| orig_video_isVGA := 35;
     lfb_width := wrap16 (xRes (vbe12_part1 block));
     lfb_height := wrap16 (yRes (vbe12_part1 block));
     lfb_depth := wrap16 (bitsPerPixel (vbe12_part1 block));
     lfb_base := wrap32 base;
     lfb_size := wrap32 (Z.shiftr fbuffer_size 16);
     lfb_linelength := wrap16 (bytesPerScanLine (vbe_common block));
     red_size := wrap8 (redLen (vbe12_part2 block));
     red_pos := wrap8 (redOff (vbe12_part2 block));
     green_size := wrap8 (greenLen (vbe12_part2 block));
     green_pos := wrap8 (greenOff (vbe12_part2 block));
     blue_size := wrap8 (blueLen (vbe12_part2 block));
     blue_pos := wrap8 (blueOff (vbe12_part2 block));
     rsvd_size := wrap8 (rsvdLen (vbe12_part2 block));
     rsvd_pos := wrap8 (rsvdOff (vbe12_part2 block));
     vesapm_seg := wrap16 (vbeInterfaceSeg vbeinfo);
     vesapm_off := wrap16 (vbeInterfaceOff vbeinfo);
     pages := wrap16 (planes (vbe12_part1 block));
     screen_info_other := screen_info_other info |}.

(** [pm_base = (vbeinfo.vbeInterfaceSeg << 4) + vbeinfo.vbeInterfaceOff],
    computed in the 32 bits of the two members. *)
Definition vbe_pm_base (vbeinfo : seL4_X86_BootInfo_VBE) : Z :=
  wrap32 (Z.shiftl (vbeInterfaceSeg vbeinfo) 4 + vbeInterfaceOff vbeinfo).

(** [aligned_pm = ROUND_DOWN(pm_base, PAGE_SIZE_4K)] *)
Definition vbe_pm_aligned (vbeinfo : seL4_X86_BootInfo_VBE) : Z :=
  ROUND_DOWN (vbe_pm_base vbeinfo) PAGE_SIZE_4K.

(** [int size = vbeinfo.vbeInterfaceLen + (pm_base - aligned_pm);
    size = ROUND_UP(size, PAGE_SIZE_4K);] and the value the [size_t]
    parameter of [vm_reserve_memory_at] receives for it.  [PAGE_SIZE_4K] is
    unsigned: the remainder and the sum of [ROUND_UP] are taken on the
    unsigned value of [size], and the result is converted back to [int]. *)
Definition vbe_pm_size (vbeinfo : seL4_X86_BootInfo_VBE) : Z :=
  let pm_base := vbe_pm_base vbeinfo in
  let aligned_pm := vbe_pm_aligned vbeinfo in
  let size := to_int (vbeInterfaceLen vbeinfo + (pm_base - aligned_pm)) in
  let size := to_int (ROUND_UP size PAGE_SIZE_4K) in
  wrap (CONFIG_WORD_SIZE cfg) size.

(** The block that maps the protected mode interface: the value of
    [error] after it. *)
Definition map_vbe_pm_interface (w : W) (vbeinfo : seL4_X86_BootInfo_VBE) : Z * W :=
  let pm_base := vbe_pm_base vbeinfo in
  let error := 0 in
  if pm_base >? 49152 then
    let aligned_pm := vbe_pm_aligned vbeinfo in
    let size := vbe_pm_size vbeinfo in
    let '(reservation, w) := vm_reserve_memory_at L w aligned_pm size in
    if negb (reservation =? 0) then map_ut_alloc_reservation L w reservation
    else (-1, w)
  else (error, w).

(** The block that reserves and maps the frame buffer, entered with
    [base == 0]: the values of [base] and [fbuffer_size] after it. *)
Definition map_vesa_frame_buffer (w : W) (vbeinfo : seL4_X86_BootInfo_VBE)
  : Z * Z * W :=
  let base := 0 in
  let fbuffer_size := vmm_plat_vesa_fbuffer_size (vbeModeInfoBlock vbeinfo) in
  let '(reservation, stored, w) := vm_reserve_anon_memory L w fbuffer_size in
  let base := default base stored in
  if reservation =? 0 then (base, fbuffer_size, w)
  else
    let '(error, w) :=
      map_ut_alloc_reservation_with_base_paddr L w
        (physBasePtr (vbe20 (vbeModeInfoBlock vbeinfo))) reservation in
    if negb (error =? 0) then (0, fbuffer_size, w)
    else (base, fbuffer_size, w).

(** The first half of [make_guest_screen_info]: the values of [base] and
    [fbuffer_size] when the test [if (base)] is reached. *)
Definition screen_info_base (w : W) (result : Z) (vbeinfo : seL4_X86_BootInfo_VBE)
  : Z * Z * W :=
  let base := 0 in
  let fbuffer_size := indeterminate cfg in
  if CONFIG_VMM_VESA_FRAMEBUFFER cfg && negb (result =? -1) then
    let '(error, w) := map_vbe_pm_interface w vbeinfo in
    if negb (error =? 0) then (base, fbuffer_size, w)
    else map_vesa_frame_buffer w vbeinfo
  else (base, fbuffer_size, w).

(** [make_guest_screen_info(vm, info)]: [*info] and the VM after the call. *)
Definition make_guest_screen_info (vm : vm_t W) (info : screen_info)
  : screen_info * vm_t W :=
  let '(result, vbeinfo) := simple_get_extended_bootinfo L (vm_lib vm) in
  let '(base, fbuffer_size, w) := screen_info_base (vm_lib vm) result vbeinfo in
  let vm := set_vm_lib w vm in
  if negb (base =? 0) then (screen_info_of_vbe info vbeinfo base fbuffer_size, vm)
  else (screen_info_zero, vm).

(** The local [boot_info] of [make_guest_boot_info] when it is handed to
    [vm_ram_touch]. *)
Definition boot_info_local (vm : vm_t W)
    (guest_cmd_addr guest_cmd_len guest_kernel_load_addr guest_kernel_alignment
     guest_ramdisk_load_addr guest_ramdisk_size : Z) : outcome (vm_t W) boot_params :=
  let boot_info := boot_params_zero cfg in
  let boot_info := set_hdr (set_header 1400005704) boot_info in
  let boot_info := set_hdr (set_boot_flag 43605) boot_info in
  let boot_info := set_hdr (set_type_of_loader 255) boot_info in
  let boot_info := set_hdr (set_code32_start (wrap32 guest_kernel_load_addr)) boot_info in
  let boot_info :=
    set_hdr (set_kernel_alignment (wrap32 guest_kernel_alignment)) boot_info in
  let boot_info := set_hdr (set_relocatable_kernel 1) boot_info in
  let '(info, vm) := make_guest_screen_info vm (bp_screen_info boot_info) in
  let boot_info := set_screen_info info boot_info in
  match make_guest_e820_map cfg (e820_map boot_info) (vm_mem L (vm_lib vm)) with
  | AssertFail => Aborted vm
  | OutOfBounds => Undefined
  | Done (n, e820) =>
      let boot_info := set_e820_map e820 boot_info in
      let boot_info := set_e820_entries (wrap8 (Z.of_nat n)) boot_info in
      let boot_info := set_hdr (set_cmd_line_ptr (wrap32 guest_cmd_addr)) boot_info in
      let boot_info := set_hdr (set_cmdline_size (wrap32 guest_cmd_len)) boot_info in
      let boot_info := set_alt_mem_k 0 boot_info in
      let boot_info :=
        if negb (guest_ramdisk_load_addr =? 0) then
          let boot_info :=
            set_hdr (set_ramdisk_image (wrap32 guest_ramdisk_load_addr)) boot_info in
          let boot_info :=
            set_hdr (set_ramdisk_size (wrap32 guest_ramdisk_size)) boot_info in
          let boot_info := set_hdr (set_root_dev 256) boot_info in
          set_hdr (set_version 516) boot_info
        else set_hdr (set_version 514) boot_info in
      Returned boot_info vm
  end.

Definition make_guest_boot_info (vm : vm_t W)
    (guest_cmd_addr guest_cmd_len guest_kernel_load_addr guest_kernel_alignment
     guest_ramdisk_load_addr guest_ramdisk_size : Z) : outcome (vm_t W) Z :=
  let '(addr, w) := vm_ram_allocate L (vm_lib vm) (sizeof_boot_params cfg) in
  let vm := set_vm_lib w vm in
  if addr =? 0 then Returned (-1) vm
  else
    let vm := set_boot_info addr vm in
    match boot_info_local vm guest_cmd_addr guest_cmd_len guest_kernel_load_addr
            guest_kernel_alignment guest_ramdisk_load_addr guest_ramdisk_size with
    | Aborted vm => Aborted vm
    | Undefined => Undefined
    | Returned boot_info vm =>
        let '(r, w) := vm_ram_touch L (vm_lib vm) addr (sizeof_boot_params cfg)
                         (guest_elf_write_address (Obj_boot_params boot_info)) in
        Returned r (set_vm_lib w vm)
    end.

(** [err = ..; assert(!err);] followed by the rest of the function. *)
Definition assert_no_err {A} (err : Z) (vm : vm_t W) (k : outcome (vm_t W) A)
  : outcome (vm_t W) A :=
  if NDEBUG cfg then k else if err =? 0 then k else Aborted vm.

Definition vmm_plat_init_guest_boot_structure (vm : vm_t W) (cmdline : string)
    (guest_kernel_load_addr guest_kernel_alignment
     guest_ramdisk_load_addr guest_ramdisk_size : Z) : outcome (vm_t W) unit :=
  let guest_cmd_addr := indeterminate cfg in
  let guest_cmd_size := indeterminate cfg in
  let '(err, (guest_cmd_addr, guest_cmd_size), vm) :=
    make_guest_cmd_line vm cmdline guest_cmd_addr guest_cmd_size in
  assert_no_err err vm
    match make_guest_boot_info vm guest_cmd_addr guest_cmd_size
            guest_kernel_load_addr guest_kernel_alignment
            guest_ramdisk_load_addr guest_ramdisk_size with
    | Aborted vm => Aborted vm
    | Undefined => Undefined
    | Returned err vm =>
        assert_no_err err vm
          (let '(err, w) := make_guest_acpi_tables L (vm_lib vm) in
           let vm := set_vm_lib w vm in
           assert_no_err err vm (Returned tt vm))
    end.
End Boot.

(** ** The first thread of the guest *)

(** Modelled from the spec: the register identifiers of the vCPU register
    access of libsel4vm, under the names the source uses. *)
Inductive vcpu_context_reg_t : Type :=
| VCPU_CONTEXT_EAX | VCPU_CONTEXT_EBX | VCPU_CONTEXT_ECX | VCPU_CONTEXT_EDX
| VCPU_CONTEXT_ESI | VCPU_CONTEXT_EDI | VCPU_CONTEXT_EBP.

#[global] Instance vcpu_context_reg_eq_dec : EqDecision vcpu_context_reg_t.
Proof. solve_decision. Defined.

(** Modelled from the spec: the control field identifiers of the vCPU. *)
Inductive vmcs_field_t : Type :=
| VMX_GUEST_RIP | VMX_GUEST_RSP | VMX_GUEST_RFLAGS.

#[global] Instance vmcs_field_eq_dec : EqDecision vmcs_field_t.
Proof. solve_decision. Defined.

(** Modelled from the spec: a vCPU of libsel4vm, with its VM, its register
    file and its control fields. *)
Record vm_vcpu_t (W : Type) : Type := {
  vcpu_vm : vm_t W;
  vcpu_context : vcpu_context_reg_t → Z;
  vcpu_vmcs : vmcs_field_t → Z
}.
Arguments vcpu_vm {W} _.
Arguments vcpu_context {W} _ _.
Arguments vcpu_vmcs {W} _ _.

(** Modelled from the spec: [set_register(vcpu, register_id, value)] of the
    vCPU register access of libsel4vm, a store into the register file. *)
Definition vm_set_thread_context_reg {W} (vcpu : vm_vcpu_t W)
    (reg : vcpu_context_reg_t) (value : Z) : vm_vcpu_t W :=
  {| vcpu_vm := vcpu_vm vcpu;
     vcpu_context := λ r, if decide (r = reg) then value else vcpu_context vcpu r;
     vcpu_vmcs := vcpu_vmcs vcpu |}.

(** Modelled from the spec: [set_control_field(vcpu, field_id, value)] of
    the vCPU register access of libsel4vm, a store into the control fields. *)
Definition vm_set_vmcs_field {W} (vcpu : vm_vcpu_t W)
    (field : vmcs_field_t) (value : Z) : vm_vcpu_t W :=
  {| vcpu_vm := vcpu_vm vcpu;
     vcpu_context := vcpu_context vcpu;
     vcpu_vmcs := λ f, if decide (f = field) then value else vcpu_vmcs vcpu f |}.

Definition vmm_init_guest_thread_state {W} (vcpu : vm_vcpu_t W) (guest_entry_addr : Z)
  : vm_vcpu_t W :=
  let vcpu := vm_set_thread_context_reg vcpu VCPU_CONTEXT_EAX 0 in
  let vcpu := vm_set_thread_context_reg vcpu VCPU_CONTEXT_EBX 0 in
  let vcpu := vm_set_thread_context_reg vcpu VCPU_CONTEXT_ECX 0 in
  let vcpu := vm_set_thread_context_reg vcpu VCPU_CONTEXT_EDX 0 in
  let vcpu := vm_set_vmcs_field vcpu VMX_GUEST_RIP (wrap32 guest_entry_addr) in
  vm_set_thread_context_reg vcpu VCPU_CONTEXT_ESI
    (guest_boot_info_boot_info (vcpu_vm vcpu)).

(** Values of type [uintptr_t] and [size_t] in a build. *)
Definition is_uintptr (cfg : build_config) (x : Z) : Prop :=
  0 ≤ x < 2 ^ CONFIG_WORD_SIZE cfg.

(** ** The I/O port dispatcher

    [ioports.h] declares the types below and the three functions; their
    bodies are not part of the two files. *)

Record ioport_range_t : Type := {
  range_start : Z;
  range_end : Z
}.

Inductive ioport_type_t : Type := IOPORT_EMULATED.

Section IOPorts.
(** What the cookies of the handlers point to. *)
Context {D : Type}.

(** The type [ioport_in_fn] of the input handlers, called with the cookie,
    the port number, the size and a pointer to the result: the value
    returned, the result stored and the devices after the call. *)
Definition ioport_in_fn : Type := Z → Z → Z → D → Z * Z * D.

(** The type [ioport_out_fn] of the output handlers, called with the
    cookie, the port number, the size and the value. *)
Definition ioport_out_fn : Type := Z → Z → Z → Z → D → Z * D.

Record ioport_interface_t : Type := {
  cookie : Z;
  port_in : ioport_in_fn;
  port_out : ioport_out_fn;
  desc : string
}.

Record ioport_entry_t : Type := {
  range : ioport_range_t;
  interface : ioport_interface_t;
  ioport_type : ioport_type_t
}.

Record vmm_io_port_list_t : Type := {
  ioports : list ioport_entry_t
}.

Definition num_ioports (io_list : vmm_io_port_list_t) : Z :=
  Z.of_nat (length (ioports io_list)).

Definition port_in_range (port_no : Z) (r : ioport_range_t) : bool :=
  (range_start r <=? port_no) && (port_no <=? range_end r).

Definition ranges_overlap (a b : ioport_range_t) : bool :=
  (range_start a <=? range_end b) && (range_start b <=? range_end a).

(** Modelled from the spec: [init() -> PortTable] returns an empty table. *)
Definition vmm_io_port_init : vmm_io_port_list_t := {| ioports := [] |}.

Inductive add_result : Type :=
| AddOk
| InvalidRangeError
| OverlapError.

(** Modelled from the spec: the insertion of [add_handler], which keeps the
    table sorted by range start. *)
Fixpoint insert_by_start (e : ioport_entry_t) (l : list ioport_entry_t)
  : list ioport_entry_t :=
  match l with
  | [] => [e]
  | x :: l' =>
      if range_start (range e) <? range_start (range x) then e :: x :: l'
      else x :: insert_by_start e l'
  end.

(** Modelled from the spec: [add_handler(table, range, interface)] of the
    port dispatcher, whose body (vmm_io_port_add_handler) is not among the
    sources.  It validates [start <= end], fails with OverlapError if the new
    range intersects any existing entry, and otherwise inserts the entry
    keeping the order by range start; a failed call leaves the table as it
    was. *)
Definition vmm_io_port_add_handler (io_list : vmm_io_port_list_t)
    (ioport_range : ioport_range_t) (ioport_interface : ioport_interface_t)
  : add_result * vmm_io_port_list_t :=
  if negb (range_start ioport_range <=? range_end ioport_range) then
    (InvalidRangeError, io_list)
  else if existsb (λ e, ranges_overlap (range e) ioport_range) (ioports io_list) then
    (OverlapError, io_list)
  else
    (AddOk,
     {| ioports :=
          insert_by_start {| range := ioport_range; interface := ioport_interface;
                             ioport_type := IOPORT_EMULATED |}
                          (ioports io_list) |}).

(** Modelled from the spec: the lookup of [emulate_io], a linear search for
    the entry whose range contains the port. *)
Definition search_port (io_port : vmm_io_port_list_t) (port_no : Z)
  : option ioport_entry_t :=
  List.find (λ e, port_in_range port_no (range e)) (ioports io_port).

(** Modelled from the spec: [emulate_io(table, port, is_in, size, data)] of
    the port dispatcher, whose body (emulate_io_handler) is not among the
    sources.  No entry contains the port: UNHANDLED, data untouched.  An
    entry and [is_in]: the input handler is called with
    [(cookie, port, size, &result)]; on its success [result] is written
    into [data] and the outcome is HANDLED, on its failure ERROR.  An entry
    and not [is_in]: the output handler is called with
    [(cookie, port, size, *data)]; success is HANDLED, failure ERROR.  The
    three outcomes are the 0, 1 and -1 of the header, and a handler
    succeeds when it returns 0.  The result is the value returned, [*data]
    after the call and the devices after the call. *)
Definition emulate_io_handler (io_port : vmm_io_port_list_t) (port_no : Z)
    (is_in : bool) (size : Z) (data : Z) (d : D) : Z * Z * D :=
  match search_port io_port port_no with
  | None => (1, data, d)
  | Some e =>
      let i := interface e in
      if is_in then
        let '(ret, result, d) := port_in i (cookie i) port_no size d in
        if ret =? 0 then (0, result, d) else (-1, data, d)
      else
        let '(ret, d) := port_out i (cookie i) port_no size data d in
        if ret =? 0 then (0, data, d) else (-1, data, d)
  end.

(** The ports of a range, and ranges that share a port. *)
Definition port_of (r : ioport_range_t) (p : Z) : Prop :=
  range_start r ≤ p ≤ range_end r.

Definition ranges_intersect (a b : ioport_range_t) : Prop :=
  ∃ p, port_of a p ∧ port_of b p.

(** Tables as [add_handler] builds them: no two entries share a port. *)
Fixpoint entries_disjoint (l : list ioport_entry_t) : Prop :=
  match l with
  | [] => True
  | x :: l' =>
      Forall (λ y, ¬ ranges_intersect (range x) (range y)) l' ∧ entries_disjoint l'
  end.

Definition table_disjoint (io_list : vmm_io_port_list_t) : Prop :=
  entries_disjoint (ioports io_list).
End IOPorts.

Arguments ioport_interface_t : clear implicits.
Arguments ioport_entry_t : clear implicits.
Arguments vmm_io_port_list_t : clear implicits.

(** A device for the examples: a data register at ports 0x60 to 0x64 that
    reads back the last value written, and refuses accesses wider than 4
    bytes. *)
Definition data_register : ioport_interface_t Z :=
  {| cookie := 0;
     port_in := λ _ _ size d, if size <=? 4 then (0, d, d) else (-1, 0, d);
     port_out := λ _ _ size value d, if size <=? 4 then (0, value) else (-1, d);
     desc := "data register" |}.

Definition range_60_64 : ioport_range_t := {| range_start := 0x60; range_end := 0x64 |}.
Definition range_62_66 : ioport_range_t := {| range_start := 0x62; range_end := 0x66 |}.

(** ** Builds and a small libsel4vm for the examples *)

Definition ia32_debug : build_config :=
  {| NDEBUG := false; CONFIG_VMM_VESA_FRAMEBUFFER := true; CONFIG_WORD_SIZE := 32;
     E820MAX := 128; E820_RAM := 1; E820_RESERVED := 2;
     sizeof_boot_params := 4096; indeterminate := 3735928559 |}.

Definition ia32_release : build_config :=
  {| NDEBUG := true; CONFIG_VMM_VESA_FRAMEBUFFER := true; CONFIG_WORD_SIZE := 32;
     E820MAX := 128; E820_RAM := 1; E820_RESERVED := 2;
     sizeof_boot_params := 4096; indeterminate := 3735928559 |}.

Definition x86_64_debug : build_config :=
  {| NDEBUG := false; CONFIG_VMM_VESA_FRAMEBUFFER := true; CONFIG_WORD_SIZE := 64;
     E820MAX := 128; E820_RAM := 1; E820_RESERVED := 2;
     sizeof_boot_params := 4096; indeterminate := 3735928559 |}.

Definition region (s z : Z) : vm_ram_region_t :=
  {| ram_start := s; ram_size := z; ram_allocated := false |}.

(** Sixty-four regions of 1 MiB, one every 2 MiB from 1 MiB on. *)
Definition sixty_four_regions : list vm_ram_region_t :=
  map (λ i : nat, region (1048576 * (2 * Z.of_nat i + 1)) 1048576) (seq 0 64).

(** The calls the simulated library has seen, oldest first. *)
Inductive call : Type :=
| Call_ram_allocate (bytes : Z)
| Call_ram_touch (addr : Z) (c : copy)
| Call_reserve_memory_at (addr size : Z)
| Call_map_reservation (reservation : Z)
| Call_reserve_anon_memory (size : Z)
| Call_map_reservation_with_base (paddr reservation : Z)
| Call_acpi_tables.

(** Guest RAM handed out from [sim_brk] up to [sim_top]. *)
Record sim : Type := {
  sim_ram : list vm_ram_region_t;
  sim_brk : Z;
  sim_top : Z;
  sim_calls : list call
}.

Definition sim_log (c : call) (s : sim) : sim :=
  {| sim_ram := sim_ram s; sim_brk := sim_brk s; sim_top := sim_top s;
     sim_calls := sim_calls s ++ [c] |}.

Definition sim_alloc (bytes : Z) (s : sim) : Z * sim :=
  if sim_brk s + bytes <=? sim_top s then
    (sim_brk s,
     {| sim_ram := sim_ram s; sim_brk := sim_brk s + bytes; sim_top := sim_top s;
        sim_calls := sim_calls s ++ [Call_ram_allocate bytes] |})
  else (0, sim_log (Call_ram_allocate bytes) s).

(** What the simulated firmware and address space answer. *)
Record sim_answers : Type := {
  ans_vbe_result : Z;
  ans_vbe : seL4_X86_BootInfo_VBE;
  ans_reserve_at : Z;
  ans_map : Z;
  ans_reserve_anon : Z * option Z;
  ans_map_with_base : Z;
  ans_acpi : Z
}.

Definition sim_libsel4vm (a : sim_answers) : libsel4vm sim :=
  {| vm_mem := λ s, {| ram_regions := sim_ram s |};
     vm_ram_allocate := λ s bytes, sim_alloc bytes s;
     vm_ram_touch := λ s addr size cb,
       let '(c, r) := cb size 0 in (r, sim_log (Call_ram_touch addr c) s);
     simple_get_extended_bootinfo := λ s, (ans_vbe_result a, ans_vbe a);
     vm_reserve_memory_at := λ s addr size,
       (ans_reserve_at a, sim_log (Call_reserve_memory_at addr size) s);
     map_ut_alloc_reservation := λ s r,
       (ans_map a, sim_log (Call_map_reservation r) s);
     vm_reserve_anon_memory := λ s size,
       (ans_reserve_anon a, sim_log (Call_reserve_anon_memory size) s);
     map_ut_alloc_reservation_with_base_paddr := λ s paddr r,
       (ans_map_with_base a, sim_log (Call_map_reservation_with_base paddr r) s);
     make_guest_acpi_tables := λ s, (ans_acpi a, sim_log Call_acpi_tables s) |}.

(** A 1024x768x32 mode whose protected-mode interface lies at 0xc8000. *)
Definition vbe_1024x768 : seL4_X86_BootInfo_VBE :=
  {| vbeModeInfoBlock :=
       {| vbe_common := {| bytesPerScanLine := 4096 |};
          vbe12_part1 := {| xRes := 1024; yRes := 768; planes := 1; bitsPerPixel := 32 |};
          vbe12_part2 := {| redLen := 8; redOff := 16; greenLen := 8; greenOff := 8;
                            blueLen := 8; blueOff := 0; rsvdLen := 8; rsvdOff := 24 |};
          vbe20 := {| physBasePtr := 4244635648 |} |};
     vbeInterfaceSeg := 50944;
     vbeInterfaceOff := 4096;
     vbeInterfaceLen := 512 |}.

(** No VBE information from the kernel; every other call succeeds. *)
Definition no_vbe : sim_answers :=
  {| ans_vbe_result := -1; ans_vbe := vbe_1024x768; ans_reserve_at := 1; ans_map := 0;
     ans_reserve_anon := (2, Some 3221225472); ans_map_with_base := 0; ans_acpi := 0 |}.

(** VBE information, and the reservation of the frame buffer fails. *)
Definition no_frame_buffer : sim_answers :=
  {| ans_vbe_result := 0; ans_vbe := vbe_1024x768; ans_reserve_at := 1; ans_map := 0;
     ans_reserve_anon := (0, None); ans_map_with_base := 0; ans_acpi := 0 |}.


(** A guest with 255 MiB of RAM from 1 MiB on, all of it free. *)
Definition sim_guest : vm_t sim :=
  {| vm_lib := {| sim_ram := [region 1048576 267386880]; sim_brk := 1048576;
                  sim_top := 268435456; sim_calls := [] |};
     guest_boot_info_boot_info := 0 |}.

(** The same guest with no RAM left to allocate. *)
Definition sim_guest_full : vm_t sim :=
  {| vm_lib := {| sim_ram := [region 1048576 267386880]; sim_brk := 268435456;
                  sim_top := 268435456; sim_calls := [] |};
     guest_boot_info_boot_info := 0 |}.

Definition sim_vcpu (vm : vm_t sim) : vm_vcpu_t sim :=
  {| vcpu_vm := vm; vcpu_context := λ _, 4919; vcpu_vmcs := λ _, 4919 |}.

(** ** The claims of the specification that the code does not meet, as the
    specification states them *)

(** The generated map of a region list: it is produced, sorted,
    non-overlapping, covers exactly [0, 2^32), and every listed RAM region
    lies in an entry of type RAM. *)
Definition e820_map_claim (cfg : build_config) (e820 : list e820entry)
    (rs : list vm_ram_region_t) : Prop :=
  ∃ n e820',
    make_guest_e820_map cfg e820 {| ram_regions := rs |} = Done (n, e820') ∧
    let m := take n e820' in
    e820_sorted m ∧ e820_non_overlapping m ∧ e820_covers m 0 4294967296 ∧
    ∀ r, r ∈ rs → ram_reported cfg m r.

(** Every emitted entry has a non-zero length, so that the closing
    assertions hold. *)
Definition e820_lengths_claim (cfg : build_config) (e820 : list e820entry)
    (rs : list vm_ram_region_t) : Prop :=
  ∃ n e820',
    make_guest_e820_map cfg e820 {| ram_regions := rs |} = Done (n, e820') ∧
    Forall e820_nonzero_length (take n e820').


(** Construction is fail-fast: when the allocation of the command line
    yields 0 the operation fails there, with the VM as that allocation left
    it, and no later step runs. *)
Definition fail_fast_claim {W} (cfg : build_config) (L : libsel4vm W) (vm : vm_t W)
    (cmdline : string) (guest_kernel_load_addr guest_kernel_alignment
    guest_ramdisk_load_addr guest_ramdisk_size : Z) : Prop :=
  ∀ w, vm_ram_allocate L (vm_lib vm) (strlen cmdline + 1) = (0, w) →
    vmm_plat_init_guest_boot_structure cfg L vm cmdline guest_kernel_load_addr
      guest_kernel_alignment guest_ramdisk_load_addr guest_ramdisk_size
    = Aborted (set_vm_lib w vm).

(** The initial thread state: EAX, EBX, ECX and EDX are zero, RIP is the
    entry address, ESI is the recorded address of the boot parameters. *)
Definition thread_state_claim {W} (cfg : build_config) (vcpu : vm_vcpu_t W)
    (guest_entry_addr : Z) : Prop :=
  is_uintptr cfg guest_entry_addr →
  let vcpu' := vmm_init_guest_thread_state vcpu guest_entry_addr in
  vcpu_context vcpu' VCPU_CONTEXT_EAX = 0 ∧
  vcpu_context vcpu' VCPU_CONTEXT_EBX = 0 ∧
  vcpu_context vcpu' VCPU_CONTEXT_ECX = 0 ∧
  vcpu_context vcpu' VCPU_CONTEXT_EDX = 0 ∧
  vcpu_vmcs vcpu' VMX_GUEST_RIP = guest_entry_addr ∧
  vcpu_context vcpu' VCPU_CONTEXT_ESI = guest_boot_info_boot_info (vcpu_vm vcpu).


(** ** Further predicates on maps and memory *)

(** Entries laid end to end from [a] to [b] in 64-bit arithmetic, empty
    entries included. *)
Fixpoint chain64 (a : Z) (es : list e820entry) (b : Z) : Prop :=
  match es with
  | [] => wrap64 a = wrap64 b
  | e :: es' =>
      wrap64 (e820_addr e) = wrap64 a ∧ chain64 (e820_addr e + e820_size e) es' b
  end.

(** Each entry starts where the one before it ends, modulo 2^64. *)
Definition e820_contiguous (m : list e820entry) : Prop :=
  ∀ (i : nat) e1 e2, m !! i = Some e1 → m !! S i = Some e2 →
    wrap64 (e820_addr e2) = wrap64 (e820_addr e1 + e820_size e1).

(** The addresses of a RAM region. *)
Definition in_region (x : Z) (r : vm_ram_region_t) : Prop :=
  ram_start r ≤ x < ram_start r + ram_size r.

(** An entry of type RAM holds addresses of the regions [rs] only. *)
Definition only_ram (cfg : build_config) (rs : list vm_ram_region_t) (e : e820entry)
  : Prop :=
  e820_type e = E820_RAM cfg →
  ∀ x, in_entry x e → ∃ r, r ∈ rs ∧ in_region x r.

(** An entry is of type RESERVED, or of type RAM and starts where a region
    of [rs] starts. *)
Definition e820_entry_kind (cfg : build_config) (rs : list vm_ram_region_t)
    (e : e820entry) : Prop :=
  e820_type e = E820_RESERVED cfg ∨
  (e820_type e = E820_RAM cfg ∧ ∃ r, r ∈ rs ∧ e820_addr e = ram_start r).

(** Regions in increasing order above [lo], none of them empty and no two of
    them adjacent. *)
Fixpoint regions_apart (lo : Z) (rs : list vm_ram_region_t) : Prop :=
  match rs with
  | [] => True
  | r :: rs' => lo < ram_start r ∧ 0 < ram_size r ∧
                regions_apart (ram_start r + ram_size r) rs'
  end.

(** Two adjacent regions as one. *)
Definition merge_regions (r1 r2 : vm_ram_region_t) (allocated : bool) : vm_ram_region_t :=
  {| ram_start := ram_start r1; ram_size := ram_size r1 + ram_size r2;
     ram_allocated := allocated |}.

(** The VM of the examples once its boot structures are in place. *)
Definition sim_guest_booted : vm_t sim :=
  match vmm_plat_init_guest_boot_structure ia32_debug (sim_libsel4vm no_vbe) sim_guest
          "console=ttyS0" 0x1000000 0x1000000 0 0 with
  | Returned _ vm' => vm'
  | _ => sim_guest
  end.

(** ** The copies, byte by byte *)

(** [memcpy(dest, src, n)] on the bytes from [dest] on and from [src] on:
    the bytes from [dest] on after the call; undefined when one of the two
    is shorter than [n]. *)
Definition memcpy (dest src : list Z) (n : nat) : option (list Z) :=
  if decide (n ≤ length src ∧ n ≤ length dest)%nat
  then Some (take n src ++ drop n dest) else None.

(** The bytes a C string occupies: its characters and the NUL after them. *)
Definition string_bytes (s : string) : list Z :=
  map (λ c, Z.of_N (N_of_ascii c)) (list_ascii_of_string s) ++ [0].

Section Bytes.
(** The bytes of a [struct boot_params], as the compiler lays it out. *)
Variable boot_params_bytes : boot_params → list Z.

Definition object_bytes (o : object) : list Z :=
  match o with
  | Obj_cmdline s => string_bytes s
  | Obj_boot_params b => boot_params_bytes b
  end.

(** What the [memcpy(vaddr, cookie + offset, size)] of a callback does to
    the bytes from [vaddr] on; undefined when [cookie + offset] lies past
    the end of the object. *)
Definition copy_to (c : copy) (vaddr : list Z) : option (list Z) :=
  let src := object_bytes (copy_from c) in
  if decide (Z.to_nat (copy_offset c) ≤ length src)%nat
  then memcpy vaddr (drop (Z.to_nat (copy_offset c)) src) (Z.to_nat (copy_size c))
  else None.
End Bytes.

(** [memcpy(vaddr, cookie + offset, size); return 0;], the body of
    [guest_elf_write_address] and of [make_guest_cmd_line_continued], on the
    bytes from [vaddr] on and from [cookie] on: the bytes from [vaddr] on
    after the call, and the value returned; undefined when [cookie + offset]
    lies past the end of the buffer. *)
Definition guest_elf_write_bytes (vaddr cookie : list Z) (size offset : Z)
  : option (list Z * Z) :=
  if decide (Z.to_nat offset ≤ length cookie)%nat then
    match memcpy vaddr (drop (Z.to_nat offset) cookie) (Z.to_nat size) with
    | Some written => Some (written, 0)
    | None => None
    end
  else None.

(** [memcpy(cookie + offset, vaddr, size); return 0;] on the bytes from
    [vaddr] on and from [cookie] on: the bytes from [cookie] on after the
    call, and the value returned; undefined when [cookie + offset] lies past
    the end of the buffer. *)
Definition guest_elf_read_address (vaddr cookie : list Z) (size offset : Z)
  : option (list Z * Z) :=
  if decide (Z.to_nat offset ≤ length cookie)%nat then
    match memcpy (drop (Z.to_nat offset) cookie) vaddr (Z.to_nat size) with
    | Some written => Some (take (Z.to_nat offset) cookie ++ written, 0)
    | None => None
    end
  else None.

(** A guest with room for its command line and not for its boot parameters. *)
Definition sim_guest_tight : vm_t sim :=
  {| vm_lib := {| sim_ram := [region 1048576 267386880]; sim_brk := 1048576;
                  sim_top := 1048576 + 100; sim_calls := [] |};
     guest_boot_info_boot_info := 0 |}.

(** An array of [E820MAX] entries that holds what the stack held. *)
Definition e820_garbage : list e820entry :=
  replicate 128 {| e820_addr := 3735928559; e820_size := 3735928559;
                   e820_type := 3735928559 |}.

(** The outcomes of the loop body: it keeps the length of the array; with
    assertions it stays below [E820MAX] or aborts; it leaves the array only
    without assertions, or when the array is shorter than [E820MAX]. *)
Definition e820_outcome (cfg : build_config) (a : list e820entry) (k : nat)
    (res : result (list e820entry * nat)) : Prop :=
  match res with
  | Done (a', k') =>
      length a' = length a ∧ (k ≤ k')%nat ∧
      (NDEBUG cfg = false → (k < E820MAX cfg)%nat → (k' < E820MAX cfg)%nat)
  | AssertFail => NDEBUG cfg = false
  | OutOfBounds =>
      NDEBUG cfg = true ∨ (length a < E820MAX cfg)%nat ∨ (E820MAX cfg ≤ k)%nat
  end.

(** The array after the call on 1 MiB of RAM at 1 MiB. *)
Definition e820_1MiB_map : list e820entry :=
  [ {| e820_addr := 0; e820_size := 0x100000;
       e820_type := E820_RESERVED ia32_debug |};
    {| e820_addr := 0x100000; e820_size := 0x100000;
       e820_type := E820_RAM ia32_debug |};
    {| e820_addr := 0x200000; e820_size := 0xFFE00000;
       e820_type := E820_RESERVED ia32_debug |} ]
  ++ replicate 125 e820_zero.
(** * Properties *)

(** ** Machine integers *)

Lemma wrap64_small x : 0 ≤ x < 18446744073709551616 → wrap64 x = x.
Proof. intros H. unfold wrap64, wrap. apply Z.mod_small. lia. Qed.

(** ** Array accesses *)

Lemma e820_get_at (l1 : list e820entry) x l2 (n : nat) :
  n = length l1 → e820_get (l1 ++ x :: l2) n = Done x.
Proof.
  intros ->. unfold e820_get. by rewrite list_lookup_middle.
Qed.

Lemma e820_upd_at (l1 : list e820entry) x l2 (n : nat) f :
  n = length l1 → e820_upd (l1 ++ x :: l2) n f = Done (l1 ++ f x :: l2).
Proof.
  intros ->. unfold e820_upd. rewrite list_lookup_middle; [|done].
  f_equal. rewrite insert_app_r_alt; [|lia].
  by rewrite Nat.sub_diag.
Qed.

Lemma e820_upd_0 x (l : list e820entry) f : e820_upd (x :: l) 0 f = Done (f x :: l).
Proof. reflexivity. Qed.

Lemma app_snoc_cons {A} (l1 : list A) a l2 : l1 ++ a :: l2 = (l1 ++ [a]) ++ l2.
Proof. by rewrite <- app_assoc. Qed.

Lemma set_all_fields a z t e :
  set_size z (set_type t (set_addr a e)) =
  {| e820_addr := a; e820_size := z; e820_type := t |}.
Proof. reflexivity. Qed.

#[local] Arguments wrap64 : simpl never.

Lemma next_entry_ok cfg (entry : nat) :
  (S entry < E820MAX cfg)%nat → next_entry cfg entry = Done (S entry).
Proof.
  intros H. unfold next_entry, assert_.
  destruct (NDEBUG cfg); [done|]. by rewrite bool_decide_true.
Qed.

(** ** The loop body on the array is [e820_step] on the list *)

Lemma e820_region_list cfg r closed cur rest :
  let st' := e820_step cfg r (closed, cur) in
  (length st'.1 - length closed ≤ length rest)%nat →
  (length closed + S (length rest) ≤ E820MAX cfg)%nat →
  e820_region cfg r (closed ++ cur :: rest, length closed) =
  Done (st'.1 ++ st'.2 :: drop (length st'.1 - length closed) rest, length st'.1).
Proof.
  unfold e820_step, e820_region.
  rewrite e820_get_at by done. simpl.
  destruct (wrap64 (e820_addr cur + e820_size cur) =? ram_start r) eqn:Hgap; simpl.
  - intros _ _. rewrite e820_get_at by done. simpl.
    rewrite e820_upd_at by done. simpl.
    by rewrite Nat.sub_diag.
  - destruct (e820_size cur =? 0) eqn:Hsz; simpl.
    + rewrite length_app. simpl. intros Hroom Hmax.
      destruct rest as [|x rest]; [simpl in Hroom; lia|].
      rewrite e820_get_at by done. simpl.
      rewrite e820_upd_at by done. simpl.
      rewrite next_entry_ok by (simpl in Hmax; lia). simpl.
      rewrite (app_snoc_cons closed).
      rewrite e820_upd_at by (rewrite length_app; simpl; lia). simpl.
      rewrite e820_upd_at by (rewrite length_app; simpl; lia). simpl.
      rewrite e820_get_at by (rewrite length_app; simpl; lia). simpl.
      rewrite e820_upd_at by (rewrite length_app; simpl; lia). simpl.
      replace (length closed + 1 - length closed)%nat with 1%nat by lia.
      rewrite set_all_fields. unfold e820_ram_entry, drop.
      do 2 f_equal. lia.
    + rewrite length_app. simpl. intros Hroom Hmax.
      destruct rest as [|x [|y rest]]; [simpl in Hroom; lia..|].
      rewrite next_entry_ok by (simpl in Hmax; lia). simpl.
      rewrite Nat.sub_0_r.
      rewrite e820_get_at by done. simpl.
      rewrite (app_snoc_cons closed).
      rewrite e820_upd_at by (rewrite length_app; simpl; lia). simpl.
      rewrite e820_upd_at by (rewrite length_app; simpl; lia). simpl.
      rewrite e820_get_at by (rewrite length_app; simpl; lia). simpl.
      rewrite e820_upd_at by (rewrite length_app; simpl; lia). simpl.
      rewrite next_entry_ok by (simpl in Hmax; lia). simpl.
      rewrite (app_snoc_cons (closed ++ [cur])).
      rewrite e820_upd_at by (rewrite !length_app; simpl; lia). simpl.
      rewrite e820_upd_at by (rewrite !length_app; simpl; lia). simpl.
      rewrite e820_get_at by (rewrite !length_app; simpl; lia). simpl.
      rewrite e820_upd_at by (rewrite !length_app; simpl; lia). simpl.
      replace (length closed + 2 - length closed)%nat with 2%nat by lia.
      rewrite !set_all_fields. unfold e820_ram_entry, drop.
      rewrite <- !app_assoc. simpl.
      do 2 f_equal. lia.
Qed.

Lemma e820_step_length cfg r closed cur :
  (length closed ≤ length (e820_step cfg r (closed, cur)).1 ≤ length closed + 2)%nat.
Proof.
  unfold e820_step.
  destruct (_ =? ram_start r); [simpl; lia|].
  destruct (_ =? 0); simpl; rewrite length_app; simpl; lia.
Qed.

Lemma e820_steps_cons cfg r rs st :
  e820_steps cfg (r :: rs) st = e820_steps cfg rs (e820_step cfg r st).
Proof. reflexivity. Qed.

#[local] Arguments e820_step : simpl never.
#[local] Arguments e820_steps : simpl never.

Lemma e820_steps_length cfg rs : ∀ closed cur,
  (length closed ≤ length (e820_steps cfg rs (closed, cur)).1
   ≤ length closed + 2 * length rs)%nat.
Proof.
  induction rs as [|r rs IH]; intros closed cur; [simpl; lia|].
  rewrite e820_steps_cons.
  pose proof (e820_step_length cfg r closed cur) as H1.
  destruct (e820_step cfg r (closed, cur)) as [closed1 cur1] eqn:E.
  specialize (IH closed1 cur1). simpl in *. lia.
Qed.

Lemma e820_regions_list cfg rs : ∀ closed cur rest,
  let st' := e820_steps cfg rs (closed, cur) in
  (length st'.1 - length closed ≤ length rest)%nat →
  (length closed + S (length rest) ≤ E820MAX cfg)%nat →
  e820_regions cfg rs (closed ++ cur :: rest, length closed) =
  Done (st'.1 ++ st'.2 :: drop (length st'.1 - length closed) rest, length st'.1).
Proof.
  induction rs as [|r rs IH]; intros closed cur rest; cbv zeta.
  - intros _ _. simpl. by rewrite Nat.sub_diag.
  - rewrite e820_steps_cons.
    pose proof (e820_step_length cfg r closed cur) as H1.
    pose proof (e820_region_list cfg r closed cur rest) as Hr.
    destruct (e820_step cfg r (closed, cur)) as [closed1 cur1] eqn:E.
    pose proof (e820_steps_length cfg rs closed1 cur1) as H2.
    cbn [fst snd] in H1, Hr, H2 |- *. intros Hroom Hmax.
    cbn [e820_regions]. rewrite Hr by lia. cbn [mbind result_bind].
    rewrite IH by (rewrite ?length_drop; lia).
    rewrite drop_drop. do 5 f_equal. lia.
Qed.

Lemma e820_check_S cfg e820 (i n : nat) :
  e820_check cfg e820 i (S n) =
  (e ← e820_get e820 i;
   _ ← assert_ cfg (e820_addr e <? wrap64 (e820_addr e + e820_size e));
   e820_check cfg e820 (S i) n).
Proof. reflexivity. Qed.

#[local] Arguments e820_check : simpl never.

Lemma e820_check_ok cfg m rest :
  (NDEBUG cfg = false → Forall e820_nonzero_length m) →
  ∀ pre, e820_check cfg (pre ++ m ++ rest) (length pre) (length m) = Done tt.
Proof.
  induction m as [|e m IH]; intros Hnz pre; cbn [length]; [done|].
  rewrite e820_check_S. cbn [app].
  rewrite e820_get_at by done. simpl.
  assert (assert_ cfg (e820_addr e <? wrap64 (e820_addr e + e820_size e)) = Done tt)
    as ->.
  { unfold assert_. destruct (NDEBUG cfg); [done|].
    specialize (Hnz eq_refl). apply Forall_cons in Hnz as [Hnz _].
    unfold e820_nonzero_length in Hnz. by apply Z.ltb_lt in Hnz as ->. }
  simpl. rewrite (app_snoc_cons pre).
  replace (S (length pre)) with (length (pre ++ [e])) by (rewrite length_app; simpl; lia).
  apply IH. intros Hd. specialize (Hnz Hd). by apply Forall_cons in Hnz as [_ ?].
Qed.

(** ** [make_guest_e820_map] writes [e820_map_of] and nothing else *)

Lemma make_guest_e820_map_list cfg e820 rs :
  let m := e820_map_of cfg rs in
  (length m ≤ length e820 ≤ E820MAX cfg)%nat →
  (NDEBUG cfg = false → rs ≠ [] ∧ Forall e820_nonzero_length m) →
  make_guest_e820_map cfg e820 {| ram_regions := rs |} =
  Done (length m, m ++ drop (length m) e820).
Proof.
  unfold e820_map_of, make_guest_e820_map.
  pose proof (e820_steps_length cfg rs [] (e820_initial cfg)) as Hlen.
  pose proof (e820_regions_list cfg rs [] (e820_initial cfg)) as Hloop.
  destruct (e820_steps cfg rs ([], e820_initial cfg)) as [closed cur] eqn:E.
  simpl in Hlen, Hloop. rewrite length_app. simpl.
  intros Hroom Hdbg.
  destruct e820 as [|x0 rest0]; [simpl in Hroom; lia|].
  simpl in Hroom.
  rewrite !e820_upd_0. cbn [mbind result_bind].
  rewrite !e820_upd_0. cbn [mbind result_bind].
  rewrite !e820_upd_0. cbn [mbind result_bind].
  assert (assert_ cfg (0 <? num_ram_regions {| ram_regions := rs |}) = Done tt) as ->.
  { unfold assert_. destruct (NDEBUG cfg); [done|].
    destruct (Hdbg eq_refl) as [Hne _]. destruct rs; [done|]. done. }
  cbn [mbind result_bind ram_regions].
  change (set_type _ (set_size 0 (set_addr 0 x0))) with (e820_initial cfg).
  rewrite (Hloop rest0) by lia. simpl.
  rewrite Nat.sub_0_r.
  destruct (drop (length closed) rest0) as [|x rest] eqn:Hdrop.
  { apply (f_equal length) in Hdrop. rewrite length_drop in Hdrop. simpl in Hdrop. lia. }
  rewrite next_entry_ok by lia. simpl. rewrite Nat.sub_0_r.
  rewrite e820_get_at by done. simpl.
  rewrite (app_snoc_cons closed).
  rewrite e820_upd_at by (rewrite length_app; simpl; lia). simpl.
  rewrite e820_get_at by (rewrite length_app; simpl; lia). simpl.
  rewrite e820_upd_at by (rewrite length_app; simpl; lia). simpl.
  rewrite e820_upd_at by (rewrite length_app; simpl; lia).
  cbn [mbind result_bind].
  change (set_type _ (set_size _ (set_addr _ x))) with (e820_final cfg cur).
  set (m := closed ++ [cur; e820_final cfg cur]) in *.
  replace ((closed ++ [cur]) ++ e820_final cfg cur :: rest) with ([] ++ m ++ rest)
    by (subst m; simpl; by rewrite <- !app_assoc).
  replace (S (S (length closed))) with (length m)
    by (subst m; rewrite length_app; simpl; lia).
  rewrite (e820_check_ok cfg m rest) by (intros Hd; by apply Hdbg).
  cbn [mbind result_bind app].
  replace (length closed + 2)%nat with (length m)
    by (subst m; rewrite length_app; simpl; lia).
  do 3 f_equal.
  replace (length m) with (S (length closed + 1))
    by (subst m; rewrite length_app; simpl; lia).
  cbn [drop]. by rewrite <- drop_drop, Hdrop.
Qed.

(** ** Entries laid end to end *)

Lemma chain_le a es : ∀ b, chain a es b → a ≤ b.
Proof.
  revert a. induction es as [|e es IH]; intros a b; simpl; [lia|].
  intros (_ & Hpos & Hrest). apply IH in Hrest. lia.
Qed.

Lemma chain_snoc es e : ∀ a b,
  chain a (es ++ [e]) b ↔
  chain a es (e820_addr e) ∧ 0 < e820_size e ∧ b = e820_addr e + e820_size e.
Proof.
  induction es as [|e' es IH]; intros a b; simpl.
  - split; [intros (-> & ? & <-)|intros (-> & ? & ->)]; done.
  - rewrite IH. tauto.
Qed.

Lemma chain_lookup es : ∀ a b (i : nat) e,
  chain a es b → es !! i = Some e →
  a ≤ e820_addr e ∧ 0 < e820_size e ∧ e820_addr e + e820_size e ≤ b.
Proof.
  induction es as [|e' es IH]; intros a b i e; simpl; [done|].
  intros (Ha & Hpos & Hrest) Hi. destruct i as [|i]; simpl in Hi.
  - injection Hi as <-. apply chain_le in Hrest. lia.
  - destruct (IH _ _ _ _ Hrest Hi) as (? & ? & ?). lia.
Qed.

Lemma chain_ordered es : ∀ a b (i j : nat) ei ej,
  chain a es b → es !! i = Some ei → es !! j = Some ej → (i < j)%nat →
  e820_addr ei + e820_size ei ≤ e820_addr ej.
Proof.
  induction es as [|e' es IH]; intros a b i j ei ej; simpl; [done|].
  intros (Ha & Hpos & Hrest) Hi Hj Hlt.
  destruct j as [|j]; [lia|]. simpl in Hj.
  destruct i as [|i]; simpl in Hi.
  - injection Hi as <-. destruct (chain_lookup _ _ _ _ _ Hrest Hj). lia.
  - eapply IH; eauto. lia.
Qed.

Lemma chain_sorted a es b : chain a es b → e820_sorted es.
Proof.
  intros Hc i j ei ej Hi Hj Hlt.
  pose proof (chain_ordered _ _ _ _ _ _ _ Hc Hi Hj Hlt).
  destruct (chain_lookup _ _ _ _ _ Hc Hi) as (_ & ? & _). lia.
Qed.

Lemma chain_non_overlapping a es b : chain a es b → e820_non_overlapping es.
Proof.
  intros Hc i j ei ej x Hi Hj Hne [Hx1 Hx2] [Hy1 Hy2].
  destruct (Nat.lt_total i j) as [Hlt|[Heq|Hgt]]; [|done|].
  - pose proof (chain_ordered _ _ _ _ _ _ _ Hc Hi Hj Hlt). lia.
  - pose proof (chain_ordered _ _ _ _ _ _ _ Hc Hj Hi Hgt). lia.
Qed.

Lemma chain_covers es : ∀ a b, chain a es b → e820_covers es a b.
Proof.
  induction es as [|e es IH]; intros a b; simpl.
  - intros <- x. split; [intros (e & He & _); by apply elem_of_nil in He|lia].
  - intros (Ha & Hpos & Hrest) x.
    pose proof (chain_le _ _ _ Hrest) as Hle.
    specialize (IH _ _ Hrest x). split.
    + intros (e' & He' & Hx). apply elem_of_cons in He' as [->|He'].
      * unfold in_entry in Hx. lia.
      * assert (a + e820_size e ≤ x < b) by (apply IH; eauto). lia.
    + intros Hx. destruct (Z_lt_le_dec x (a + e820_size e)) as [Hlt|Hge].
      * exists e. split; [apply elem_of_cons; by left|]. unfold in_entry. lia.
      * destruct IH as [_ IH]. destruct IH as (e' & He' & Hx'); [lia|].
        exists e'. split; [apply elem_of_cons; by right|done].
Qed.

Lemma chain_nonzero_length es : ∀ a b,
  0 ≤ a → b ≤ 4294967296 → chain a es b → Forall e820_nonzero_length es.
Proof.
  induction es as [|e es IH]; intros a b Ha Hb; simpl; [constructor|].
  intros (Hadr & Hpos & Hrest). pose proof (chain_le _ _ _ Hrest).
  constructor; [|eapply (IH (a + e820_size e) b); eauto; lia].
  unfold e820_nonzero_length. rewrite wrap64_small; lia.
Qed.

(** ** One region: what [e820_step] keeps and what it establishes *)

Lemma e820_step_spec cfg r closed cur :
  chain 0 closed (e820_addr cur) →
  0 ≤ e820_size cur →
  e820_addr cur + e820_size cur ≤ ram_start r →
  0 < ram_size r →
  ram_start r + ram_size r < 18446744073709551616 →
  let st' := e820_step cfg r (closed, cur) in
  chain 0 st'.1 (e820_addr st'.2) ∧
  0 < e820_size st'.2 ∧
  e820_addr st'.2 + e820_size st'.2 = ram_start r + ram_size r ∧
  e820_addr st'.2 ≤ ram_start r ∧
  (e820_type cur = E820_RAM cfg ∨ e820_addr cur + e820_size cur < ram_start r →
   e820_type st'.2 = E820_RAM cfg) ∧
  (∃ cur2 tail, st'.1 ++ [st'.2] = closed ++ cur2 :: tail ∧
     e820_addr cur2 = e820_addr cur ∧ e820_type cur2 = e820_type cur ∧
     e820_size cur ≤ e820_size cur2) ∧
  (e820_size cur = 0 → (length st'.1 ≤ length closed + 1)%nat).
Proof.
  intros Hc Hsz Hle Hpos Hmax. pose proof (chain_le _ _ _ Hc) as Ha.
  unfold e820_step, e820_ram_entry.
  rewrite !(wrap64_small (e820_addr cur + e820_size cur)) by lia.
  rewrite !(wrap64_small (ram_start r - e820_addr cur)) by lia.
  rewrite !(wrap64_small (ram_start r - (e820_addr cur + e820_size cur))) by lia.
  rewrite Z.sub_diag. rewrite (wrap64_small 0) by lia.
  rewrite !wrap64_small by lia.
  destruct (e820_addr cur + e820_size cur =? ram_start r) eqn:Hgap.
  - apply Z.eqb_eq in Hgap. simpl. repeat split; try lia; try tauto.
    exists (set_size (ram_start r - e820_addr cur + ram_size r) cur), [].
    simpl. repeat split; (done || lia).
  - apply Z.eqb_neq in Hgap.
    destruct (e820_size cur =? 0) eqn:Hz.
    + apply Z.eqb_eq in Hz. simpl. repeat split; try lia.
      * apply chain_snoc. simpl. repeat split; [done|lia|lia].
      * do 2 eexists. split; [rewrite <- app_assoc; simpl; reflexivity|].
        simpl. repeat split; lia.
      * rewrite length_app. simpl. lia.
    + apply Z.eqb_neq in Hz. simpl. repeat split; try lia.
      * rewrite (app_snoc_cons closed cur). apply chain_snoc. simpl.
        repeat split; [|lia|lia].
        apply chain_snoc. repeat split; [done|lia].
      * do 2 eexists. split; [rewrite <- app_assoc; simpl; reflexivity|].
        repeat split; lia.
Qed.

Lemma regions_end_le rs : ∀ lo, regions_from lo rs → lo ≤ regions_end lo rs.
Proof.
  induction rs as [|r rs IH]; intros lo; simpl; [lia|].
  intros (? & ? & Hrest). apply IH in Hrest. lia.
Qed.

Lemma ram_reported_extend cfg closed cur cur2 tail r :
  e820_addr cur2 = e820_addr cur → e820_type cur2 = e820_type cur →
  e820_size cur ≤ e820_size cur2 →
  ram_reported cfg (closed ++ [cur]) r →
  ram_reported cfg (closed ++ cur2 :: tail) r.
Proof.
  intros Ha Ht Hs (e & He & Hty & Hlo & Hhi).
  apply elem_of_app in He as [He|He].
  - exists e. split; [apply elem_of_app; by left|done].
  - apply list_elem_of_singleton in He as ->.
    exists cur2. split; [apply elem_of_app; right; apply elem_of_cons; by left|].
    rewrite Ha, Ht. repeat split; [done|done|lia].
Qed.

Lemma ram_reported_current cfg closed cur r :
  e820_type cur = E820_RAM cfg → e820_addr cur ≤ ram_start r →
  e820_addr cur + e820_size cur = ram_start r + ram_size r →
  ram_reported cfg (closed ++ [cur]) r.
Proof.
  intros Ht Ha He. exists cur.
  split; [apply elem_of_app; right; by apply list_elem_of_singleton|].
  repeat split; [done|done|lia].
Qed.

(** ** All the regions *)

Lemma e820_steps_spec cfg (ram : Prop) rs : ∀ closed cur seen pos,
  chain 0 closed (e820_addr cur) →
  0 < e820_size cur →
  e820_addr cur + e820_size cur = pos →
  (ram → e820_type cur = E820_RAM cfg ∧
         Forall (ram_reported cfg (closed ++ [cur])) seen) →
  regions_from pos rs →
  regions_end pos rs < 18446744073709551616 →
  let st' := e820_steps cfg rs (closed, cur) in
  chain 0 st'.1 (e820_addr st'.2) ∧
  0 < e820_size st'.2 ∧
  e820_addr st'.2 + e820_size st'.2 = regions_end pos rs ∧
  (ram → Forall (ram_reported cfg (st'.1 ++ [st'.2])) (seen ++ rs)).
Proof.
  induction rs as [|r rs IH]; intros closed cur seen pos Hc Hsz Hpos Hram Hrs Hend;
    cbv zeta.
  - simpl. rewrite app_nil_r. repeat split; [done|done|done|]. intros H. by apply Hram.
  - rewrite e820_steps_cons. simpl in Hrs, Hend. destruct Hrs as (Hlo & Hz & Hrs).
    pose proof (regions_end_le _ _ Hrs) as Hle.
    destruct (e820_step_spec cfg r closed cur) as (Hc1 & Hsz1 & Hpos1 & Ha1 & Ht1 & Hext & _);
      [done|lia|lia|done|lia|].
    destruct (e820_step cfg r (closed, cur)) as [closed1 cur1] eqn:E.
    cbn [fst snd] in *.
    destruct Hext as (cur2 & tail & Heq & Ha2 & Ht2 & Hs2).
    specialize (IH closed1 cur1 (seen ++ [r]) (ram_start r + ram_size r)).
    cbv zeta in IH. rewrite <- app_assoc in IH. apply IH; try done.
    intros H. destruct (Hram H) as [Hty Hseen].
    split; [apply Ht1; by left|].
    apply Forall_app. split.
    + rewrite Heq. eapply Forall_impl; [exact Hseen|].
      intros r0 Hr0. by eapply ram_reported_extend.
    + apply Forall_singleton. apply ram_reported_current; [|done|done].
      apply Ht1. by left.
Qed.

Lemma regions_from_sorted rs : ∀ lo,
  Forall (λ r, 0 < ram_size r) rs →
  regions_sorted rs →
  (∀ r, r ∈ rs → lo ≤ ram_start r) →
  regions_from lo rs.
Proof.
  induction rs as [|r rs IH]; intros lo Hpos Hsorted Hlo; simpl; [done|].
  apply Forall_cons in Hpos as [Hr Hpos].
  split; [apply Hlo, elem_of_cons; by left|]. split; [done|].
  apply IH; [done| |].
  - intros i j ri rj Hi Hj Hlt. apply (Hsorted (S i) (S j)); [done|done|lia].
  - intros r' Hr'. apply list_elem_of_lookup in Hr' as [k Hk].
    apply (Hsorted 0%nat (S k) r r'); [done|done|lia].
Qed.

Lemma regions_end_lt (B : Z) rs : ∀ lo,
  lo < B → Forall (λ r, ram_start r + ram_size r < B) rs → regions_end lo rs < B.
Proof.
  induction rs as [|r rs IH]; intros lo Hlo Hall; simpl; [done|].
  apply Forall_cons in Hall as [Hr Hall]. by apply IH.
Qed.

(** ** The map of a well-formed region list *)

Lemma e820_map_of_spec cfg r1 rs :
  Forall (λ r, 0 ≤ ram_start r ∧ 0 < ram_size r ∧
               ram_start r + ram_size r < 4294967296) (r1 :: rs) →
  regions_sorted (r1 :: rs) →
  let m := e820_map_of cfg (r1 :: rs) in
  chain 0 m 4294967296 ∧
  (length m ≤ 2 * length (r1 :: rs) + 1)%nat ∧
  (0 < ram_start r1 → Forall (ram_reported cfg m) (r1 :: rs)).
Proof.
  intros Hall Hsorted. cbv zeta.
  assert (regions_from 0 (r1 :: rs)) as Hfrom.
  { apply regions_from_sorted; [|done|].
    - eapply Forall_impl; [exact Hall|]. by intros r (_ & ? & _).
    - intros r Hr. by apply (proj1 (Forall_forall _ _) Hall r) in Hr as (? & _). }
  simpl in Hfrom. destruct Hfrom as (Hlo & Hz & Hfrom).
  apply Forall_cons in Hall as [(_ & _ & Hend1) Hall].
  assert (regions_end (ram_start r1 + ram_size r1) rs < 4294967296) as Hend.
  { apply regions_end_lt; [done|]. eapply Forall_impl; [exact Hall|].
    by intros r (_ & _ & ?). }
  pose proof (regions_end_le _ _ Hfrom) as Hle.
  unfold e820_map_of. rewrite e820_steps_cons.
  destruct (e820_step_spec cfg r1 [] (e820_initial cfg))
    as (Hc1 & Hsz1 & Hpos1 & Ha1 & Ht1 & _ & Hlen1); simpl; [done|lia|lia|done|lia|].
  destruct (e820_step cfg r1 ([], e820_initial cfg)) as [closed1 cur1] eqn:E1.
  cbn [fst snd] in *. specialize (Hlen1 eq_refl). simpl in Hlen1.
  pose proof (e820_steps_length cfg rs closed1 cur1) as Hlen.
  destruct (e820_steps_spec cfg (0 < ram_start r1) rs closed1 cur1 [r1]
              (ram_start r1 + ram_size r1)) as (Hc & Hsz & Hpos & Hram);
    [done|done|done| |done|lia|].
  { intros H. split; [apply Ht1; right; simpl; lia|].
    apply Forall_singleton. apply ram_reported_current; [|done|done].
    apply Ht1. right. simpl. lia. }
  destruct (e820_steps cfg rs (closed1, cur1)) as [closed cur] eqn:E.
  cbn [fst snd] in *. pose proof (chain_le _ _ _ Hc) as Ha.
  split; [|split].
  - rewrite (app_snoc_cons closed cur). apply chain_snoc.
    unfold e820_final. simpl. rewrite !wrap64_small by lia.
    split; [|lia]. apply chain_snoc. split; [done|lia].
  - rewrite length_app. simpl. lia.
  - intros H. eapply Forall_impl; [exact (Hram H)|].
    intros r Hr. by eapply ram_reported_extend.
Qed.

(** C1 (as the code has it).  For a non-empty list of at most
    [(E820MAX - 1) / 2] RAM regions that are non-empty, sorted by start
    address, non-overlapping and end below 4 GiB, [make_guest_e820_map]
    returns, in every build; the entries it returns are sorted by address,
    do not overlap, are none of them empty and cover exactly [0, 2^32); and
    when the first region starts above address 0, every region lies in an
    entry of type [E820_RAM]. *)
Theorem make_guest_e820_map_correct cfg e820 r1 rs :
  length e820 = E820MAX cfg →
  (2 * length (r1 :: rs) < E820MAX cfg)%nat →
  Forall (λ r, 0 ≤ ram_start r ∧ 0 < ram_size r ∧
               ram_start r + ram_size r < 4294967296) (r1 :: rs) →
  regions_sorted (r1 :: rs) →
  ∃ n e820',
    make_guest_e820_map cfg e820 {| ram_regions := r1 :: rs |} = Done (n, e820') ∧
    let m := take n e820' in
    e820_sorted m ∧ e820_non_overlapping m ∧ e820_covers m 0 4294967296 ∧
    Forall e820_nonzero_length m ∧
    (0 < ram_start r1 → ∀ r, r ∈ r1 :: rs → ram_reported cfg m r).
Proof.
  intros Hlen Hmax Hall Hsorted.
  destruct (e820_map_of_spec cfg r1 rs Hall Hsorted) as (Hc & Hn & Hram).
  set (m := e820_map_of cfg (r1 :: rs)) in *.
  assert (Forall e820_nonzero_length m) as Hnz
    by (eapply chain_nonzero_length; [| |exact Hc]; lia).
  exists (length m), (m ++ drop (length m) e820). split.
  - apply make_guest_e820_map_list; [fold m; lia|]. intros _. by split.
  - cbv zeta. rewrite take_app_length.
    split; [by eapply chain_sorted|]. split; [by eapply chain_non_overlapping|].
    split; [by apply chain_covers|]. split; [done|].
    intros H r Hr. by apply (proj1 (Forall_forall _ _) (Hram H)).
Qed.

Lemma regions_sorted_nil : regions_sorted [].
Proof. intros i j ri rj Hi. by rewrite lookup_nil in Hi. Qed.

Lemma regions_sorted_cons r rs :
  Forall (λ r', ram_start r ≤ ram_start r' ∧ ram_start r + ram_size r ≤ ram_start r') rs →
  regions_sorted rs → regions_sorted (r :: rs).
Proof.
  intros Hall Hrs i j ri rj Hi Hj Hlt.
  destruct j as [|j]; [lia|]. simpl in Hj.
  destruct i as [|i]; simpl in Hi.
  - injection Hi as <-.
    apply (proj1 (Forall_forall _ _) Hall). apply list_elem_of_lookup. eauto.
  - apply (Hrs i j); [done|done|lia].
Qed.

Lemma make_guest_e820_map_correct_witness :
  ∃ n e820',
    make_guest_e820_map ia32_debug (replicate 128 e820_zero)
      {| ram_regions := [region 0x100000 0x100000; region 0x200000 0x300000;
                         region 0x800000 0x100000] |} = Done (n, e820') ∧
    let m := take n e820' in
    e820_sorted m ∧ e820_non_overlapping m ∧ e820_covers m 0 4294967296 ∧
    Forall e820_nonzero_length m ∧
    (0 < ram_start (region 0x100000 0x100000) →
     ∀ r, r ∈ [region 0x100000 0x100000; region 0x200000 0x300000;
               region 0x800000 0x100000] → ram_reported ia32_debug m r).
Proof.
  apply (make_guest_e820_map_correct ia32_debug).
  - reflexivity.
  - simpl. lia.
  - repeat constructor; simpl; lia.
  - repeat (apply regions_sorted_cons; [repeat constructor; simpl; lia|]).
    apply regions_sorted_nil.
Defined.

(** The example of the specification: 1 MiB of RAM at 1 MiB gives three
    entries. *)
Example make_guest_e820_map_1MiB :
  ∃ e820', make_guest_e820_map ia32_debug (replicate 128 e820_zero)
             {| ram_regions := [region 0x100000 0x100000] |} = Done (3%nat, e820') ∧
    take 3 e820' =
      [ {| e820_addr := 0; e820_size := 0x100000; e820_type := E820_RESERVED ia32_debug |};
        {| e820_addr := 0x100000; e820_size := 0x100000; e820_type := E820_RAM ia32_debug |};
        {| e820_addr := 0x200000; e820_size := 0xFFE00000;
           e820_type := E820_RESERVED ia32_debug |} ].
Proof. eexists. split; [vm_compute; reflexivity|reflexivity]. Qed.

Lemma regions_from_lower rs : ∀ lo,
  regions_from lo rs → Forall (λ r, lo ≤ ram_start r) rs.
Proof.
  induction rs as [|r rs IH]; intros lo; simpl; [constructor|].
  intros (Hlo & Hz & Hrest). constructor; [done|].
  eapply Forall_impl; [exact (IH _ Hrest)|]. simpl. intros r' Hr'. lia.
Qed.

Lemma regions_from_is_sorted rs : ∀ lo, regions_from lo rs → regions_sorted rs.
Proof.
  induction rs as [|r rs IH]; intros lo; simpl; [intros _; apply regions_sorted_nil|].
  intros (Hlo & Hz & Hrest). apply regions_sorted_cons; [|by eapply IH].
  eapply Forall_impl; [exact (regions_from_lower _ _ Hrest)|]. simpl. intros r' Hr'. lia.
Qed.

(** C1 (as the specification states it) fails.  With more regions than the
    table has room for, here sixty-four regions with gaps between them and
    128 slots, no map is produced: the call stops at
    [assert(entry < E820MAX)], and with [NDEBUG] it writes past the table.
    With RAM at address 0 a map is produced and the region is not reported as
    RAM: it is merged into the initial RESERVED entry, and no entry of the
    map has type RAM. *)
Lemma e820_map_claim_fails :
  (sixty_four_regions ≠ [] ∧ regions_sorted sixty_four_regions ∧
   make_guest_e820_map ia32_debug (replicate 128 e820_zero)
     {| ram_regions := sixty_four_regions |} = AssertFail ∧
   make_guest_e820_map ia32_release (replicate 128 e820_zero)
     {| ram_regions := sixty_four_regions |} = OutOfBounds ∧
   ¬ e820_map_claim ia32_debug (replicate 128 e820_zero) sixty_four_regions) ∧
  ([region 0 0x100000] ≠ [] ∧ regions_sorted [region 0 0x100000] ∧
   make_guest_e820_map ia32_debug (replicate 128 e820_zero)
     {| ram_regions := [region 0 0x100000] |}
   = Done (2%nat,
           {| e820_addr := 0; e820_size := 0x100000; e820_type := 2 |}
           :: {| e820_addr := 0x100000; e820_size := 0xFFF00000; e820_type := 2 |}
           :: replicate 126 e820_zero) ∧
   ¬ e820_map_claim ia32_debug (replicate 128 e820_zero) [region 0 0x100000]).
Proof.
  split.
  - split; [done|]. split.
    { apply (regions_from_is_sorted _ 0). cbv. repeat split; done. }
    split; [vm_compute; reflexivity|]. split; [vm_compute; reflexivity|].
    intros (n & e820' & Hrun & _). vm_compute in Hrun. discriminate Hrun.
  - split; [done|].
    split; [apply regions_sorted_cons; [constructor|apply regions_sorted_nil]|].
    split; [vm_compute; reflexivity|].
    intros (n & e820' & Hrun & _ & _ & _ & Hram).
    vm_compute in Hrun. injection Hrun as <- <-.
    destruct (Hram (region 0 0x100000)) as (e & He & Hty & _);
      [apply elem_of_cons; by left|].
    cbn [take] in He.
    apply elem_of_cons in He as [->|He]; [discriminate Hty|].
    apply elem_of_cons in He as [->|He]; [discriminate Hty|].
    by apply elem_of_nil in He.
Qed.

(** C5 at RAM that ends at 4 GiB: the closing entry starts at 2^32 with
    length 0.  With assertions compiled in the call stops at the assertion on
    that entry; without them the empty entry is returned. *)
Theorem make_guest_e820_map_ram_up_to_4G :
  make_guest_e820_map ia32_debug (replicate 128 e820_zero)
    {| ram_regions := [region 0xFFFFF000 0x1000] |} = AssertFail ∧
  make_guest_e820_map ia32_release (replicate 128 e820_zero)
    {| ram_regions := [region 0xFFFFF000 0x1000] |}
  = Done (3%nat,
          {| e820_addr := 0; e820_size := 0xFFFFF000; e820_type := 2 |}
          :: {| e820_addr := 0xFFFFF000; e820_size := 0x1000; e820_type := 1 |}
          :: {| e820_addr := 0x100000000; e820_size := 0; e820_type := 2 |}
          :: replicate 125 e820_zero) ∧
  ¬ e820_nonzero_length {| e820_addr := 0x100000000; e820_size := 0; e820_type := 2 |} ∧
  ¬ e820_lengths_claim ia32_debug (replicate 128 e820_zero) [region 0xFFFFF000 0x1000] ∧
  ¬ e820_lengths_claim ia32_release (replicate 128 e820_zero) [region 0xFFFFF000 0x1000].
Proof.
  split; [vm_compute; reflexivity|]. split; [vm_compute; reflexivity|].
  assert (¬ e820_nonzero_length
            {| e820_addr := 0x100000000; e820_size := 0; e820_type := 2 |}) as Hzero.
  { unfold e820_nonzero_length. vm_compute. by intros H. }
  split; [done|]. split.
  - intros (n & e820' & Hrun & _). vm_compute in Hrun. discriminate Hrun.
  - intros (n & e820' & Hrun & Hnz). vm_compute in Hrun. injection Hrun as <- <-.
    cbn [take] in Hnz.
    apply Forall_cons in Hnz as [_ Hnz]. apply Forall_cons in Hnz as [_ Hnz].
    apply Forall_cons in Hnz as [Hnz _]. by apply Hzero.
Qed.

(** ** The map on every input: what a return implies *)

Lemma wrap64_add_sub a s : wrap64 (a + wrap64 (s - a)) = wrap64 s.
Proof.
  unfold wrap64, wrap. rewrite Zplus_mod_idemp_r. f_equal. lia.
Qed.

Lemma wrap64_wrap64 x : wrap64 (wrap64 x) = wrap64 x.
Proof. unfold wrap64, wrap. apply Z.mod_mod. lia. Qed.

Lemma wrap64_add_l x y : wrap64 (wrap64 x + y) = wrap64 (x + y).
Proof. unfold wrap64, wrap. apply Zplus_mod_idemp_l. Qed.

Lemma wrap64_add_r x y : wrap64 (x + wrap64 y) = wrap64 (x + y).
Proof. unfold wrap64, wrap. apply Zplus_mod_idemp_r. Qed.

Lemma wrap64_add_sub_add a s z :
  wrap64 (a + wrap64 (wrap64 (s - a) + z)) = wrap64 (s + z).
Proof.
  rewrite wrap64_add_r.
  replace (a + (wrap64 (s - a) + z)) with (wrap64 (s - a) + (a + z)) by lia.
  rewrite wrap64_add_l. f_equal. lia.
Qed.

Lemma e820_get_Some (a : list e820entry) (k : nat) e :
  a !! k = Some e → e820_get a k = Done e.
Proof. unfold e820_get. by intros ->. Qed.

Lemma e820_get_inv (a : list e820entry) (k : nat) e :
  e820_get a k = Done e → a !! k = Some e.
Proof. unfold e820_get. destruct (a !! k); [by intros [= ->]|done]. Qed.

Lemma e820_upd_Some (a : list e820entry) (k : nat) e f :
  a !! k = Some e → e820_upd a k f = Done (<[k := f e]> a).
Proof. unfold e820_upd. by intros ->. Qed.

Lemma e820_get_insert (a : list e820entry) (k : nat) e e' :
  a !! k = Some e → e820_get (<[k := e']> a) k = Done e'.
Proof.
  intros H. apply e820_get_Some, list_lookup_insert_eq.
  by apply lookup_lt_Some in H.
Qed.

(** A region that starts where the entry in progress ends only makes that
    entry longer. *)
Lemma e820_region_extend cfg r (a : list e820entry) (k : nat) cur :
  a !! k = Some cur →
  wrap64 (e820_addr cur + e820_size cur) = ram_start r →
  e820_region cfg r (a, k)
  = Done (<[k := set_size (wrap64 (wrap64 (ram_start r - e820_addr cur) + ram_size r))
                    cur]> a, k).
Proof.
  intros Hk Hend. unfold e820_region.
  rewrite (e820_get_Some _ _ _ Hk). cbn [mbind result_bind].
  rewrite Hend, Z.eqb_refl. cbn [negb mbind result_bind].
  rewrite (e820_get_Some _ _ _ Hk). cbn [mbind result_bind].
  by rewrite (e820_upd_Some _ _ _ _ Hk).
Qed.

Lemma e820_region_split cfg r1 r2 r12 st :
  ram_start r2 = ram_start r1 + ram_size r1 →
  0 ≤ ram_start r2 < 18446744073709551616 →
  ram_start r12 = ram_start r1 →
  ram_size r12 = ram_size r1 + ram_size r2 →
  (e820_region cfg r1 st ≫= e820_region cfg r2) = e820_region cfg r12 st.
Proof.
  intros Hadj Hrange Hs12 Hz12. destruct st as [a k].
  set (F := e820_region cfg r2). unfold e820_region. rewrite Hs12.
  destruct (e820_get a k) as [cur| |]; cbn [mbind result_bind]; [|done..].
  match goal with
  | |- context [if ?c then ?B else Done (a, k)] =>
      destruct (if c then B else Done (a, k)) as [[a2 k2]| |]
  end; cbn [mbind result_bind]; [|done..].
  destruct (e820_get a2 k2) as [cur2| |] eqn:Eg; cbn [mbind result_bind]; [|done..].
  apply e820_get_inv in Eg.
  rewrite !(e820_upd_Some _ _ _ _ Eg). cbn [mbind result_bind]. subst F.
  rewrite (e820_region_extend cfg r2 _ k2 (set_size (wrap64 (wrap64 (ram_start r1 -
             e820_addr cur2) + ram_size r1)) cur2)).
  - rewrite list_insert_insert_eq. cbn [set_size e820_addr e820_size e820_type].
    do 3 f_equal. rewrite Hz12, Hadj.
    unfold set_size. f_equal.
    rewrite !wrap64_add_l. f_equal. lia.
  - apply list_lookup_insert_eq. by apply lookup_lt_Some in Eg.
  - cbn [set_size e820_addr e820_size].
    rewrite wrap64_add_sub_add, <- Hadj. apply wrap64_small. lia.
Qed.

Lemma e820_regions_app cfg l1 : ∀ l2 st,
  e820_regions cfg (l1 ++ l2) st = e820_regions cfg l1 st ≫= e820_regions cfg l2.
Proof.
  induction l1 as [|r l1 IH]; intros l2 st; [done|].
  cbn [app e820_regions].
  destruct (e820_region cfg r st) as [st'| |]; cbn [mbind result_bind]; [|done..].
  apply IH.
Qed.

Lemma e820_upd_oob (a : list e820entry) (k : nat) f :
  (length a ≤ k)%nat → e820_upd a k f = OutOfBounds.
Proof. intros H. unfold e820_upd. by rewrite lookup_ge_None_2. Qed.

Lemma e820_get_oob (a : list e820entry) (k : nat) :
  (length a ≤ k)%nat → e820_get a k = OutOfBounds.
Proof. intros H. unfold e820_get. by rewrite lookup_ge_None_2. Qed.

Lemma next_entry_cases cfg (entry : nat) :
  next_entry cfg entry = Done (S entry) ∨
  next_entry cfg entry = AssertFail ∧ NDEBUG cfg = false ∧ (E820MAX cfg ≤ S entry)%nat.
Proof.
  unfold next_entry, assert_. destruct (NDEBUG cfg); [by left|].
  case_bool_decide; [by left|right]. split; [done|split; [done|lia]].
Qed.

Lemma next_entry_inv cfg (entry entry' : nat) :
  next_entry cfg entry = Done entry' →
  entry' = S entry ∧ (NDEBUG cfg = false → (S entry < E820MAX cfg)%nat).
Proof.
  unfold next_entry, assert_. destruct (NDEBUG cfg); [by intros [= <-]|].
  case_bool_decide; [by intros [= <-]|done].
Qed.

(** ** Whenever the loop body returns, it has done [e820_step] and there
    was room for it *)

Lemma e820_region_inv cfg r closed cur rest a' k' :
  e820_region cfg r (closed ++ cur :: rest, length closed) = Done (a', k') →
  let st' := e820_step cfg r (closed, cur) in
  (length st'.1 - length closed ≤ length rest)%nat ∧
  a' = st'.1 ++ st'.2 :: drop (length st'.1 - length closed) rest ∧
  k' = length st'.1.
Proof.
  unfold e820_step, e820_region.
  rewrite e820_get_at by done. cbn [mbind result_bind].
  destruct (wrap64 (e820_addr cur + e820_size cur) =? ram_start r) eqn:Hgap;
    cbn [negb mbind result_bind fst snd].
  - rewrite e820_get_at by done. cbn [mbind result_bind].
    rewrite e820_upd_at by done. cbn [mbind result_bind].
    intros [= <- <-]. rewrite Nat.sub_diag. split; [lia|by split].
  - destruct (e820_size cur =? 0) eqn:Hsz; cbn [negb mbind result_bind fst snd].
    + rewrite e820_get_at by done. cbn [mbind result_bind].
      rewrite e820_upd_at by done. cbn [mbind result_bind].
      destruct (next_entry_cases cfg (length closed)) as [-> | [-> _]]; [|done].
      cbn [mbind result_bind].
      destruct rest as [|x rest].
      { rewrite e820_upd_oob by (rewrite length_app; simpl; lia). done. }
      rewrite (app_snoc_cons closed).
      rewrite e820_upd_at by (rewrite length_app; simpl; lia). cbn [mbind result_bind].
      rewrite e820_upd_at by (rewrite length_app; simpl; lia). cbn [mbind result_bind].
      rewrite e820_get_at by (rewrite length_app; simpl; lia). cbn [mbind result_bind].
      rewrite e820_upd_at by (rewrite length_app; simpl; lia). cbn [mbind result_bind].
      intros [= <- <-]. rewrite length_app. cbn [length].
      replace (length closed + 1 - length closed)%nat with 1%nat by lia.
      split; [lia|split; [|lia]].
      rewrite set_all_fields. unfold e820_ram_entry, drop. do 2 f_equal.
    + destruct (next_entry_cases cfg (length closed)) as [-> | [-> _]]; [|done].
      cbn [mbind result_bind]. rewrite Nat.sub_1_r. cbn [Nat.pred].
      rewrite e820_get_at by done. cbn [mbind result_bind].
      destruct rest as [|x rest].
      { rewrite e820_upd_oob by (rewrite length_app; simpl; lia). done. }
      rewrite (app_snoc_cons closed).
      rewrite e820_upd_at by (rewrite length_app; simpl; lia). cbn [mbind result_bind].
      rewrite e820_upd_at by (rewrite length_app; simpl; lia). cbn [mbind result_bind].
      rewrite e820_get_at by (rewrite length_app; simpl; lia). cbn [mbind result_bind].
      rewrite e820_upd_at by (rewrite length_app; simpl; lia). cbn [mbind result_bind].
      destruct (next_entry_cases cfg (S (length closed))) as [-> | [-> _]]; [|done].
      cbn [mbind result_bind].
      destruct rest as [|y rest].
      { rewrite e820_upd_oob by (rewrite !length_app; simpl; lia). done. }
      rewrite (app_snoc_cons (closed ++ [cur])).
      rewrite e820_upd_at by (rewrite !length_app; simpl; lia). cbn [mbind result_bind].
      rewrite e820_upd_at by (rewrite !length_app; simpl; lia). cbn [mbind result_bind].
      rewrite e820_get_at by (rewrite !length_app; simpl; lia). cbn [mbind result_bind].
      rewrite e820_upd_at by (rewrite !length_app; simpl; lia). cbn [mbind result_bind].
      intros [= <- <-]. rewrite length_app. cbn [length].
      replace (length closed + 2 - length closed)%nat with 2%nat by lia.
      split; [lia|split; [|lia]].
      rewrite !set_all_fields. unfold e820_ram_entry, drop.
      rewrite <- !app_assoc. cbn [app set_size set_addr set_type e820_addr e820_size e820_type].
      do 3 f_equal.
Qed.

Lemma e820_regions_inv cfg rs : ∀ closed cur rest a' k',
  e820_regions cfg rs (closed ++ cur :: rest, length closed) = Done (a', k') →
  let st' := e820_steps cfg rs (closed, cur) in
  (length st'.1 - length closed ≤ length rest)%nat ∧
  a' = st'.1 ++ st'.2 :: drop (length st'.1 - length closed) rest ∧
  k' = length st'.1.
Proof.
  induction rs as [|r rs IH]; intros closed cur rest a' k'; cbv zeta.
  - cbn [e820_regions]. intros [= <- <-]. cbn. rewrite Nat.sub_diag.
    split; [lia|by split].
  - cbn [e820_regions]. rewrite e820_steps_cons.
    destruct (e820_region cfg r (closed ++ cur :: rest, length closed))
      as [[a1 k1]| |] eqn:E1; cbn [mbind result_bind]; [|done..].
    apply e820_region_inv in E1. cbv zeta in E1.
    pose proof (e820_step_length cfg r closed cur) as H1.
    destruct (e820_step cfg r (closed, cur)) as [closed1 cur1].
    cbn [fst snd] in E1, H1. destruct E1 as (Hroom1 & -> & ->).
    intros E2. apply IH in E2. cbv zeta in E2.
    pose proof (e820_steps_length cfg rs closed1 cur1) as H2.
    destruct (e820_steps cfg rs (closed1, cur1)) as [closed2 cur2].
    cbn [fst snd] in E2, H2 |- *. destruct E2 as (Hroom2 & -> & ->).
    rewrite length_drop in Hroom2.
    split; [lia|split; [|done]].
    rewrite drop_drop. do 3 f_equal. lia.
Qed.

Lemma e820_check_inv cfg m rest :
  ∀ pre, e820_check cfg (pre ++ m ++ rest) (length pre) (length m) = Done tt →
  NDEBUG cfg = false → Forall e820_nonzero_length m.
Proof.
  induction m as [|e m IH]; intros pre Hc Hd; [constructor|].
  cbn [length] in Hc. rewrite e820_check_S in Hc. cbn [app] in Hc.
  rewrite e820_get_at in Hc by done. cbn [mbind result_bind] in Hc.
  unfold assert_ in Hc. rewrite Hd in Hc.
  destruct (e820_addr e <? wrap64 (e820_addr e + e820_size e)) eqn:Hlt; [|done].
  cbn [mbind result_bind] in Hc. constructor.
  - by apply Z.ltb_lt in Hlt.
  - apply (IH (pre ++ [e])); [|done].
    rewrite <- app_assoc. cbn [app]. rewrite length_app. cbn [length].
    by rewrite Nat.add_1_r.
Qed.

(** ** Whenever [make_guest_e820_map] returns, it has written [e820_map_of]
    into an array with room for it *)

Lemma make_guest_e820_map_inv cfg e820 rs n e820' :
  make_guest_e820_map cfg e820 {| ram_regions := rs |} = Done (n, e820') →
  let m := e820_map_of cfg rs in
  n = length m ∧ (length m ≤ length e820)%nat ∧
  e820' = m ++ drop (length m) e820 ∧
  (NDEBUG cfg = false →
   rs ≠ [] ∧ (length m ≤ E820MAX cfg)%nat ∧ Forall e820_nonzero_length m).
Proof.
  unfold e820_map_of, make_guest_e820_map.
  destruct e820 as [|x0 rest0]; [done|].
  rewrite !e820_upd_0. cbn [mbind result_bind].
  rewrite !e820_upd_0. cbn [mbind result_bind].
  rewrite !e820_upd_0. cbn [mbind result_bind].
  change (set_type _ (set_size 0 (set_addr 0 x0))) with (e820_initial cfg).
  destruct (assert_ cfg (0 <? num_ram_regions {| ram_regions := rs |})) eqn:Ha;
    cbn [mbind result_bind ram_regions]; [|done..].
  destruct (e820_regions cfg rs (e820_initial cfg :: rest0, 0%nat))
    as [[a1 k1]| |] eqn:E1; cbn [mbind result_bind]; [|done..].
  apply (e820_regions_inv cfg rs [] (e820_initial cfg) rest0) in E1. cbv zeta in E1.
  destruct (e820_steps cfg rs ([], e820_initial cfg)) as [closed cur].
  cbn [fst snd length] in E1. rewrite Nat.sub_0_r in E1.
  destruct E1 as (Hroom & -> & ->).
  destruct (next_entry cfg (length closed)) as [k2| |] eqn:E2;
    cbn [mbind result_bind]; [|done..].
  apply next_entry_inv in E2 as [-> Hmax].
  rewrite Nat.sub_1_r. cbn [Nat.pred].
  rewrite e820_get_at by done. cbn [mbind result_bind].
  destruct (drop (length closed) rest0) as [|x rest] eqn:Hdrop.
  { rewrite e820_upd_oob by (rewrite length_app; simpl; lia). done. }
  rewrite (app_snoc_cons closed).
  rewrite e820_upd_at by (rewrite length_app; simpl; lia). cbn [mbind result_bind].
  rewrite e820_get_at by (rewrite length_app; simpl; lia). cbn [mbind result_bind].
  rewrite e820_upd_at by (rewrite length_app; simpl; lia). cbn [mbind result_bind].
  rewrite e820_upd_at by (rewrite length_app; simpl; lia). cbn [mbind result_bind].
  change (set_type _ (set_size _ (set_addr _ x))) with (e820_final cfg cur).
  set (m := closed ++ [cur; e820_final cfg cur]) in *.
  assert (length m = S (S (length closed))) as Hm
    by (subst m; rewrite length_app; simpl; lia).
  replace ((closed ++ [cur]) ++ e820_final cfg cur :: rest) with ([] ++ m ++ rest)
    by (subst m; simpl; by rewrite <- !app_assoc).
  rewrite <- Hm.
  destruct (e820_check cfg ([] ++ m ++ rest) 0 (length m)) as [[]| |] eqn:E3;
    cbn [mbind result_bind]; [|done..].
  intros [= <- <-].
  assert (length rest0 = (length closed + S (length rest))%nat) as Hlen.
  { apply (f_equal length) in Hdrop. rewrite length_drop in Hdrop.
    cbn [length] in Hdrop. lia. }
  split; [lia|]. split; [cbn [length]; lia|]. split.
  - cbn [app]. f_equal. rewrite Hm. cbn [drop].
    replace (S (length closed)) with (length closed + 1)%nat by lia.
    by rewrite <- drop_drop, Hdrop.
  - intros Hd. split; [|split].
    + unfold assert_ in Ha. rewrite Hd in Ha. by destruct rs.
    + specialize (Hmax Hd). lia.
    + by apply (e820_check_inv cfg m rest []).
Qed.

(** ** What [make_guest_e820_map] leaves alone

    Whatever the regions, the call changes no slot of the array from the
    count it returns on. *)

Lemma e820_upd_frame a (i : nat) f a' :
  e820_upd a i f = Done a' →
  length a' = length a ∧ ∀ j : nat, (i < j)%nat → a' !! j = a !! j.
Proof.
  unfold e820_upd. destruct (a !! i); [|done]. intros [= <-].
  split; [apply length_insert|]. intros j Hj. apply list_lookup_insert_ne. lia.
Qed.

Lemma next_entry_Done cfg (k k' : nat) : next_entry cfg k = Done k' → k' = S k.
Proof.
  unfold next_entry. destruct (assert_ cfg _); simpl; [|done..]. by intros [= <-].
Qed.

Ltac e820_steps_inv :=
  repeat match goal with
  | H : Done _ = Done _ |- _ => injection H as ?; subst
  | H : @AssertFail _ = Done _ |- _ => discriminate H
  | H : @OutOfBounds _ = Done _ |- _ => discriminate H
  | H : next_entry _ _ = Done _ |- _ => apply next_entry_Done in H; subst
  | H : e820_upd _ _ _ = Done _ |- _ => apply e820_upd_frame in H as [? ?]
  | H : (let '(_, _) := ?p in _) = Done _ |- _ => destruct p
  | H : (if ?c then _ else _) = Done _ |- _ => destruct c
  | H : (?m ≫= _) = Done _ |- _ =>
      let E := fresh "E" in
      destruct m eqn:E; cbn [mbind result_bind] in H
  end.

Ltac frame_lookups :=
  repeat match goal with
  | H : ∀ j : nat, (_ < j)%nat → ?x !! j = _ |- context [?x !! ?k] =>
      rewrite (H k) by lia
  end.

Lemma e820_region_frame cfg r a (k : nat) a' (k' : nat) :
  e820_region cfg r (a, k) = Done (a', k') →
  (k ≤ k')%nat ∧ length a' = length a ∧
  ∀ j : nat, (k' < j)%nat → a' !! j = a !! j.
Proof.
  unfold e820_region. intros H. e820_steps_inv.
  all: split; [lia|]; split; [congruence|]; intros j Hj; by frame_lookups.
Qed.

Lemma e820_regions_frame cfg rs : ∀ a (k : nat) a' (k' : nat),
  e820_regions cfg rs (a, k) = Done (a', k') →
  (k ≤ k')%nat ∧ length a' = length a ∧
  ∀ j : nat, (k' < j)%nat → a' !! j = a !! j.
Proof.
  induction rs as [|r rs IH]; intros a k a' k'; cbn [e820_regions].
  - intros [= <- <-]. done.
  - intros H. destruct (e820_region cfg r (a, k)) as [[a1 k1]| |] eqn:E; [|done..].
    cbn [mbind result_bind] in H.
    apply e820_region_frame in E as (? & ? & Hl1).
    apply IH in H as (? & ? & Hl2).
    split; [lia|]. split; [congruence|].
    intros j Hj. rewrite Hl2 by lia. apply Hl1. lia.
Qed.

Lemma make_guest_e820_map_frame cfg e820 m (n : nat) e820' :
  make_guest_e820_map cfg e820 m = Done (n, e820') →
  length e820' = length e820 ∧
  ∀ j : nat, (n ≤ j)%nat → e820' !! j = e820 !! j.
Proof.
  unfold make_guest_e820_map. intros H. e820_steps_inv.
  match goal with
  | E : e820_regions _ _ _ = Done _ |- _ => apply e820_regions_frame in E as (? & ? & ?)
  end.
  split; [congruence|]. intros j Hj. by frame_lookups.
Qed.

(** ** The screen information *)

Section Boot_properties.
Context {W : Type}.
Variable cfg : build_config.
Variable L : libsel4vm W.

Lemma make_guest_screen_info_keeps_boot_info (vm : vm_t W) info :
  guest_boot_info_boot_info (make_guest_screen_info cfg L vm info).2
  = guest_boot_info_boot_info vm.
Proof.
  unfold make_guest_screen_info.
  destruct (simple_get_extended_bootinfo L (vm_lib vm)) as [result vbeinfo].
  destruct (screen_info_base cfg L (vm_lib vm) result vbeinfo) as [[base fb] w].
  by destruct (negb (base =? 0)).
Qed.

Lemma make_guest_screen_info_other (vm : vm_t W) info o :
  screen_info_other info o = 0 →
  screen_info_other (make_guest_screen_info cfg L vm info).1 o = 0.
Proof.
  intros Hinfo. unfold make_guest_screen_info.
  destruct (simple_get_extended_bootinfo L (vm_lib vm)) as [result vbeinfo].
  destruct (screen_info_base cfg L (vm_lib vm) result vbeinfo) as [[base fb] w].
  by destruct (negb (base =? 0)).
Qed.

(** The local structure, field by field. *)
Lemma boot_info_local_inv (vm : vm_t W) ca cl kla ka rla rsz bp vm' :
  boot_info_local cfg L vm ca cl kla ka rla rsz = Returned bp vm' →
  ∃ n e820,
    vm' = (make_guest_screen_info cfg L vm screen_info_zero).2 ∧
    make_guest_e820_map cfg (replicate (E820MAX cfg) e820_zero)
      (vm_mem L (vm_lib vm')) = Done (n, e820) ∧
    bp = {| bp_screen_info := (make_guest_screen_info cfg L vm screen_info_zero).1;
            alt_mem_k := 0;
            e820_entries := wrap8 (Z.of_nat n);
            hdr := {| root_dev := if rla =? 0 then 0 else 256;
                      boot_flag := 43605;
                      header := 1400005704;
                      version := if rla =? 0 then 514 else 516;
                      type_of_loader := 255;
                      code32_start := wrap32 kla;
                      ramdisk_image := if rla =? 0 then 0 else wrap32 rla;
                      ramdisk_size := if rla =? 0 then 0 else wrap32 rsz;
                      cmd_line_ptr := wrap32 ca;
                      kernel_alignment := wrap32 ka;
                      relocatable_kernel := 1;
                      cmdline_size := wrap32 cl;
                      setup_header_other := λ _, 0 |};
            e820_map := e820;
            boot_params_other := λ _, 0 |}.
Proof.
  unfold boot_info_local. cbn [bp_screen_info set_hdr boot_params_zero].
  destruct (make_guest_screen_info cfg L vm screen_info_zero) as [info vm1].
  cbn [set_screen_info e820_map].
  destruct (make_guest_e820_map _ _ _) as [[n e820]| |] eqn:E; [|done..].
  intros [= <- <-]. exists n, e820. split; [done|]. split; [done|].
  by destruct (rla =? 0).
Qed.

Lemma boot_info_local_keeps_boot_info (vm : vm_t W) ca cl kla ka rla rsz bp vm' :
  boot_info_local cfg L vm ca cl kla ka rla rsz = Returned bp vm' →
  guest_boot_info_boot_info vm' = guest_boot_info_boot_info vm.
Proof.
  intros H. apply boot_info_local_inv in H as (n & e820 & -> & _).
  apply make_guest_screen_info_keeps_boot_info.
Qed.

Lemma make_guest_boot_info_copies (vm : vm_t W) ca cl kla ka rla rsz addr w bp vm' :
  vm_ram_allocate L (vm_lib vm) (sizeof_boot_params cfg) = (addr, w) →
  addr ≠ 0 →
  boot_info_local cfg L (set_boot_info addr (set_vm_lib w vm)) ca cl kla ka rla rsz
  = Returned bp vm' →
  make_guest_boot_info cfg L vm ca cl kla ka rla rsz
  = (let '(r, w') := vm_ram_touch L (vm_lib vm') addr (sizeof_boot_params cfg)
                       (guest_elf_write_address (Obj_boot_params bp)) in
     Returned r (set_vm_lib w' vm')).
Proof.
  intros Halloc Haddr Hlocal. unfold make_guest_boot_info.
  rewrite Halloc. apply Z.eqb_neq in Haddr as ->. by rewrite Hlocal.
Qed.

Lemma make_guest_boot_info_records (vm : vm_t W) ca cl kla ka rla rsz addr w r vm' :
  vm_ram_allocate L (vm_lib vm) (sizeof_boot_params cfg) = (addr, w) →
  addr ≠ 0 →
  make_guest_boot_info cfg L vm ca cl kla ka rla rsz = Returned r vm' →
  guest_boot_info_boot_info vm' = addr.
Proof.
  intros Halloc Haddr. unfold make_guest_boot_info.
  rewrite Halloc. apply Z.eqb_neq in Haddr as ->.
  destruct (boot_info_local _ _ _ _ _ _ _ _ _) as [bp vm1| |] eqn:E; [|done..].
  apply boot_info_local_keeps_boot_info in E.
  destruct (vm_ram_touch L _ _ _ _) as [r' w']. intros [= <- <-].
  simpl in *. done.
Qed.

(** The value of [base] at the test [if (base)], step by step, and the
    value of [fbuffer_size] when [base] is set. *)
Lemma screen_info_base_spec (w : W) result vbeinfo :
  let pm := map_vbe_pm_interface cfg L w vbeinfo in
  let fbuffer_size := vmm_plat_vesa_fbuffer_size (vbeModeInfoBlock vbeinfo) in
  let fb := vm_reserve_anon_memory L pm.2 fbuffer_size in
  let fb_map := map_ut_alloc_reservation_with_base_paddr L fb.2
                  (physBasePtr (vbe20 (vbeModeInfoBlock vbeinfo))) fb.1.1 in
  let r := screen_info_base cfg L w result vbeinfo in
  r.1.1 =
    (if CONFIG_VMM_VESA_FRAMEBUFFER cfg && negb (result =? -1) then
       if pm.1 =? 0 then
         if fb.1.1 =? 0 then default 0 fb.1.2
         else if fb_map.1 =? 0 then default 0 fb.1.2 else 0
       else 0
     else 0) ∧
  (r.1.1 ≠ 0 → r.1.2 = fbuffer_size).
Proof.
  cbv zeta. unfold screen_info_base.
  destruct (CONFIG_VMM_VESA_FRAMEBUFFER cfg && negb (result =? -1)); [|done].
  destruct (map_vbe_pm_interface cfg L w vbeinfo) as [error w1]. cbn [fst snd].
  destruct (error =? 0); cbn [negb]; [|done].
  unfold map_vesa_frame_buffer. cbv zeta.
  destruct (vm_reserve_anon_memory L w1 _) as [[reservation stored] w2].
  cbn [fst snd]. destruct (reservation =? 0); [done|].
  destruct (map_ut_alloc_reservation_with_base_paddr L w2 _ reservation)
    as [error2 w3].
  cbn [fst]. by destruct (error2 =? 0).
Qed.

(** The error of the block that maps the protected mode interface. *)
Lemma map_vbe_pm_interface_error (w : W) vbeinfo :
  let r := vm_reserve_memory_at L w (vbe_pm_aligned vbeinfo) (vbe_pm_size cfg vbeinfo) in
  vbe_pm_base vbeinfo > 49152 →
  r.1 = 0 ∨ (map_ut_alloc_reservation L r.2 r.1).1 ≠ 0 →
  (map_vbe_pm_interface cfg L w vbeinfo).1 ≠ 0.
Proof.
  cbv zeta. intros Hgt Hfail. unfold map_vbe_pm_interface. cbv zeta.
  apply Z.gtb_gt in Hgt as ->.
  destruct (vm_reserve_memory_at L w _ _) as [reservation w1]. cbn [fst snd] in *.
  destruct (reservation =? 0) eqn:Hr; cbn [negb].
  - cbn [fst]. lia.
  - apply Z.eqb_neq in Hr. destruct Hfail as [?|?]; [done|done].
Qed.

(** X20.  The screen information, in full.  After [make_guest_screen_info]
    the block is all zero or holds the eighteen values of the VBE mode, each
    cut to the width of its member (over what it held before), never a part
    of them.  It is all zero when the frame buffer is not configured, when the
    query for the VBE information returns -1, when the reservation or the
    mapping of the protected mode interface fails, when the reservation of
    the frame buffer returns [NULL] and has left [base] unwritten, and when
    the mapping of the frame buffer fails.  It holds the eighteen values
    when every step succeeds and has stored a base other than 0; and also
    when the reservation of the frame buffer returns [NULL] after it has
    stored a base other than 0, a path on which [base] is not reset. *)
Theorem make_guest_screen_info_zero_or_populated (vm : vm_t W) info result vbeinfo :
  simple_get_extended_bootinfo L (vm_lib vm) = (result, vbeinfo) →
  let out := (make_guest_screen_info cfg L vm info).1 in
  let pm_base := vbe_pm_base vbeinfo in
  let pm_reservation :=
    vm_reserve_memory_at L (vm_lib vm) (vbe_pm_aligned vbeinfo)
      (vbe_pm_size cfg vbeinfo) in
  let pm := map_vbe_pm_interface cfg L (vm_lib vm) vbeinfo in
  let block := vbeModeInfoBlock vbeinfo in
  let fbuffer_size := vmm_plat_vesa_fbuffer_size block in
  let fb := vm_reserve_anon_memory L pm.2 fbuffer_size in
  let fb_map := map_ut_alloc_reservation_with_base_paddr L fb.2
                  (physBasePtr (vbe20 block)) fb.1.1 in
  let populated (base : Z) : screen_info :=
    {| orig_video_isVGA := 0x23;
       lfb_width := xRes (vbe12_part1 block) mod 2 ^ 16;
       lfb_height := yRes (vbe12_part1 block) mod 2 ^ 16;
       lfb_depth := bitsPerPixel (vbe12_part1 block) mod 2 ^ 16;
       lfb_base := base mod 2 ^ 32;
       lfb_size := Z.shiftr fbuffer_size 16 mod 2 ^ 32;
       lfb_linelength := bytesPerScanLine (vbe_common block) mod 2 ^ 16;
       red_size := redLen (vbe12_part2 block) mod 2 ^ 8;
       red_pos := redOff (vbe12_part2 block) mod 2 ^ 8;
       green_size := greenLen (vbe12_part2 block) mod 2 ^ 8;
       green_pos := greenOff (vbe12_part2 block) mod 2 ^ 8;
       blue_size := blueLen (vbe12_part2 block) mod 2 ^ 8;
       blue_pos := blueOff (vbe12_part2 block) mod 2 ^ 8;
       rsvd_size := rsvdLen (vbe12_part2 block) mod 2 ^ 8;
       rsvd_pos := rsvdOff (vbe12_part2 block) mod 2 ^ 8;
       vesapm_seg := vbeInterfaceSeg vbeinfo mod 2 ^ 16;
       vesapm_off := vbeInterfaceOff vbeinfo mod 2 ^ 16;
       pages := planes (vbe12_part1 block) mod 2 ^ 16;
       screen_info_other := screen_info_other info |} in
  (out = screen_info_zero ∨ ∃ base, base ≠ 0 ∧ out = populated base) ∧
  (CONFIG_VMM_VESA_FRAMEBUFFER cfg = false → out = screen_info_zero) ∧
  (result = -1 → out = screen_info_zero) ∧
  (pm_base > 49152 → pm_reservation.1 = 0 → out = screen_info_zero) ∧
  (pm_base > 49152 → pm_reservation.1 ≠ 0 →
   (map_ut_alloc_reservation L pm_reservation.2 pm_reservation.1).1 ≠ 0 →
   out = screen_info_zero) ∧
  (fb.1.1 = 0 → fb.1.2 = None → out = screen_info_zero) ∧
  (fb.1.1 ≠ 0 → fb_map.1 ≠ 0 → out = screen_info_zero) ∧
  (CONFIG_VMM_VESA_FRAMEBUFFER cfg = true → result ≠ -1 → pm.1 = 0 →
   ∀ base, fb.1.2 = Some base → base ≠ 0 →
     (fb.1.1 ≠ 0 → fb_map.1 = 0 → out = populated base) ∧
     (fb.1.1 = 0 → out = populated base)).
Proof.
  intros Hquery. cbv zeta.
  pose proof (map_vbe_pm_interface_error (vm_lib vm) vbeinfo) as Hpm.
  destruct (screen_info_base_spec (vm_lib vm) result vbeinfo) as [Hbase Hsize].
  cbv zeta in Hpm.
  unfold make_guest_screen_info. rewrite Hquery.
  destruct (screen_info_base cfg L (vm_lib vm) result vbeinfo) as [[base fs] w].
  cbn [fst snd] in Hbase, Hsize.
  set (pm := map_vbe_pm_interface cfg L (vm_lib vm) vbeinfo) in *.
  set (fbuffer_size := vmm_plat_vesa_fbuffer_size (vbeModeInfoBlock vbeinfo)) in *.
  set (fb := vm_reserve_anon_memory L pm.2 fbuffer_size) in *.
  set (fb_map := map_ut_alloc_reservation_with_base_paddr L fb.2 _ fb.1.1) in *.
  assert (base = 0 →
          (if negb (base =? 0)
           then (screen_info_of_vbe info vbeinfo base fs, set_vm_lib w vm)
           else (screen_info_zero, set_vm_lib w vm)).1 = screen_info_zero) as Hzero.
  { by intros ->. }
  assert (base ≠ 0 →
          (if negb (base =? 0)
           then (screen_info_of_vbe info vbeinfo base fs, set_vm_lib w vm)
           else (screen_info_zero, set_vm_lib w vm)).1
          = screen_info_of_vbe info vbeinfo base fbuffer_size) as Hpop.
  { intros Hb. rewrite (Hsize Hb). by apply Z.eqb_neq in Hb as ->. }
  split; [|split; [|split; [|split; [|split; [|split; [|split]]]]]].
  - destruct (decide (base = 0)) as [Hb|Hb]; [left; by apply Hzero|right].
    exists base. split; [done|]. by rewrite (Hpop Hb).
  - intros Hoff. apply Hzero. by rewrite Hbase, Hoff.
  - intros ->. apply Hzero. rewrite Hbase. cbn [Z.eqb negb]. by rewrite andb_false_r.
  - intros Hgt Hr. apply Hzero. rewrite Hbase.
    destruct (_ && _); [|done].
    specialize (Hpm Hgt (or_introl Hr)). by apply Z.eqb_neq in Hpm as ->.
  - intros Hgt _ Hr. apply Hzero. rewrite Hbase.
    destruct (_ && _); [|done].
    specialize (Hpm Hgt (or_intror Hr)). by apply Z.eqb_neq in Hpm as ->.
  - intros Hr Hst. apply Hzero. rewrite Hbase, Hr, Hst. cbn [Z.eqb default].
    destruct (_ && _); [|done]. by destruct (pm.1 =? 0).
  - intros Hr Hmap. apply Hzero. rewrite Hbase.
    apply Z.eqb_neq in Hr as ->. apply Z.eqb_neq in Hmap as ->.
    destruct (_ && _); [|done]. by destruct (pm.1 =? 0).
  - intros Hcfg Hres Hpm0 b Hst Hb.
    rewrite Hcfg, Hpm0, Hst in Hbase. apply Z.eqb_neq in Hres.
    rewrite Hres in Hbase. cbn [andb negb Z.eqb default from_option id] in Hbase.
    split.
    + intros Hr Hmap. apply Z.eqb_neq in Hr. rewrite Hr, Hmap in Hbase.
      cbn [Z.eqb] in Hbase. subst b. by rewrite (Hpop Hb).
    + intros Hr. rewrite Hr in Hbase. cbn [Z.eqb] in Hbase.
      subst b. by rewrite (Hpop Hb).
Qed.
End Boot_properties.

Lemma make_guest_screen_info_witness :
  simple_get_extended_bootinfo (sim_libsel4vm no_frame_buffer) (vm_lib sim_guest)
  = (0, vbe_1024x768) ∧
  (make_guest_screen_info ia32_debug (sim_libsel4vm no_frame_buffer) sim_guest
     screen_info_zero).1 = screen_info_zero.
Proof.
  split; [reflexivity|].
  destruct (make_guest_screen_info_zero_or_populated ia32_debug
              (sim_libsel4vm no_frame_buffer) sim_guest screen_info_zero 0 vbe_1024x768
              eq_refl) as (_ & _ & _ & _ & _ & Hfb & _).
  apply Hfb; reflexivity.
Defined.


(** ** The boot parameters *)

(** C6.  When [make_guest_boot_info] has its memory and has filled the local
    structure, that structure is what it hands to [vm_ram_touch] for the copy
    into the guest, and in it the header version is 0x0204 for a non-zero
    ramdisk address, with the ramdisk image, the ramdisk size and the root
    device 0x0100 set, and 0x0202 for a zero ramdisk address. *)
Theorem make_guest_boot_info_version {W} cfg (L : libsel4vm W) (vm : vm_t W)
    ca cl kla ka rla rsz addr w bp vm' :
  vm_ram_allocate L (vm_lib vm) (sizeof_boot_params cfg) = (addr, w) →
  addr ≠ 0 →
  boot_info_local cfg L (set_boot_info addr (set_vm_lib w vm)) ca cl kla ka rla rsz
  = Returned bp vm' →
  make_guest_boot_info cfg L vm ca cl kla ka rla rsz
  = (let '(r, w') := vm_ram_touch L (vm_lib vm') addr (sizeof_boot_params cfg)
                       (guest_elf_write_address (Obj_boot_params bp)) in
     Returned r (set_vm_lib w' vm')) ∧
  (rla ≠ 0 →
   version (hdr bp) = 0x0204 ∧ ramdisk_image (hdr bp) = wrap32 rla ∧
   ramdisk_size (hdr bp) = wrap32 rsz ∧ root_dev (hdr bp) = 0x0100) ∧
  (rla = 0 → version (hdr bp) = 0x0202).
Proof.
  intros Halloc Haddr Hlocal.
  split; [by eapply make_guest_boot_info_copies|].
  apply boot_info_local_inv in Hlocal as (n & e820 & _ & _ & ->). cbn [hdr version
    ramdisk_image ramdisk_size root_dev].
  split.
  - intros Hrla. apply Z.eqb_neq in Hrla as ->. done.
  - intros ->. done.
Qed.

Lemma make_guest_boot_info_version_witness :
  ∃ bp vm',
    boot_info_local ia32_debug (sim_libsel4vm no_vbe)
      (set_boot_info 0x100000
         (set_vm_lib (sim_alloc 4096 (vm_lib sim_guest)).2 sim_guest))
      0x200000 13 0x1000000 0x1000000 0x4000000 0x800000 = Returned bp vm' ∧
    make_guest_boot_info ia32_debug (sim_libsel4vm no_vbe) sim_guest
      0x200000 13 0x1000000 0x1000000 0x4000000 0x800000
    = (let '(r, w') := vm_ram_touch (sim_libsel4vm no_vbe) (vm_lib vm') 0x100000 4096
                         (guest_elf_write_address (Obj_boot_params bp)) in
       Returned r (set_vm_lib w' vm')) ∧
    version (hdr bp) = 0x0204 ∧ ramdisk_image (hdr bp) = 0x4000000 ∧
    ramdisk_size (hdr bp) = 0x800000 ∧ root_dev (hdr bp) = 0x0100.
Proof.
  do 2 eexists. split; [vm_compute; reflexivity|].
  match goal with
  | |- context [Obj_boot_params ?bp] =>
      destruct (make_guest_boot_info_version ia32_debug (sim_libsel4vm no_vbe) sim_guest
                  0x200000 13 0x1000000 0x1000000 0x4000000 0x800000 0x100000
                  (sim_alloc 4096 (vm_lib sim_guest)).2 bp _
                  eq_refl ltac:(lia) eq_refl) as (Hcopy & Hrd & _)
  end.
  split; [exact Hcopy|]. apply Hrd. lia.
Defined.

(** C9.  The local structure starts as all zero, so in the structure handed
    to [vm_ram_touch] everything that is never assigned is zero: [alt_mem_k],
    the bytes of the header and of the structure that the function does not
    name, the bytes of the screen information that it does not name, and,
    without a ramdisk, the ramdisk image, the ramdisk size and the root
    device; and of the [E820MAX] slots of the E820 table, every one from the
    count that [make_guest_e820_map] returned on, up to the last, is zero,
    that count being at most [E820MAX] and the value (cut to 8 bits) of
    [e820_entries]. *)
Theorem make_guest_boot_info_zero_filled {W} cfg (L : libsel4vm W) (vm : vm_t W)
    ca cl kla ka rla rsz addr w bp vm' :
  vm_ram_allocate L (vm_lib vm) (sizeof_boot_params cfg) = (addr, w) →
  addr ≠ 0 →
  boot_info_local cfg L (set_boot_info addr (set_vm_lib w vm)) ca cl kla ka rla rsz
  = Returned bp vm' →
  make_guest_boot_info cfg L vm ca cl kla ka rla rsz
  = (let '(r, w') := vm_ram_touch L (vm_lib vm') addr (sizeof_boot_params cfg)
                       (guest_elf_write_address (Obj_boot_params bp)) in
     Returned r (set_vm_lib w' vm')) ∧
  alt_mem_k bp = 0 ∧
  (∀ o, setup_header_other (hdr bp) o = 0) ∧
  (∀ o, boot_params_other bp o = 0) ∧
  (∀ o, screen_info_other (bp_screen_info bp) o = 0) ∧
  (rla = 0 →
   ramdisk_image (hdr bp) = 0 ∧ ramdisk_size (hdr bp) = 0 ∧ root_dev (hdr bp) = 0) ∧
  length (e820_map bp) = E820MAX cfg ∧
  (∃ n : nat,
     make_guest_e820_map cfg (replicate (E820MAX cfg) e820_zero)
       (vm_mem L (vm_lib vm')) = Done (n, e820_map bp) ∧
     e820_entries bp = wrap8 (Z.of_nat n) ∧
     (n ≤ E820MAX cfg)%nat ∧
     ∀ j : nat, (n ≤ j < E820MAX cfg)%nat → e820_map bp !! j = Some e820_zero).
Proof.
  intros Halloc Haddr Hlocal.
  split; [by eapply make_guest_boot_info_copies|].
  apply boot_info_local_inv in Hlocal as (n & e820 & _ & He820 & ->).
  cbn [alt_mem_k hdr setup_header_other boot_params_other bp_screen_info
       ramdisk_image ramdisk_size root_dev e820_map e820_entries].
  pose proof He820 as Hrun.
  apply make_guest_e820_map_frame in He820 as [Hlen Hframe].
  rewrite length_replicate in Hlen.
  assert (n ≤ E820MAX cfg)%nat as Hn.
  { destruct (vm_mem L (vm_lib vm')) as [rs].
    apply make_guest_e820_map_inv in Hrun. cbv zeta in Hrun.
    destruct Hrun as (-> & Hroom & _). by rewrite length_replicate in Hroom. }
  repeat split; try done.
  - intros o. by apply make_guest_screen_info_other.
  - by subst rla.
  - by subst rla.
  - by subst rla.
  - exists n. split; [done|]. split; [done|]. split; [done|].
    intros j [Hj Hmax]. rewrite Hframe by done.
    by apply lookup_replicate_2.
Qed.

Lemma make_guest_boot_info_zero_filled_witness :
  ∃ bp vm',
    boot_info_local ia32_debug (sim_libsel4vm no_vbe)
      (set_boot_info 0x100000
         (set_vm_lib (sim_alloc 4096 (vm_lib sim_guest)).2 sim_guest))
      0x200000 13 0x1000000 0x1000000 0 0 = Returned bp vm' ∧
    alt_mem_k bp = 0 ∧
    (∀ o, setup_header_other (hdr bp) o = 0) ∧
    ramdisk_image (hdr bp) = 0 ∧ ramdisk_size (hdr bp) = 0 ∧ root_dev (hdr bp) = 0 ∧
    e820_map bp !! 3%nat = Some e820_zero.
Proof.
  do 2 eexists. split; [vm_compute; reflexivity|].
  match goal with
  | |- context [alt_mem_k ?bp] =>
      destruct (make_guest_boot_info_zero_filled ia32_debug (sim_libsel4vm no_vbe)
                  sim_guest 0x200000 13 0x1000000 0x1000000 0 0 0x100000
                  (sim_alloc 4096 (vm_lib sim_guest)).2 bp _
                  eq_refl ltac:(lia) eq_refl)
        as (_ & Halt & Hhdr & _ & _ & Hrd & _ & _)
  end.
  split; [exact Halt|]. split; [exact Hhdr|].
  destruct (Hrd eq_refl) as (? & ? & ?). repeat split; try done.
Defined.

(** ** Failure of the command line allocation *)

(** C7 (as the code has it).  When the allocator returns 0 for the command
    line, [make_guest_cmd_line] returns -1 at once: it leaves the two
    results unwritten and touches no guest memory.
    [vmm_plat_init_guest_boot_structure] returns no value and looks at that
    -1 in an [assert] only: with assertions compiled in, it stops there, with
    the VM as the failed allocation left it; with [NDEBUG], it goes on to the
    boot parameters with the two results indeterminate. *)
Theorem vmm_plat_init_guest_boot_structure_no_cmdline {W} cfg (L : libsel4vm W)
    (vm : vm_t W) cmdline kla ka rla rsz w :
  vm_ram_allocate L (vm_lib vm) (strlen cmdline + 1) = (0, w) →
  (∀ a l, make_guest_cmd_line L vm cmdline a l = (-1, (a, l), set_vm_lib w vm)) ∧
  (NDEBUG cfg = false →
   vmm_plat_init_guest_boot_structure cfg L vm cmdline kla ka rla rsz
   = Aborted (set_vm_lib w vm)) ∧
  (NDEBUG cfg = true →
   vmm_plat_init_guest_boot_structure cfg L vm cmdline kla ka rla rsz
   = match make_guest_boot_info cfg L (set_vm_lib w vm)
             (indeterminate cfg) (indeterminate cfg) kla ka rla rsz with
     | Returned _ vm1 =>
         let '(_, w2) := make_guest_acpi_tables L (vm_lib vm1) in
         Returned tt (set_vm_lib w2 vm1)
     | Aborted vm1 => Aborted vm1
     | Undefined => Undefined
     end).
Proof.
  intros Halloc.
  assert (∀ a l, make_guest_cmd_line L vm cmdline a l = (-1, (a, l), set_vm_lib w vm))
    as Hcmd.
  { intros a l. unfold make_guest_cmd_line. by rewrite Halloc. }
  split; [done|].
  unfold vmm_plat_init_guest_boot_structure. rewrite Hcmd. unfold assert_no_err.
  split; intros ->; [done|].
  destruct (make_guest_boot_info _ _ _ _ _ _ _ _ _) as [err vm1| |]; [|done..].
  by destruct (make_guest_acpi_tables L (vm_lib vm1)).
Qed.

Lemma vmm_plat_init_guest_boot_structure_no_cmdline_witness :
  vm_ram_allocate (sim_libsel4vm no_vbe) (vm_lib sim_guest_full)
    (strlen "console=ttyS0" + 1)
  = (0, sim_log (Call_ram_allocate 14) (vm_lib sim_guest_full)) ∧
  make_guest_cmd_line (sim_libsel4vm no_vbe) sim_guest_full "console=ttyS0" 7 9
  = (-1, (7, 9),
     set_vm_lib (sim_log (Call_ram_allocate 14) (vm_lib sim_guest_full)) sim_guest_full) ∧
  vmm_plat_init_guest_boot_structure ia32_debug (sim_libsel4vm no_vbe) sim_guest_full
    "console=ttyS0" 0x1000000 0x1000000 0 0
  = Aborted
      (set_vm_lib (sim_log (Call_ram_allocate 14) (vm_lib sim_guest_full)) sim_guest_full).
Proof.
  split; [reflexivity|].
  destruct (vmm_plat_init_guest_boot_structure_no_cmdline ia32_debug
              (sim_libsel4vm no_vbe) sim_guest_full "console=ttyS0"
              0x1000000 0x1000000 0 0
              (sim_log (Call_ram_allocate 14) (vm_lib sim_guest_full)) eq_refl)
    as (Hcmd & Hdebug & _).
  split; [apply Hcmd|apply Hdebug; reflexivity].
Defined.

(** C7 (as the specification states it) fails in a build with [NDEBUG]:
    the allocation of the command line yields 0, and the call still asks for
    the memory of the boot parameters, builds the ACPI tables and returns. *)
Lemma fail_fast_claim_fails_with_NDEBUG :
  vm_ram_allocate (sim_libsel4vm no_vbe) (vm_lib sim_guest_full)
    (strlen "console=ttyS0" + 1)
  = (0, sim_log (Call_ram_allocate 14) (vm_lib sim_guest_full)) ∧
  (∃ vm', vmm_plat_init_guest_boot_structure ia32_release (sim_libsel4vm no_vbe)
            sim_guest_full "console=ttyS0" 0x1000000 0x1000000 0 0 = Returned tt vm' ∧
          sim_calls (vm_lib vm')
          = [Call_ram_allocate 14; Call_ram_allocate 4096; Call_acpi_tables]) ∧
  ¬ fail_fast_claim ia32_release (sim_libsel4vm no_vbe) sim_guest_full
      "console=ttyS0" 0x1000000 0x1000000 0 0.
Proof.
  split; [reflexivity|]. split; [eexists; split; vm_compute; reflexivity|].
  intros H. specialize (H _ eq_refl). vm_compute in H. discriminate H.
Qed.

(** A complete run: the command line and the boot parameters are placed, the
    ACPI tables built, and the address of the boot parameters recorded. *)
Example vmm_plat_init_guest_boot_structure_run :
  ∃ vm' bp,
    vmm_plat_init_guest_boot_structure ia32_debug (sim_libsel4vm no_vbe) sim_guest
      "console=ttyS0" 0x1000000 0x1000000 0 0 = Returned tt vm' ∧
    guest_boot_info_boot_info vm' = 0x10000E ∧
    sim_calls (vm_lib vm')
    = [Call_ram_allocate 14;
       Call_ram_touch 0x100000
         {| copy_from := Obj_cmdline "console=ttyS0"; copy_offset := 0; copy_size := 14 |};
       Call_ram_allocate 4096;
       Call_ram_touch 0x10000E
         {| copy_from := Obj_boot_params bp; copy_offset := 0; copy_size := 4096 |};
       Call_acpi_tables] ∧
    cmd_line_ptr (hdr bp) = 0x100000 ∧ cmdline_size (hdr bp) = 13 ∧
    version (hdr bp) = 0x0202 ∧ e820_entries bp = 3.
Proof.
  do 2 eexists. split; [vm_compute; reflexivity|].
  split; [reflexivity|]. split; [reflexivity|]. repeat split.
Qed.

(** ** The first thread of the guest *)

Lemma wrap32_small x : 0 ≤ x < 4294967296 → wrap32 x = x.
Proof. intros H. unfold wrap32, wrap. apply Z.mod_small. lia. Qed.

(** C8 (as the code has it).  [vmm_init_guest_thread_state] sets EAX, EBX,
    ECX and EDX to zero, RIP to the entry address cut to 32 bits, which is
    the entry address itself when that is below 2^32, and ESI to
    [vm->arch.guest_boot_info.boot_info], which after a call of
    [make_guest_boot_info] that got its memory is the address of the boot
    parameters. *)
Theorem vmm_init_guest_thread_state_registers {W} (vcpu : vm_vcpu_t W)
    guest_entry_addr :
  let vcpu' := vmm_init_guest_thread_state vcpu guest_entry_addr in
  vcpu_context vcpu' VCPU_CONTEXT_EAX = 0 ∧
  vcpu_context vcpu' VCPU_CONTEXT_EBX = 0 ∧
  vcpu_context vcpu' VCPU_CONTEXT_ECX = 0 ∧
  vcpu_context vcpu' VCPU_CONTEXT_EDX = 0 ∧
  vcpu_vmcs vcpu' VMX_GUEST_RIP = wrap32 guest_entry_addr ∧
  (0 ≤ guest_entry_addr < 4294967296 → vcpu_vmcs vcpu' VMX_GUEST_RIP = guest_entry_addr) ∧
  vcpu_context vcpu' VCPU_CONTEXT_ESI = guest_boot_info_boot_info (vcpu_vm vcpu) ∧
  (∀ cfg (L : libsel4vm W) vm ca cl kla ka rla rsz addr w r,
     vm_ram_allocate L (vm_lib vm) (sizeof_boot_params cfg) = (addr, w) →
     addr ≠ 0 →
     make_guest_boot_info cfg L vm ca cl kla ka rla rsz = Returned r (vcpu_vm vcpu) →
     vcpu_context vcpu' VCPU_CONTEXT_ESI = addr).
Proof.
  cbv zeta. unfold vmm_init_guest_thread_state.
  repeat split; try reflexivity.
  - apply wrap32_small; lia.
  - intros cfg L vm ca cl kla ka rla rsz addr w r Halloc Haddr Hrun.
    cbn. by eapply make_guest_boot_info_records.
Qed.

Lemma vmm_init_guest_thread_state_registers_witness :
  ∃ vm',
    make_guest_boot_info ia32_debug (sim_libsel4vm no_vbe) sim_guest
      0x200000 13 0x1000000 0x1000000 0 0 = Returned 0 vm' ∧
    let vcpu' := vmm_init_guest_thread_state (sim_vcpu vm') 0x1000000 in
    vcpu_vmcs vcpu' VMX_GUEST_RIP = 0x1000000 ∧
    vcpu_context vcpu' VCPU_CONTEXT_ESI = 0x100000.
Proof.
  eexists. split; [vm_compute; reflexivity|].
  match goal with
  | |- context [sim_vcpu ?vm'] =>
      destruct (vmm_init_guest_thread_state_registers (sim_vcpu vm') 0x1000000)
        as (_ & _ & _ & _ & _ & Hrip & _ & Hesi)
  end.
  split; [apply Hrip; lia|].
  apply (Hesi ia32_debug (sim_libsel4vm no_vbe) sim_guest
           0x200000 13 0x1000000 0x1000000 0 0 0x100000
           (sim_alloc 4096 (vm_lib sim_guest)).2 0 eq_refl); [lia|reflexivity].
Defined.

(** C8 (as the specification states it) fails where [uintptr_t] has 64
    bits: for the entry address 0x100001000 the instruction pointer is set
    to 0x1000. *)
Lemma thread_state_claim_fails_above_4G :
  is_uintptr x86_64_debug 0x100001000 ∧
  vcpu_vmcs (vmm_init_guest_thread_state (sim_vcpu sim_guest) 0x100001000) VMX_GUEST_RIP
  = 0x1000 ∧
  ¬ thread_state_claim x86_64_debug (sim_vcpu sim_guest) 0x100001000.
Proof.
  assert (is_uintptr x86_64_debug 0x100001000) as Hin by (unfold is_uintptr; simpl; lia).
  split; [done|]. split; [reflexivity|].
  intros H. destruct (H Hin) as (_ & _ & _ & _ & Hrip & _).
  vm_compute in Hrip. discriminate Hrip.
Qed.

(** C10.  The entry address is cut to 32 bits before it is written: the
    value of [VMX_GUEST_RIP] is the entry address modulo 2^32, that is its
    low 32 bits, a value in [0, 2^32). *)
Theorem vmm_init_guest_thread_state_rip_mod_2_32 {W} (vcpu : vm_vcpu_t W)
    guest_entry_addr :
  let rip := vcpu_vmcs (vmm_init_guest_thread_state vcpu guest_entry_addr)
               VMX_GUEST_RIP in
  rip = guest_entry_addr mod 2 ^ 32 ∧
  rip = Z.land guest_entry_addr (Z.ones 32) ∧
  0 ≤ rip < 2 ^ 32.
Proof.
  cbv zeta. unfold vmm_init_guest_thread_state.
  cbn [vm_set_thread_context_reg vm_set_vmcs_field vcpu_vmcs].
  destruct (decide (VMX_GUEST_RIP = VMX_GUEST_RIP)) as [_|Hne]; [|done].
  unfold wrap32, wrap. split; [done|]. split.
  - by rewrite Z.land_ones.
  - apply Z.mod_pos_bound. lia.
Qed.

(** ** The I/O port dispatcher *)

Section IOPorts_properties.
Context {D : Type}.
Implicit Types (io_list : vmm_io_port_list_t D) (e : ioport_entry_t D).

Lemma ranges_overlap_intersect (a b : ioport_range_t) :
  ranges_intersect a b → ranges_overlap a b = true.
Proof.
  intros (p & [Ha1 Ha2] & [Hb1 Hb2]). unfold ranges_overlap.
  apply andb_true_intro. split; apply Z.leb_le; lia.
Qed.

Lemma ranges_intersect_nonempty (a b : ioport_range_t) :
  ranges_intersect a b → range_start b ≤ range_end b.
Proof. intros (p & _ & [Hb1 Hb2]). lia. Qed.

Lemma ranges_overlap_false (a b : ioport_range_t) :
  ranges_overlap a b = false → ¬ ranges_intersect a b.
Proof. intros H Hi. apply ranges_overlap_intersect in Hi. congruence. Qed.

Lemma ranges_intersect_sym (a b : ioport_range_t) :
  ranges_intersect a b → ranges_intersect b a.
Proof. intros (p & ? & ?). by exists p. Qed.

Lemma port_in_range_spec port_no (r : ioport_range_t) :
  port_in_range port_no r = true ↔ port_of r port_no.
Proof.
  unfold port_in_range, port_of. rewrite andb_true_iff, !Z.leb_le. tauto.
Qed.

(** C2.  When the new inclusive range shares a port with the range of an
    entry of the table, [vmm_io_port_add_handler] fails with the overlap
    error and hands back the table it was given. *)
Theorem vmm_io_port_add_handler_overlap io_list (r : ioport_range_t)
    (i : ioport_interface_t D) :
  (∃ e, e ∈ ioports io_list ∧ ranges_intersect (range e) r) →
  vmm_io_port_add_handler io_list r i = (OverlapError, io_list).
Proof.
  intros (e & He & Hint). unfold vmm_io_port_add_handler.
  pose proof (ranges_intersect_nonempty _ _ Hint) as Hwf.
  apply Z.leb_le in Hwf as ->. cbn [negb].
  assert (existsb (λ e, ranges_overlap (range e) r) (ioports io_list) = true) as ->; [|done].
  apply existsb_exists. exists e. split; [by apply list_elem_of_In|].
  by apply ranges_overlap_intersect.
Qed.

(** A successful registration keeps the entries disjoint. *)
Lemma insert_by_start_elem e (l : list (ioport_entry_t D)) x :
  x ∈ insert_by_start e l ↔ x = e ∨ x ∈ l.
Proof.
  induction l as [|y l IH]; simpl.
  - rewrite list_elem_of_singleton, elem_of_nil. tauto.
  - destruct (_ <? _); rewrite !elem_of_cons; [tauto|]. rewrite IH. tauto.
Qed.

Lemma insert_by_start_disjoint e (l : list (ioport_entry_t D)) :
  Forall (λ y, ¬ ranges_intersect (range y) (range e)) l →
  entries_disjoint l → entries_disjoint (insert_by_start e l).
Proof.
  induction l as [|y l IH]; simpl; intros Hall Hdis.
  - split; [constructor|done].
  - apply Forall_cons in Hall as [Hy Hall]. destruct Hdis as [Hyl Hdis].
    destruct (_ <? _); simpl.
    + repeat split; [|done|done]. constructor.
      * intros H. by apply Hy, ranges_intersect_sym.
      * eapply Forall_impl; [exact Hall|]. intros z Hz H.
        by apply Hz, ranges_intersect_sym.
    + split; [|by apply IH]. apply Forall_forall. intros z Hz.
      apply insert_by_start_elem in Hz as [->|Hz]; [done|].
      by apply (proj1 (Forall_forall _ _) Hyl).
Qed.

Lemma vmm_io_port_init_disjoint : table_disjoint (@vmm_io_port_init D).
Proof. done. Qed.

Lemma vmm_io_port_add_handler_ok io_list (r : ioport_range_t)
    (i : ioport_interface_t D) io_list' :
  table_disjoint io_list →
  vmm_io_port_add_handler io_list r i = (AddOk, io_list') →
  table_disjoint io_list' ∧
  ∀ e, e ∈ ioports io_list' ↔
       e = {| range := r; interface := i; ioport_type := IOPORT_EMULATED |} ∨
       e ∈ ioports io_list.
Proof.
  intros Hdis. unfold vmm_io_port_add_handler.
  destruct (negb _); [done|].
  destruct (existsb _ _) eqn:Hex; [done|]. intros [= <-]. split.
  - apply insert_by_start_disjoint; [|done]. apply Forall_forall. intros y Hy.
    apply ranges_overlap_false.
    destruct (ranges_overlap (range y) r) eqn:Ho; [|done].
    assert (existsb (λ e, ranges_overlap (range e) r) (ioports io_list) = true)
      by (apply existsb_exists; exists y; split; [by apply list_elem_of_In|done]).
    congruence.
  - intros e. apply insert_by_start_elem.
Qed.

Lemma vmm_io_port_add_handler_error io_list (r : ioport_range_t)
    (i : ioport_interface_t D) res io_list' :
  vmm_io_port_add_handler io_list r i = (res, io_list') →
  res ≠ AddOk → io_list' = io_list.
Proof.
  unfold vmm_io_port_add_handler.
  destruct (negb _); [by intros [= <- <-]|].
  destruct (existsb _ _); [by intros [= <- <-]|]. by intros [= <- <-].
Qed.

(** The search finds an entry that holds the port, the only one when the
    entries are disjoint. *)
Lemma search_port_Some io_list port_no e :
  search_port io_list port_no = Some e →
  e ∈ ioports io_list ∧ port_of (range e) port_no.
Proof.
  unfold search_port. intros H. apply find_some in H as [Hin Hp].
  split; [by apply list_elem_of_In|by apply port_in_range_spec].
Qed.

Lemma search_port_None io_list port_no :
  search_port io_list port_no = None ↔
  ∀ e, e ∈ ioports io_list → ¬ port_of (range e) port_no.
Proof.
  unfold search_port. split.
  - intros H e He Hp. apply list_elem_of_In in He.
    pose proof (find_none _ _ H e He) as Hf. cbv beta in Hf.
    apply port_in_range_spec in Hp. congruence.
  - intros H. destruct (find _ _) as [e|] eqn:E; [|done].
    apply find_some in E as [Hin Hp]. exfalso.
    apply (H e); [by apply list_elem_of_In|by apply port_in_range_spec].
Qed.

Lemma search_port_unique io_list port_no e :
  table_disjoint io_list →
  search_port io_list port_no = Some e →
  ∀ e', e' ∈ ioports io_list → port_of (range e') port_no → e' = e.
Proof.
  unfold table_disjoint, search_port.
  induction (ioports io_list) as [|x l IH]; simpl; [done|].
  intros [Hx Hdis] Hfind e' He' Hp'.
  destruct (port_in_range port_no (range x)) eqn:Hpx.
  - injection Hfind as <-. apply elem_of_cons in He' as [->|He']; [done|].
    exfalso. apply (proj1 (Forall_forall _ _) Hx e' He').
    exists port_no. split; [by apply port_in_range_spec|done].
  - apply elem_of_cons in He' as [->|He']; [|by apply IH].
    apply port_in_range_spec in Hp'. congruence.
Qed.

(** C3.  [emulate_io_handler] returns 0, 1 or -1.  With no entry holding the
    port it returns 1 and leaves the data and the devices as they were.  With
    such an entry it calls the handler of the entry the search finds (the
    only entry holding the port when the entries are disjoint): the input
    handler when [is_in], storing its result into the data and returning 0
    when that handler returns 0, and returning -1 with the data unchanged
    otherwise; the output handler, on the data, when not [is_in], returning 0
    when that handler returns 0 and -1 otherwise. *)
Theorem emulate_io_handler_outcomes io_list port_no is_in size data (d : D) :
  let out := emulate_io_handler io_list port_no is_in size data d in
  (out.1.1 = 0 ∨ out.1.1 = 1 ∨ out.1.1 = -1) ∧
  ((∀ e, e ∈ ioports io_list → ¬ port_of (range e) port_no) →
   out = (1, data, d)) ∧
  ((∃ e, e ∈ ioports io_list ∧ port_of (range e) port_no) →
   ∃ e, search_port io_list port_no = Some e ∧
        e ∈ ioports io_list ∧ port_of (range e) port_no ∧
        (table_disjoint io_list →
         ∀ e', e' ∈ ioports io_list → port_of (range e') port_no → e' = e) ∧
        (is_in = true →
         let h := port_in (interface e) (cookie (interface e)) port_no size d in
         (h.1.1 = 0 → out = (0, h.1.2, h.2)) ∧
         (h.1.1 ≠ 0 → out = (-1, data, h.2))) ∧
        (is_in = false →
         let h := port_out (interface e) (cookie (interface e)) port_no size data d in
         (h.1 = 0 → out = (0, data, h.2)) ∧
         (h.1 ≠ 0 → out = (-1, data, h.2)))).
Proof.
  cbv zeta. unfold emulate_io_handler.
  destruct (search_port io_list port_no) as [e|] eqn:Hs.
  - pose proof (search_port_Some _ _ _ Hs) as [Hin Hp].
    split; [|split].
    + destruct is_in.
      * destruct (port_in _ _ _ _ _) as [[ret result] d1].
        destruct (ret =? 0); simpl; auto.
      * destruct (port_out _ _ _ _ _ _) as [ret d1].
        destruct (ret =? 0); simpl; auto.
    + intros Hnone. exfalso. by apply (Hnone e).
    + intros _. exists e. split; [done|]. split; [done|]. split; [done|].
      split; [intros Hdis; by apply search_port_unique|].
      split; intros ->.
      * destruct (port_in _ _ _ _ _) as [[ret result] d1]. cbn [fst snd].
        split; [by intros ->|]. intros Hret. by apply Z.eqb_neq in Hret as ->.
      * destruct (port_out _ _ _ _ _ _) as [ret d1]. cbn [fst snd].
        split; [by intros ->|]. intros Hret. by apply Z.eqb_neq in Hret as ->.
  - split; [simpl; auto|]. split; [done|].
    intros (e & He & Hp). exfalso.
    by apply (proj1 (search_port_None _ _) Hs e).
Qed.
End IOPorts_properties.

Lemma vmm_io_port_add_handler_overlap_witness :
  ∃ table,
    vmm_io_port_add_handler vmm_io_port_init range_60_64 data_register = (AddOk, table) ∧
    (∃ e, e ∈ ioports table ∧ ranges_intersect (range e) range_62_66) ∧
    vmm_io_port_add_handler table range_62_66 data_register = (OverlapError, table) ∧
    ioports table = [ {| range := range_60_64; interface := data_register;
                         ioport_type := IOPORT_EMULATED |} ].
Proof.
  eexists. split; [reflexivity|].
  assert (∃ e : ioport_entry_t Z,
            e ∈ [ {| range := range_60_64; interface := data_register;
                     ioport_type := IOPORT_EMULATED |} ] ∧
            ranges_intersect (range e) range_62_66) as Hshare.
  { eexists. split; [apply list_elem_of_singleton; reflexivity|].
    exists 0x62. unfold port_of. simpl. lia. }
  split; [exact Hshare|]. split; [|reflexivity].
  apply (vmm_io_port_add_handler_overlap
           {| ioports := [ {| range := range_60_64; interface := data_register;
                              ioport_type := IOPORT_EMULATED |} ] |}
           range_62_66 data_register Hshare).
Defined.

Lemma emulate_io_handler_outcomes_witness :
  let table := {| ioports := [ {| range := range_60_64; interface := data_register;
                                  ioport_type := IOPORT_EMULATED |} ] |} in
  emulate_io_handler table 0x65 true 1 7 42 = (1, 7, 42) ∧
  emulate_io_handler table 0x60 true 1 7 42 = (0, 42, 42) ∧
  emulate_io_handler table 0x60 false 1 7 42 = (0, 7, 7) ∧
  emulate_io_handler table 0x60 true 8 7 42 = (-1, 7, 42).
Proof.
  cbv zeta.
  set (table := {| ioports := [ {| range := range_60_64; interface := data_register;
                                   ioport_type := IOPORT_EMULATED |} ] |}).
  split.
  - destruct (emulate_io_handler_outcomes table 0x65 true 1 7 42) as (_ & Hnone & _).
    apply Hnone. intros e He Hp. apply list_elem_of_singleton in He as ->.
    unfold port_of in Hp. simpl in Hp. lia.
  - assert (∃ e, e ∈ ioports table ∧ port_of (range e) 0x60) as Hsome.
    { eexists. split; [apply list_elem_of_singleton; reflexivity|].
      unfold port_of. simpl. lia. }
    split; [|split].
    + destruct (emulate_io_handler_outcomes table 0x60 true 1 7 42)
        as (_ & _ & Hfound).
      destruct (Hfound Hsome) as (e & Hs & _ & _ & _ & Hin & _).
      injection Hs as <-. apply (Hin eq_refl). reflexivity.
    + destruct (emulate_io_handler_outcomes table 0x60 false 1 7 42)
        as (_ & _ & Hfound).
      destruct (Hfound Hsome) as (e & Hs & _ & _ & _ & _ & Hout).
      injection Hs as <-. apply (Hout eq_refl). reflexivity.
    + destruct (emulate_io_handler_outcomes table 0x60 true 8 7 42)
        as (_ & _ & Hfound).
      destruct (Hfound Hsome) as (e & Hs & _ & _ & _ & Hin & _).
      injection Hs as <-. apply (Hin eq_refl). simpl. lia.
Defined.

(** * Further properties of the code *)

(** ** The layout of the map on every region list *)

Lemma chain64_end es : ∀ a b b',
  chain64 a es b → wrap64 b = wrap64 b' → chain64 a es b'.
Proof.
  induction es as [|e es IH]; intros a b b'; cbn [chain64].
  - congruence.
  - intros [H1 H2] Hb. split; [done|]. by eapply IH.
Qed.

Lemma chain64_snoc es e : ∀ a,
  chain64 a es (e820_addr e) → chain64 a (es ++ [e]) (e820_addr e + e820_size e).
Proof.
  induction es as [|e' es IH]; intros a; cbn [chain64 app].
  - intros H. by split.
  - intros [H1 H2]. split; [done|]. by apply IH.
Qed.

Lemma chain64_contiguous es : ∀ a b, chain64 a es b → e820_contiguous es.
Proof.
  induction es as [|e es IH]; intros a b Hc i e1 e2 H1 H2; [done|].
  cbn [chain64] in Hc. destruct Hc as [_ Hc].
  destruct i as [|i].
  - cbn in H1, H2. injection H1 as ->.
    destruct es as [|e' es]; [done|]. cbn in H2. injection H2 as ->.
    cbn [chain64] in Hc. by destruct Hc as [-> _].
  - by apply (IH _ _ Hc i e1 e2).
Qed.

(** What [e820_step] keeps on every region: the entries lie end to end from
    address 0 on, the first one is of type RESERVED at address 0, and every
    entry is of type RESERVED or starts a region. *)
Lemma e820_step_layout cfg (rs : list vm_ram_region_t) r closed cur :
  r ∈ rs →
  chain64 0 closed (e820_addr cur) →
  (∃ e0, (closed ++ [cur]) !! 0%nat = Some e0 ∧
         e820_addr e0 = 0 ∧ e820_type e0 = E820_RESERVED cfg) →
  Forall (e820_entry_kind cfg rs) (closed ++ [cur]) →
  let st' := e820_step cfg r (closed, cur) in
  chain64 0 st'.1 (e820_addr st'.2) ∧
  (∃ e0, (st'.1 ++ [st'.2]) !! 0%nat = Some e0 ∧
         e820_addr e0 = 0 ∧ e820_type e0 = E820_RESERVED cfg) ∧
  Forall (e820_entry_kind cfg rs) (st'.1 ++ [st'.2]).
Proof.
  intros Hr Hc (e0 & H0 & Ha0 & Ht0) Hk. unfold e820_step.
  apply Forall_app in Hk as [Hk1 Hk2]. rewrite Forall_singleton in Hk2.
  assert (e820_entry_kind cfg rs (e820_ram_entry cfg r)) as Hram.
  { right. split; [done|]. by exists r. }
  destruct (wrap64 (e820_addr cur + e820_size cur) =? ram_start r); cbn [fst snd].
  - split; [done|]. split.
    + destruct closed as [|c closed]; cbn in H0 |- *.
      * injection H0 as <-. by eexists.
      * by exists e0.
    + apply Forall_app. split; [done|]. apply Forall_singleton. exact Hk2.
  - destruct (e820_size cur =? 0); cbn [fst snd].
    + split; [|split].
      * eapply chain64_end.
        { apply (chain64_snoc closed (set_size (wrap64 (ram_start r - e820_addr cur)) cur)).
          exact Hc. }
        cbn [set_size e820_addr e820_size e820_ram_entry]. apply wrap64_add_sub.
      * destruct closed as [|c closed]; cbn in H0 |- *.
        -- injection H0 as <-. by eexists.
        -- by exists e0.
      * rewrite !Forall_app, !Forall_singleton. split; [|done]. split; [done|exact Hk2].
    + split; [|split].
      * rewrite (app_snoc_cons closed cur). eapply chain64_end.
        { apply chain64_snoc. eapply chain64_end; [by apply chain64_snoc|].
          cbn [e820_addr]. symmetry. apply wrap64_wrap64. }
        cbn [e820_addr e820_size e820_ram_entry]. apply wrap64_add_sub.
      * destruct closed as [|c closed]; cbn in H0 |- *.
        -- injection H0 as <-. by eexists.
        -- by exists e0.
      * rewrite !Forall_app, !Forall_cons, !Forall_nil.
        split; [|done]. split; [done|]. split; [done|]. split; [by left|done].
Qed.

Lemma e820_steps_layout cfg (rs0 : list vm_ram_region_t) rs : ∀ closed cur,
  (∀ r, r ∈ rs → r ∈ rs0) →
  chain64 0 closed (e820_addr cur) →
  (∃ e0, (closed ++ [cur]) !! 0%nat = Some e0 ∧
         e820_addr e0 = 0 ∧ e820_type e0 = E820_RESERVED cfg) →
  Forall (e820_entry_kind cfg rs0) (closed ++ [cur]) →
  let st' := e820_steps cfg rs (closed, cur) in
  chain64 0 st'.1 (e820_addr st'.2) ∧
  (∃ e0, (st'.1 ++ [st'.2]) !! 0%nat = Some e0 ∧
         e820_addr e0 = 0 ∧ e820_type e0 = E820_RESERVED cfg) ∧
  Forall (e820_entry_kind cfg rs0) (st'.1 ++ [st'.2]).
Proof.
  induction rs as [|r rs IH]; intros closed cur Hin Hc H0 Hk; cbv zeta; [done|].
  rewrite e820_steps_cons.
  destruct (e820_step_layout cfg rs0 r closed cur) as (Hc1 & H01 & Hk1);
    [apply Hin; by left|done..|].
  destruct (e820_step cfg r (closed, cur)) as [closed1 cur1].
  apply IH; [|done..]. intros r' Hr'. apply Hin. by right.
Qed.

Lemma e820_map_of_layout cfg rs :
  let m := e820_map_of cfg rs in
  chain64 0 m 4294967296 ∧
  (∃ e0, m !! 0%nat = Some e0 ∧ e820_addr e0 = 0 ∧ e820_type e0 = E820_RESERVED cfg) ∧
  Forall (e820_entry_kind cfg rs) m ∧
  (∃ el, m !! (length m - 1)%nat = Some el ∧ e820_type el = E820_RESERVED cfg ∧
         wrap64 (e820_addr el + e820_size el) = 4294967296) ∧
  (2 ≤ length m ≤ 2 * length rs + 2)%nat.
Proof.
  unfold e820_map_of.
  destruct (e820_steps_layout cfg rs rs [] (e820_initial cfg)) as (Hc & H0 & Hk);
    [done|done|by eexists|by apply Forall_singleton; left|].
  pose proof (e820_steps_length cfg rs [] (e820_initial cfg)) as Hlen.
  destruct (e820_steps cfg rs ([], e820_initial cfg)) as [closed cur].
  cbn [fst snd length] in *.
  split; [|split; [|split; [|split]]].
  - rewrite (app_snoc_cons closed cur). eapply chain64_end.
    { apply chain64_snoc. eapply chain64_end; [by apply chain64_snoc|].
      cbn [e820_final e820_addr]. symmetry. apply wrap64_wrap64. }
    cbn [e820_final e820_addr e820_size]. apply wrap64_add_sub.
  - destruct H0 as (e0 & H0 & ?). exists e0. split; [|done].
    rewrite (app_snoc_cons closed cur). apply lookup_app_l_Some. exact H0.
  - rewrite (app_snoc_cons closed cur). apply Forall_app. split; [done|].
    apply Forall_singleton. by left.
  - exists (e820_final cfg cur). split; [|split; [done|]].
    + rewrite (app_snoc_cons closed cur).
      rewrite length_app. cbn [length].
      replace (length (closed ++ [cur]) + 1 - 1)%nat with (length (closed ++ [cur]))
        by lia.
      by rewrite list_lookup_middle.
    + cbn [e820_final e820_addr e820_size]. by rewrite wrap64_add_sub.
  - rewrite length_app. cbn [length]. lia.
Qed.

(** X1.  Whenever [make_guest_e820_map] returns, on any array and any region
    list: it returns between 2 and [2 * num_ram_regions + 2] entries, all of
    them inside the array; the array keeps its length and the entries from
    the count on are as they were; and in a build with assertions the region
    list was not empty, the count is at most [E820MAX] and no entry
    returned is empty. *)
Theorem make_guest_e820_map_returns cfg e820 rs (n : nat) e820' :
  make_guest_e820_map cfg e820 {| ram_regions := rs |} = Done (n, e820') →
  (2 ≤ n ≤ 2 * length rs + 2)%nat ∧ (n ≤ length e820)%nat ∧
  length e820' = length e820 ∧ drop n e820' = drop n e820 ∧
  (NDEBUG cfg = false →
   rs ≠ [] ∧ (n ≤ E820MAX cfg)%nat ∧ Forall e820_nonzero_length (take n e820')).
Proof.
  intros H. apply make_guest_e820_map_inv in H. cbv zeta in H.
  destruct H as (-> & Hroom & -> & Hd).
  destruct (e820_map_of_layout cfg rs) as (_ & _ & _ & _ & Hlen).
  set (m := e820_map_of cfg rs) in *.
  split; [done|]. split; [done|]. split; [|split].
  - rewrite length_app, length_drop. lia.
  - by rewrite drop_app_length.
  - intros Hdbg. destruct (Hd Hdbg) as (Hne & Hmax & Hnz).
    by rewrite take_app_length.
Qed.

Lemma make_guest_e820_map_returns_witness :
  (2 ≤ 3 ≤ 2 * length [region 0x100000 0x100000] + 2)%nat ∧
  (3 ≤ length (replicate 128 e820_zero))%nat ∧
  length e820_1MiB_map = length (replicate 128 e820_zero) ∧
  drop 3 e820_1MiB_map = drop 3 (replicate 128 e820_zero) ∧
  (NDEBUG ia32_debug = false →
   [region 0x100000 0x100000] ≠ [] ∧ (3 ≤ E820MAX ia32_debug)%nat ∧
   Forall e820_nonzero_length (take 3 e820_1MiB_map)).
Proof.
  apply (make_guest_e820_map_returns ia32_debug (replicate 128 e820_zero)
           [region 0x100000 0x100000] 3 e820_1MiB_map).
  vm_compute. reflexivity.
Defined.

(** X2.  Whenever [make_guest_e820_map] returns, on any array and any region
    list, the entries returned are laid out as follows: the first one starts
    at address 0 and is of type [E820_RESERVED]; each entry starts where the
    one before it ends (modulo 2^64); the last one is of type
    [E820_RESERVED] and ends at 2^32; and every entry is of type
    [E820_RESERVED], or of type [E820_RAM] and starts at the start of one of
    the regions. *)
Theorem make_guest_e820_map_layout cfg e820 rs (n : nat) e820' :
  make_guest_e820_map cfg e820 {| ram_regions := rs |} = Done (n, e820') →
  (∃ e0, e820' !! 0%nat = Some e0 ∧
         e820_addr e0 = 0 ∧ e820_type e0 = E820_RESERVED cfg) ∧
  e820_contiguous (take n e820') ∧
  (∃ el, e820' !! (n - 1)%nat = Some el ∧ e820_type el = E820_RESERVED cfg ∧
         wrap64 (e820_addr el + e820_size el) = 4294967296) ∧
  Forall (e820_entry_kind cfg rs) (take n e820').
Proof.
  intros H. apply make_guest_e820_map_inv in H. cbv zeta in H.
  destruct H as (-> & Hroom & -> & _).
  destruct (e820_map_of_layout cfg rs) as (Hc & (e0 & H0 & Ha0 & Ht0) & Hk & Hl & Hlen).
  set (m := e820_map_of cfg rs) in *.
  destruct Hl as (el & Hl & Htl & Hel).
  rewrite take_app_length.
  split; [|split; [|split]].
  - exists e0. split; [|done]. by apply lookup_app_l_Some.
  - by eapply chain64_contiguous.
  - exists el. split; [by apply lookup_app_l_Some|done].
  - done.
Qed.

Lemma make_guest_e820_map_layout_witness :
  (∃ e0, e820_1MiB_map !! 0%nat = Some e0 ∧
         e820_addr e0 = 0 ∧ e820_type e0 = E820_RESERVED ia32_debug) ∧
  e820_contiguous (take 3 e820_1MiB_map) ∧
  (∃ el, e820_1MiB_map !! (3 - 1)%nat = Some el ∧
         e820_type el = E820_RESERVED ia32_debug ∧
         wrap64 (e820_addr el + e820_size el) = 4294967296) ∧
  Forall (e820_entry_kind ia32_debug [region 0x100000 0x100000]) (take 3 e820_1MiB_map).
Proof.
  apply (make_guest_e820_map_layout ia32_debug (replicate 128 e820_zero)
           [region 0x100000 0x100000] 3 e820_1MiB_map).
  vm_compute. reflexivity.
Defined.

(** ** Adjacent regions *)

(** X3.  Two consecutive regions of which the second starts where the first
    ends are reported as one region: [make_guest_e820_map] does on them, in
    every build and on every array, what it does on the list that holds the
    single region made of both, whatever the allocation flags of the three
    regions are. *)
Theorem make_guest_e820_map_merges_adjacent cfg e820 l1 r1 r2 l2 allocated :
  ram_start r2 = ram_start r1 + ram_size r1 →
  0 ≤ ram_start r2 < 18446744073709551616 →
  make_guest_e820_map cfg e820 {| ram_regions := l1 ++ r1 :: r2 :: l2 |} =
  make_guest_e820_map cfg e820
    {| ram_regions := l1 ++ merge_regions r1 r2 allocated :: l2 |}.
Proof.
  intros Hadj Hrange. unfold make_guest_e820_map.
  assert (∀ l r l', (0 <? num_ram_regions {| ram_regions := l ++ r :: l' |}) = true)
    as Hn.
  { intros l r l'. unfold num_ram_regions. cbn [ram_regions].
    rewrite length_app. cbn [length]. apply Z.ltb_lt. lia. }
  rewrite !Hn. cbn [ram_regions].
  assert (∀ st, e820_regions cfg (l1 ++ r1 :: r2 :: l2) st =
                e820_regions cfg (l1 ++ merge_regions r1 r2 allocated :: l2) st)
    as Hloop.
  { intros st. rewrite !e820_regions_app.
    destruct (e820_regions cfg l1 st) as [st1| |]; cbn [mbind result_bind]; [|done..].
    cbn [e820_regions].
    rewrite <- (e820_region_split cfg r1 r2 (merge_regions r1 r2 allocated) st1)
      by done.
    destruct (e820_region cfg r1 st1); by cbn [mbind result_bind]. }
  destruct e820 as [|x rest]; [done|].
  rewrite !e820_upd_0. cbn [mbind result_bind].
  rewrite !e820_upd_0. cbn [mbind result_bind].
  rewrite !e820_upd_0. cbn [mbind result_bind].
  by rewrite Hloop.
Qed.

Lemma make_guest_e820_map_merges_adjacent_witness :
  make_guest_e820_map ia32_debug (replicate 128 e820_zero)
    {| ram_regions := [region 0x100000 0x100000] ++
         {| ram_start := 0x800000; ram_size := 0x100000; ram_allocated := true |}
         :: region 0x900000 0x200000 :: [region 0xc00000 0x100000] |} =
  make_guest_e820_map ia32_debug (replicate 128 e820_zero)
    {| ram_regions := [region 0x100000 0x100000] ++
         merge_regions
           {| ram_start := 0x800000; ram_size := 0x100000; ram_allocated := true |}
           (region 0x900000 0x200000) false
         :: [region 0xc00000 0x100000] |}.
Proof.
  apply (make_guest_e820_map_merges_adjacent ia32_debug).
  - reflexivity.
  - simpl. lia.
Defined.

(** ** Which accesses stay inside the array, and which builds abort *)

Lemma next_entry_result cfg (k : nat) :
  next_entry cfg k = Done (S k) ∧ (NDEBUG cfg = false → (S k < E820MAX cfg)%nat) ∨
  next_entry cfg k = AssertFail ∧ NDEBUG cfg = false.
Proof.
  unfold next_entry, assert_. destruct (NDEBUG cfg); [by left|].
  case_bool_decide; [by left|by right].
Qed.

Lemma e820_get_result (a : list e820entry) (k : nat) :
  (∃ e, e820_get a k = Done e) ∧ (k < length a)%nat ∨
  e820_get a k = OutOfBounds ∧ (length a ≤ k)%nat.
Proof.
  unfold e820_get. destruct (a !! k) eqn:E.
  - left. split; [by eexists|]. by apply lookup_lt_Some in E.
  - right. split; [done|]. by apply lookup_ge_None in E.
Qed.

Lemma e820_upd_result (a : list e820entry) (k : nat) f :
  (∃ a', e820_upd a k f = Done a' ∧ length a' = length a) ∧ (k < length a)%nat ∨
  e820_upd a k f = OutOfBounds ∧ (length a ≤ k)%nat.
Proof.
  unfold e820_upd. destruct (a !! k) eqn:E.
  - left. split; [|by apply lookup_lt_Some in E].
    eexists. split; [done|]. apply length_insert.
  - right. split; [done|]. by apply lookup_ge_None in E.
Qed.

(** One statement of the array code after the other. *)
Ltac e820_exec cfg :=
  repeat first
    [ progress cbn [mbind result_bind negb]
    | match goal with
      | |- context [next_entry cfg ?k] =>
          let E := fresh "E" in
          destruct (next_entry_result cfg k) as [[E ?] | [E ?]]; rewrite E; clear E
      | |- context [e820_get ?a ?k] =>
          let E := fresh "E" in
          destruct (e820_get_result a k) as [[[? E] ?] | [E ?]]; rewrite E; clear E
      | |- context [e820_upd ?a ?k ?f] =>
          let E := fresh "E" in
          destruct (e820_upd_result a k f) as [[(? & E & ?) ?] | [E ?]];
          rewrite E; clear E
      end ].

Lemma e820_region_outcome cfg r a k :
  e820_outcome cfg a k (e820_region cfg r (a, k)).
Proof.
  unfold e820_region.
  destruct (e820_get_result a k) as [[[cur E] ?] | [E ?]]; rewrite E; clear E;
    cbn [mbind result_bind]; [|destruct (NDEBUG cfg); cbn; lia].
  destruct (negb (wrap64 (e820_addr cur + e820_size cur) =? ram_start r)).
  - destruct (negb (e820_size cur =? 0)); e820_exec cfg;
      cbn [e820_outcome]; destruct (NDEBUG cfg); try done; try lia; try tauto;
      try (repeat split; (lia || congruence)).
  - e820_exec cfg; cbn [e820_outcome]; destruct (NDEBUG cfg); try done; try lia;
      try (repeat split; (lia || congruence)).
Qed.

Lemma e820_regions_outcome cfg rs : ∀ a k,
  e820_outcome cfg a k (e820_regions cfg rs (a, k)).
Proof.
  induction rs as [|r rs IH]; intros a k; cbn [e820_regions].
  - cbn [e820_outcome]. by repeat split.
  - pose proof (e820_region_outcome cfg r a k) as H1.
    destruct (e820_region cfg r (a, k)) as [[a1 k1]| |]; cbn [mbind result_bind];
      [|done..].
    specialize (IH a1 k1). cbn [e820_outcome] in H1. destruct H1 as (Hl1 & Hk1 & Hm1).
    destruct (e820_regions cfg rs (a1, k1)) as [[a2 k2]| |]; cbn [e820_outcome] in *.
    + destruct IH as (Hl2 & Hk2 & Hm2). repeat split; [congruence|lia|].
      intros Hd Hk. by apply Hm2, Hm1.
    + done.
    + destruct IH as [?|[?|?]]; [by left|right; left; lia|].
      destruct (NDEBUG cfg) eqn:Hd; [by left|right; right].
      destruct (decide (k < E820MAX cfg)%nat) as [Hk|Hk]; [|lia].
      specialize (Hm1 eq_refl Hk). lia.
Qed.

Lemma e820_check_outcome cfg a : ∀ (n i : nat),
  match e820_check cfg a i n with
  | Done _ => True
  | AssertFail => NDEBUG cfg = false
  | OutOfBounds => (length a < i + n)%nat
  end.
Proof.
  induction n as [|n IH]; intros i; [done|].
  rewrite e820_check_S.
  destruct (e820_get_result a i) as [[[e E] ?] | [E ?]]; rewrite E; clear E;
    cbn [mbind result_bind]; [|lia].
  unfold assert_. destruct (NDEBUG cfg) eqn:Hd; cbn [mbind result_bind].
  - specialize (IH (S i)). destruct (e820_check cfg a (S i) n); [done|done|lia].
  - destruct (e820_addr e <? _); cbn [mbind result_bind]; [|done].
    specialize (IH (S i)). destruct (e820_check cfg a (S i) n); [done|done|lia].
Qed.

(** The outcomes of [make_guest_e820_map]: it aborts only in a build with
    assertions, and leaves the array only in a build without them or on an
    array of less than [E820MAX] entries. *)
Lemma make_guest_e820_map_outcome cfg e820 mem :
  (0 < E820MAX cfg)%nat →
  match make_guest_e820_map cfg e820 mem with
  | Done _ => True
  | AssertFail => NDEBUG cfg = false
  | OutOfBounds => NDEBUG cfg = true ∨ (length e820 < E820MAX cfg)%nat
  end.
Proof.
  intros Hmax. unfold make_guest_e820_map.
  destruct e820 as [|x rest].
  { cbn. right. cbn [length]. lia. }
  rewrite !e820_upd_0. cbn [mbind result_bind].
  rewrite !e820_upd_0. cbn [mbind result_bind].
  rewrite !e820_upd_0. cbn [mbind result_bind].
  set (a0 := _ :: rest). assert (length a0 = length (x :: rest)) as Hl0 by done.
  clearbody a0.
  unfold assert_ at 1. destruct (NDEBUG cfg) eqn:Hd; cbn [mbind result_bind].
  - pose proof (e820_regions_outcome cfg (ram_regions mem) a0 0) as H1.
    destruct (e820_regions cfg (ram_regions mem) (a0, 0%nat)) as [[a1 k1]| |];
      cbn [mbind result_bind e820_outcome] in *; [|congruence|by left].
    match goal with
    | |- match ?X with _ => _ end => destruct X eqn:EX; [done| |by left]
    end.
    exfalso. revert EX.
    e820_exec cfg; try done; try congruence.
    match goal with
    | |- context [e820_check cfg ?a 0 ?n] =>
        pose proof (e820_check_outcome cfg a n 0) as Hc; rewrite Hd in Hc;
        by destruct (e820_check cfg a 0 n)
    end.
  - destruct (0 <? num_ram_regions mem); cbn [mbind result_bind]; [|done].
    pose proof (e820_regions_outcome cfg (ram_regions mem) a0 0) as H1.
    destruct (e820_regions cfg (ram_regions mem) (a0, 0%nat)) as [[a1 k1]| |];
      cbn [mbind result_bind e820_outcome] in *; [|done|].
    2:{ right. destruct H1 as [?|[?|?]]; [congruence|lia|lia]. }
    destruct H1 as (Hl1 & _ & Hk1). specialize (Hk1 Hd Hmax).
    e820_exec cfg;
      repeat match goal with
             | H : NDEBUG cfg = false → _ |- _ => specialize (H Hd)
             end;
      try done; try (right; lia).
    match goal with
    | |- context [e820_check cfg ?a 0 ?n] =>
        pose proof (e820_check_outcome cfg a n 0) as Hc;
        destruct (e820_check cfg a 0 n); cbn [mbind result_bind]; [done|done|]
    end.
    right. cbn [length] in *. lia.
Qed.

(** X4.  On an array of at least [E820MAX] entries (and [E820MAX] is not 0),
    whatever the regions are: in a build with assertions
    [make_guest_e820_map] never reads or writes outside the array, it
    returns or fails an assertion; in a build without assertions (NDEBUG) it
    never aborts, it returns or leaves the array. *)
Theorem make_guest_e820_map_in_bounds cfg e820 mem :
  (0 < E820MAX cfg)%nat →
  (E820MAX cfg ≤ length e820)%nat →
  (NDEBUG cfg = false → make_guest_e820_map cfg e820 mem ≠ OutOfBounds) ∧
  (NDEBUG cfg = true → make_guest_e820_map cfg e820 mem ≠ AssertFail).
Proof.
  intros Hmax Hlen.
  pose proof (make_guest_e820_map_outcome cfg e820 mem Hmax) as H.
  split; intros Hd E; rewrite E in H.
  - destruct H as [H|H]; [congruence|lia].
  - congruence.
Qed.

Lemma make_guest_e820_map_in_bounds_witness :
  (NDEBUG ia32_debug = false →
   make_guest_e820_map ia32_debug (replicate 128 e820_zero)
     {| ram_regions := sixty_four_regions |} ≠ OutOfBounds) ∧
  (NDEBUG ia32_debug = true →
   make_guest_e820_map ia32_debug (replicate 128 e820_zero)
     {| ram_regions := sixty_four_regions |} ≠ AssertFail).
Proof.
  apply (make_guest_e820_map_in_bounds ia32_debug).
  - simpl. lia.
  - simpl. lia.
Defined.

(** ** Regions that are apart need two entries each *)

Lemma regions_apart_from rs : ∀ lo, regions_apart lo rs → regions_from lo rs.
Proof.
  induction rs as [|r rs IH]; intros lo; cbn [regions_apart regions_from]; [done|].
  intros (? & ? & ?). split; [lia|]. split; [done|]. by apply IH.
Qed.

Lemma e820_step_apart_length cfg r closed cur :
  0 ≤ e820_addr cur → 0 ≤ e820_size cur →
  e820_addr cur + e820_size cur < ram_start r →
  ram_start r < 18446744073709551616 →
  length (e820_step cfg r (closed, cur)).1 =
  (length closed + (if (e820_size cur =? 0)%Z then 1 else 2))%nat.
Proof.
  intros Ha Hs Hlt Hmax. unfold e820_step.
  rewrite wrap64_small by lia.
  destruct (e820_addr cur + e820_size cur =? ram_start r) eqn:E;
    [apply Z.eqb_eq in E; lia|].
  destruct (e820_size cur =? 0); cbn [fst]; by rewrite length_app.
Qed.

Lemma e820_steps_apart_length cfg rs : ∀ closed cur,
  chain 0 closed (e820_addr cur) →
  0 < e820_size cur →
  regions_apart (e820_addr cur + e820_size cur) rs →
  regions_end (e820_addr cur + e820_size cur) rs < 18446744073709551616 →
  length (e820_steps cfg rs (closed, cur)).1 = (length closed + 2 * length rs)%nat.
Proof.
  induction rs as [|r rs IH]; intros closed cur Hc Hsz Hrs Hend.
  - unfold e820_steps. cbn [fold_left fst length]. lia.
  - rewrite e820_steps_cons. cbn [regions_apart regions_end] in Hrs, Hend.
    destruct Hrs as (Hlo & Hz & Hrs).
    pose proof (regions_end_le _ _ (regions_apart_from _ _ Hrs)) as Hle.
    pose proof (chain_le _ _ _ Hc) as Ha.
    destruct (e820_step_spec cfg r closed cur) as (Hc1 & Hsz1 & Hpos1 & _);
      [done|lia|lia|done|lia|].
    pose proof (e820_step_apart_length cfg r closed cur) as Hlen.
    destruct (e820_step cfg r (closed, cur)) as [closed1 cur1].
    cbn [fst snd] in *. rewrite IH; [|done|done|by rewrite Hpos1..].
    rewrite Hlen by lia.
    destruct (e820_size cur =? 0) eqn:E; [apply Z.eqb_eq in E|]; cbn [length]; lia.
Qed.

Lemma e820_map_of_apart_length cfg r1 rs :
  regions_apart 0 (r1 :: rs) →
  regions_end 0 (r1 :: rs) < 18446744073709551616 →
  length (e820_map_of cfg (r1 :: rs)) = (2 * length (r1 :: rs) + 1)%nat.
Proof.
  cbn [regions_apart regions_end]. intros (Hlo & Hz & Hrs) Hend.
  pose proof (regions_end_le _ _ (regions_apart_from _ _ Hrs)) as Hle.
  unfold e820_map_of. rewrite e820_steps_cons.
  destruct (e820_step_spec cfg r1 [] (e820_initial cfg)) as (Hc1 & Hsz1 & Hpos1 & _);
    cbn [e820_initial e820_addr e820_size chain]; [done|lia|lia|done|lia|].
  pose proof (e820_step_apart_length cfg r1 [] (e820_initial cfg)) as Hlen.
  destruct (e820_step cfg r1 ([], e820_initial cfg)) as [closed1 cur1].
  cbn [fst snd e820_initial e820_addr e820_size length] in *.
  specialize (Hlen ltac:(lia) ltac:(lia) ltac:(lia) ltac:(lia)).
  pose proof (e820_steps_apart_length cfg rs closed1 cur1) as Hsteps.
  destruct (e820_steps cfg rs (closed1, cur1)) as [closed cur].
  cbn [fst] in Hsteps. rewrite length_app. cbn [length].
  rewrite Hsteps; [|done|done|by rewrite Hpos1..].
  rewrite Hlen. cbn. lia.
Qed.

(** X5.  Regions that are not empty, lie in increasing order above address 0
    and are apart from each other need [2 * num_ram_regions + 1] entries:
    this is the count [make_guest_e820_map] returns whenever it returns.  On
    an array of [E820MAX] entries or more, when [E820MAX] is less than
    that, a build with assertions aborts; and when the array is shorter
    than that, a build without assertions (NDEBUG) writes past its end. *)
Theorem make_guest_e820_map_needs_room cfg e820 r1 rs :
  (0 < E820MAX cfg ≤ length e820)%nat →
  regions_apart 0 (r1 :: rs) →
  regions_end 0 (r1 :: rs) < 18446744073709551616 →
  let mem := {| ram_regions := r1 :: rs |} in
  let need := (2 * length (r1 :: rs) + 1)%nat in
  (∀ n e820', make_guest_e820_map cfg e820 mem = Done (n, e820') → n = need) ∧
  (NDEBUG cfg = false → (E820MAX cfg < need)%nat →
   make_guest_e820_map cfg e820 mem = AssertFail) ∧
  (NDEBUG cfg = true → (length e820 < need)%nat →
   make_guest_e820_map cfg e820 mem = OutOfBounds).
Proof.
  intros [Hmax Hlen] Hrs Hend mem need.
  pose proof (e820_map_of_apart_length cfg r1 rs Hrs Hend) as Hneed. fold need in Hneed.
  pose proof (make_guest_e820_map_outcome cfg e820 mem Hmax) as Hout.
  pose proof (make_guest_e820_map_inv cfg e820 (r1 :: rs)) as Hinv. fold mem in Hinv.
  destruct (make_guest_e820_map cfg e820 mem) as [[n e820']| |].
  - specialize (Hinv n e820' eq_refl). cbv zeta in Hinv.
    destruct Hinv as (-> & Hroom & _ & Hd).
    split; [by intros ? ? [= <- _]|]. split.
    + intros Hdbg Hlt. destruct (Hd Hdbg) as (_ & ? & _). lia.
    + intros _ Hlt. lia.
  - split; [done|]. split; [done|]. congruence.
  - split; [done|]. split; [|done]. intros Hd _.
    destruct Hout as [?|?]; [congruence|lia].
Qed.

Lemma make_guest_e820_map_needs_room_witness :
  let cfg := ia32_release in
  let e820 := replicate 128 e820_zero in
  let mem := {| ram_regions := region 1048576 1048576 :: tail sixty_four_regions |} in
  let need := (2 * length (region 1048576 1048576 :: tail sixty_four_regions) + 1)%nat in
  (∀ n e820', make_guest_e820_map cfg e820 mem = Done (n, e820') → n = need) ∧
  (NDEBUG cfg = false → (E820MAX cfg < need)%nat →
   make_guest_e820_map cfg e820 mem = AssertFail) ∧
  (NDEBUG cfg = true → (length e820 < need)%nat →
   make_guest_e820_map cfg e820 mem = OutOfBounds).
Proof.
  apply (make_guest_e820_map_needs_room ia32_release (replicate 128 e820_zero)
           (region 1048576 1048576) (tail sixty_four_regions)).
  - simpl. lia.
  - vm_compute. repeat split.
  - vm_compute. reflexivity.
Defined.

(** ** Only the regions are reported as RAM *)

Lemma e820_step_only_ram cfg (rs : list vm_ram_region_t) r closed cur :
  E820_RAM cfg ≠ E820_RESERVED cfg →
  r ∈ rs →
  0 ≤ e820_addr cur → 0 ≤ e820_size cur →
  e820_addr cur + e820_size cur ≤ ram_start r →
  0 < ram_size r →
  ram_start r + ram_size r < 18446744073709551616 →
  (e820_size cur = 0 → e820_type cur ≠ E820_RAM cfg) →
  Forall (only_ram cfg rs) closed → only_ram cfg rs cur →
  let st' := e820_step cfg r (closed, cur) in
  Forall (only_ram cfg rs) st'.1 ∧ only_ram cfg rs st'.2.
Proof.
  intros Hty Hr Ha Hs Hle Hpos Hmax Hzero Hclosed Hcur.
  assert (only_ram cfg rs (e820_ram_entry cfg r)) as Hnew.
  { intros _ x [Hx1 Hx2]. exists r. split; [done|].
    unfold e820_ram_entry in Hx1, Hx2. cbn [e820_addr e820_size] in Hx1, Hx2.
    rewrite Z.sub_diag, (wrap64_small 0), (wrap64_small (0 + _)) in Hx2 by lia.
    unfold in_region. lia. }
  unfold e820_step.
  rewrite !(wrap64_small (e820_addr cur + e820_size cur)) by lia.
  rewrite !(wrap64_small (ram_start r - e820_addr cur)) by lia.
  rewrite !(wrap64_small (ram_start r - e820_addr cur + ram_size r)) by lia.
  destruct (e820_addr cur + e820_size cur =? ram_start r) eqn:Hgap; cbn [fst snd].
  - apply Z.eqb_eq in Hgap. split; [done|].
    intros Ht x [Hx1 Hx2]. cbn [set_size e820_addr e820_size e820_type] in Ht, Hx1, Hx2.
    destruct (decide (x < ram_start r)) as [Hx|Hx].
    + apply (Hcur Ht x). unfold in_entry. lia.
    + exists r. split; [done|]. unfold in_region. lia.
  - destruct (e820_size cur =? 0) eqn:Hz; cbn [fst snd].
    + apply Z.eqb_eq in Hz. split; [|done].
      apply Forall_app. split; [done|]. apply Forall_singleton.
      intros Ht. cbn [set_size e820_type] in Ht. by destruct (Hzero Hz).
    + split; [|done].
      apply Forall_app. split; [done|]. apply Forall_cons. split; [done|].
      apply Forall_singleton. intros Ht. cbn [e820_type] in Ht. congruence.
Qed.

Lemma e820_steps_only_ram cfg (rs0 : list vm_ram_region_t) rs : ∀ closed cur,
  E820_RAM cfg ≠ E820_RESERVED cfg →
  (∀ r, r ∈ rs → r ∈ rs0) →
  chain 0 closed (e820_addr cur) →
  0 ≤ e820_size cur →
  (e820_size cur = 0 → e820_type cur ≠ E820_RAM cfg) →
  regions_from (e820_addr cur + e820_size cur) rs →
  regions_end (e820_addr cur + e820_size cur) rs < 18446744073709551616 →
  Forall (only_ram cfg rs0) closed → only_ram cfg rs0 cur →
  let st' := e820_steps cfg rs (closed, cur) in
  Forall (only_ram cfg rs0) st'.1 ∧ only_ram cfg rs0 st'.2.
Proof.
  induction rs as [|r rs IH];
    intros closed cur Hty Hin Hc Hsz Hzero Hrs Hend Hclosed Hcur; cbv zeta; [done|].
  rewrite e820_steps_cons. cbn [regions_from regions_end] in Hrs, Hend.
  destruct Hrs as (Hlo & Hz & Hrs).
  pose proof (regions_end_le _ _ Hrs) as Hle.
  pose proof (chain_le _ _ _ Hc) as Ha.
  destruct (e820_step_spec cfg r closed cur) as (Hc1 & Hsz1 & Hpos1 & _);
    [done|lia|lia|done|lia|].
  destruct (e820_step_only_ram cfg rs0 r closed cur) as [Hclosed1 Hcur1];
    [done|apply Hin; by left|lia|lia|lia|done|lia|done|done|done|].
  destruct (e820_step cfg r (closed, cur)) as [closed1 cur1].
  cbn [fst snd] in *.
  apply IH; try done.
  - intros r' Hr'. apply Hin. by right.
  - lia.
  - lia.
  - by rewrite Hpos1.
  - by rewrite Hpos1.
Qed.

Lemma e820_map_of_only_ram cfg rs :
  E820_RAM cfg ≠ E820_RESERVED cfg →
  Forall (λ r, 0 ≤ ram_start r ∧ 0 < ram_size r ∧
               ram_start r + ram_size r < 18446744073709551616) rs →
  regions_sorted rs →
  Forall (only_ram cfg rs) (e820_map_of cfg rs).
Proof.
  intros Hty Hall Hsorted.
  assert (regions_from 0 rs) as Hfrom.
  { apply regions_from_sorted; [|done|].
    - eapply Forall_impl; [exact Hall|]. by intros r (_ & ? & _).
    - intros r Hr. by apply (proj1 (Forall_forall _ _) Hall r) in Hr as (? & _). }
  assert (regions_end 0 rs < 18446744073709551616) as Hend.
  { apply regions_end_lt; [done|]. eapply Forall_impl; [exact Hall|].
    by intros r (_ & _ & ?). }
  unfold e820_map_of.
  destruct (e820_steps_only_ram cfg rs rs [] (e820_initial cfg)) as [Hclosed Hcur];
    cbn [e820_initial e820_addr e820_size e820_type chain]; try done.
  { intros Ht. by destruct Hty. }
  destruct (e820_steps cfg rs ([], e820_initial cfg)) as [closed cur].
  cbn [fst snd] in *.
  apply Forall_app. split; [done|]. apply Forall_cons. split; [done|].
  apply Forall_singleton. intros Ht. cbn [e820_final e820_type] in Ht. congruence.
Qed.

(** X6.  The map reports as RAM nothing but the regions.  For regions that
    are not empty, sorted by start address, non-overlapping and inside the
    64-bit address space, and with [E820_RAM] and [E820_RESERVED] two
    different types: whenever [make_guest_e820_map] returns, every address
    of every returned entry of type [E820_RAM] is an address of one of the
    regions. *)
Theorem make_guest_e820_map_ram_only cfg e820 rs (n : nat) e820' :
  E820_RAM cfg ≠ E820_RESERVED cfg →
  Forall (λ r, 0 ≤ ram_start r ∧ 0 < ram_size r ∧
               ram_start r + ram_size r < 18446744073709551616) rs →
  regions_sorted rs →
  make_guest_e820_map cfg e820 {| ram_regions := rs |} = Done (n, e820') →
  ∀ e x, e ∈ take n e820' → e820_type e = E820_RAM cfg → in_entry x e →
    ∃ r, r ∈ rs ∧ in_region x r.
Proof.
  intros Hty Hall Hsorted H e x He Ht Hx.
  apply make_guest_e820_map_inv in H. cbv zeta in H.
  destruct H as (-> & _ & -> & _).
  rewrite take_app_length in He.
  pose proof (e820_map_of_only_ram cfg rs Hty Hall Hsorted) as Hm.
  by apply (proj1 (Forall_forall _ _) Hm e He Ht x).
Qed.

Lemma make_guest_e820_map_ram_only_witness :
  make_guest_e820_map ia32_debug (replicate 128 e820_zero)
    {| ram_regions := [region 0x100000 0x100000] |} = Done (3%nat, e820_1MiB_map) ∧
  ∀ e x, e ∈ take 3 e820_1MiB_map → e820_type e = E820_RAM ia32_debug → in_entry x e →
    ∃ r, r ∈ [region 0x100000 0x100000] ∧ in_region x r.
Proof.
  split; [vm_compute; reflexivity|].
  apply (make_guest_e820_map_ram_only ia32_debug (replicate 128 e820_zero)
           [region 0x100000 0x100000] 3 e820_1MiB_map).
  - simpl. lia.
  - repeat constructor; simpl; lia.
  - apply regions_sorted_cons; [constructor|apply regions_sorted_nil].
  - vm_compute. reflexivity.
Defined.

(** * Further properties of the boot structures *)

(** ** The size of the frame buffer *)

Lemma ALIGN_UP_65536 x :
  ALIGN_UP x 65536 = (x + 65535) / 65536 * 65536.
Proof.
  unfold ALIGN_UP.
  replace (x + 65536 - 1) with (x + 65535) by lia.
  change (65536 - 1) with (Z.ones 16).
  rewrite <- Z.ldiff_land, Z.ldiff_ones_r by lia.
  rewrite Z.shiftl_mul_pow2, Z.shiftr_div_pow2 by lia. done.
Qed.

(** X7.  For a mode whose lines times rows fit the [int] arithmetic of the
    macro, [vmm_plat_vesa_fbuffer_size] is the number of bytes of the frame
    (bytes per scan line times rows) rounded up to the next multiple of
    64 KiB: a multiple of 65536, at least the bytes of the frame and less than
    65536 more, the bytes themselves when they are such a multiple; and the
    shift by 16 that [make_guest_screen_info] stores in [lfb_size] loses
    nothing of it. *)
Theorem vmm_plat_vesa_fbuffer_size_rounds_up (block : seL4_VBEModeInfoBlock_t) :
  let bytes := bytesPerScanLine (vbe_common block) * yRes (vbe12_part1 block) in
  let size := vmm_plat_vesa_fbuffer_size block in
  0 ≤ bytes → bytes + 65535 < 2147483648 →
  size mod 65536 = 0 ∧ bytes ≤ size < bytes + 65536 ∧
  (bytes mod 65536 = 0 → size = bytes) ∧
  Z.shiftr size 16 * 65536 = size.
Proof.
  intros bytes size H0 Hmax. subst size. unfold vmm_plat_vesa_fbuffer_size.
  fold bytes. rewrite ALIGN_UP_65536.
  pose proof (Z.div_mod (bytes + 65535) 65536 ltac:(lia)) as Hdiv.
  pose proof (Z.mod_pos_bound (bytes + 65535) 65536 ltac:(lia)) as Hmod.
  set (q := (bytes + 65535) / 65536) in *.
  assert (0 ≤ q) as Hq by (apply Z.div_pos; lia).
  assert (wrap32 (q * 65536) = q * 65536) as ->.
  { unfold wrap32, wrap. apply Z.mod_small. lia. }
  split; [apply Z_mod_mult|]. split; [lia|]. split.
  - intros Hb.
    pose proof (Z.div_mod bytes 65536 ltac:(lia)) as Hdiv'. rewrite Hb in Hdiv'.
    assert (q = bytes / 65536) as Hq'.
    { subst q. rewrite Hdiv' at 1.
      rewrite (Z.mul_comm 65536), Z.add_0_r, Z.div_add_l by lia.
      rewrite (Z.div_small 65535) by lia. lia. }
    lia.
  - rewrite Z.shiftr_div_pow2 by lia. change (2 ^ 16) with 65536.
    by rewrite Z.div_mul.
Qed.

Lemma vmm_plat_vesa_fbuffer_size_rounds_up_witness :
  let block := vbeModeInfoBlock vbe_1024x768 in
  let bytes := bytesPerScanLine (vbe_common block) * yRes (vbe12_part1 block) in
  let size := vmm_plat_vesa_fbuffer_size block in
  size mod 65536 = 0 ∧ bytes ≤ size < bytes + 65536 ∧
  (bytes mod 65536 = 0 → size = bytes) ∧
  Z.shiftr size 16 * 65536 = size.
Proof.
  apply (vmm_plat_vesa_fbuffer_size_rounds_up (vbeModeInfoBlock vbe_1024x768)).
  - simpl. lia.
  - simpl. lia.
Defined.

(** ** The region of the protected mode interface *)

Lemma ROUND_DOWN_spec n b :
  0 < b → ROUND_DOWN n b mod b = 0 ∧ ROUND_DOWN n b ≤ n < ROUND_DOWN n b + b.
Proof.
  intros Hb. unfold ROUND_DOWN.
  pose proof (Z.div_mod n b ltac:(lia)) as Hdiv.
  pose proof (Z.mod_pos_bound n b Hb) as Hmod.
  split; [|lia].
  replace (n - n mod b) with (n / b * b) by lia. apply Z_mod_mult.
Qed.

Lemma ROUND_UP_spec n b : 0 < b → ROUND_UP n b mod b = 0 ∧ n ≤ ROUND_UP n b < n + b.
Proof.
  intros Hb. unfold ROUND_UP.
  pose proof (Z.div_mod n b ltac:(lia)) as Hdiv.
  pose proof (Z.mod_pos_bound n b Hb) as Hmod.
  destruct (n mod b =? 0) eqn:E.
  - apply Z.eqb_eq in E. rewrite Z.add_0_r. split; [done|lia].
  - apply Z.eqb_neq in E. split; [|lia].
    replace (n + (b - n mod b)) with ((n / b + 1) * b) by lia. apply Z_mod_mult.
Qed.

Lemma to_int_small x : -2147483648 ≤ x < 2147483648 → to_int x = x.
Proof. intros H. unfold to_int. rewrite Z.mod_small by lia. lia. Qed.

(** X8.  The block of [make_guest_screen_info] that maps the protected mode
    interface of the VBE BIOS, for an interface whose length, with two pages
    added, fits the [int] that holds the size, in a build of 32 or 64 bits.
    An interface at or below 0xc000 needs no mapping: no call is made and
    the error is 0.  Above 0xc000 the region handed to
    [vm_reserve_memory_at] is the smallest run of 4 KiB pages that holds the
    interface: it starts on a page boundary at most one page below the
    interface, its size is a whole number of pages, and it ends at or after
    the end of the interface and less than a page after it; the error is -1
    when the reservation is [NULL], and the result of
    [map_ut_alloc_reservation] otherwise. *)
Theorem map_vbe_pm_interface_region {W} cfg (L : libsel4vm W) (w : W)
    (vbeinfo : seL4_X86_BootInfo_VBE) :
  let pm_base := vbe_pm_base vbeinfo in
  let len := vbeInterfaceLen vbeinfo in
  CONFIG_WORD_SIZE cfg = 32 ∨ CONFIG_WORD_SIZE cfg = 64 →
  0 ≤ len → len + 8190 < 2147483648 →
  (pm_base ≤ 49152 → map_vbe_pm_interface cfg L w vbeinfo = (0, w)) ∧
  (49152 < pm_base →
   ∃ aligned_pm size,
     aligned_pm mod 4096 = 0 ∧ size mod 4096 = 0 ∧
     aligned_pm ≤ pm_base < aligned_pm + 4096 ∧
     pm_base + len ≤ aligned_pm + size < pm_base + len + 4096 ∧
     map_vbe_pm_interface cfg L w vbeinfo =
     (let '(reservation, w') := vm_reserve_memory_at L w aligned_pm size in
      if reservation =? 0 then (-1, w')
      else map_ut_alloc_reservation L w' reservation)).
Proof.
  intros pm_base len Hword Hlen Hint. unfold map_vbe_pm_interface. fold pm_base.
  split.
  - intros Hle. destruct (pm_base >? 49152) eqn:E; [|done].
    apply Z.gtb_lt in E. lia.
  - intros Hgt. assert ((pm_base >? 49152) = true) as -> by (apply Z.gtb_lt; lia).
    cbv zeta. unfold vbe_pm_size, vbe_pm_aligned. cbv zeta. fold pm_base len.
    set (a := ROUND_DOWN pm_base PAGE_SIZE_4K).
    destruct (ROUND_DOWN_spec pm_base PAGE_SIZE_4K) as [Ha1 Ha2]; [done|].
    fold a in Ha1, Ha2. unfold PAGE_SIZE_4K in Ha1, Ha2.
    rewrite (to_int_small (len + (pm_base - a))) by lia.
    set (s := ROUND_UP (len + (pm_base - a)) PAGE_SIZE_4K).
    destruct (ROUND_UP_spec (len + (pm_base - a)) PAGE_SIZE_4K) as [Hs1 Hs2]; [done|].
    fold s in Hs1, Hs2. unfold PAGE_SIZE_4K in Hs1, Hs2.
    rewrite (to_int_small s) by lia.
    assert (wrap (CONFIG_WORD_SIZE cfg) s = s) as ->.
    { unfold wrap. apply Z.mod_small. destruct Hword as [-> | ->]; lia. }
    exists a, s. split; [done|]. split; [done|]. split; [lia|]. split; [lia|].
    destruct (vm_reserve_memory_at L w a s) as [reservation w'].
    by destruct (reservation =? 0).
Qed.

Lemma map_vbe_pm_interface_region_witness :
  let cfg := ia32_debug in
  let L := sim_libsel4vm no_vbe in
  let w := vm_lib sim_guest in
  let pm_base := vbe_pm_base vbe_1024x768 in
  let len := vbeInterfaceLen vbe_1024x768 in
  (pm_base ≤ 49152 → map_vbe_pm_interface cfg L w vbe_1024x768 = (0, w)) ∧
  (49152 < pm_base →
   ∃ aligned_pm size,
     aligned_pm mod 4096 = 0 ∧ size mod 4096 = 0 ∧
     aligned_pm ≤ pm_base < aligned_pm + 4096 ∧
     pm_base + len ≤ aligned_pm + size < pm_base + len + 4096 ∧
     map_vbe_pm_interface cfg L w vbe_1024x768 =
     (let '(reservation, w') := vm_reserve_memory_at L w aligned_pm size in
      if reservation =? 0 then (-1, w')
      else map_ut_alloc_reservation L w' reservation)).
Proof.
  apply (map_vbe_pm_interface_region ia32_debug (sim_libsel4vm no_vbe)
           (vm_lib sim_guest) vbe_1024x768).
  - left. reflexivity.
  - simpl. lia.
  - simpl. lia.
Defined.

(** ** The boot parameters handed to the guest *)

(** X9.  The header of the boot parameters that [make_guest_boot_info] hands
    to [vm_ram_touch], whatever the screen and the memory map turn out to
    be: the magic number 'HdrS', the boot flag 0xAA55, the loader type 0xFF,
    a relocatable kernel, and the load address, the alignment, the address
    of the command line and its size, each cut to the 32 bits of its field
    (so unchanged when below 2^32). *)
Theorem make_guest_boot_info_header {W} cfg (L : libsel4vm W) (vm : vm_t W)
    ca cl kla ka rla rsz addr w bp vm' :
  vm_ram_allocate L (vm_lib vm) (sizeof_boot_params cfg) = (addr, w) →
  addr ≠ 0 →
  boot_info_local cfg L (set_boot_info addr (set_vm_lib w vm)) ca cl kla ka rla rsz
  = Returned bp vm' →
  make_guest_boot_info cfg L vm ca cl kla ka rla rsz
  = (let '(r, w') := vm_ram_touch L (vm_lib vm') addr (sizeof_boot_params cfg)
                       (guest_elf_write_address (Obj_boot_params bp)) in
     Returned r (set_vm_lib w' vm')) ∧
  header (hdr bp) = 0x53726448 ∧ boot_flag (hdr bp) = 0xAA55 ∧
  type_of_loader (hdr bp) = 0xFF ∧ relocatable_kernel (hdr bp) = 1 ∧
  code32_start (hdr bp) = kla mod 2 ^ 32 ∧
  kernel_alignment (hdr bp) = ka mod 2 ^ 32 ∧
  cmd_line_ptr (hdr bp) = ca mod 2 ^ 32 ∧
  cmdline_size (hdr bp) = cl mod 2 ^ 32 ∧
  (0 ≤ kla < 2 ^ 32 → code32_start (hdr bp) = kla) ∧
  (0 ≤ ca < 2 ^ 32 → cmd_line_ptr (hdr bp) = ca) ∧
  (0 ≤ cl < 2 ^ 32 → cmdline_size (hdr bp) = cl).
Proof.
  intros Halloc Haddr Hlocal.
  split; [by eapply make_guest_boot_info_copies|].
  apply boot_info_local_inv in Hlocal as (n & e820 & _ & _ & ->).
  cbn [hdr header boot_flag type_of_loader relocatable_kernel code32_start
       kernel_alignment cmd_line_ptr cmdline_size].
  unfold wrap32, wrap.
  repeat (split; [done|]).
  split; [|split]; intros H; by apply Z.mod_small.
Qed.

Lemma make_guest_boot_info_header_witness :
  ∃ bp vm',
    make_guest_boot_info ia32_debug (sim_libsel4vm no_vbe) sim_guest
      0x100000 13 0x1000000 0x1000000 0 0
    = (let '(r, w') := vm_ram_touch (sim_libsel4vm no_vbe) (vm_lib vm') 0x100000 4096
                         (guest_elf_write_address (Obj_boot_params bp)) in
       Returned r (set_vm_lib w' vm')) ∧
    header (hdr bp) = 0x53726448 ∧ boot_flag (hdr bp) = 0xAA55 ∧
    type_of_loader (hdr bp) = 0xFF ∧ relocatable_kernel (hdr bp) = 1 ∧
    code32_start (hdr bp) = 0x1000000 mod 2 ^ 32 ∧
    kernel_alignment (hdr bp) = 0x1000000 mod 2 ^ 32 ∧
    cmd_line_ptr (hdr bp) = 0x100000 mod 2 ^ 32 ∧
    cmdline_size (hdr bp) = 13 mod 2 ^ 32 ∧
    (0 ≤ 0x1000000 < 2 ^ 32 → code32_start (hdr bp) = 0x1000000) ∧
    (0 ≤ 0x100000 < 2 ^ 32 → cmd_line_ptr (hdr bp) = 0x100000) ∧
    (0 ≤ 13 < 2 ^ 32 → cmdline_size (hdr bp) = 13).
Proof.
  do 2 eexists.
  apply (make_guest_boot_info_header ia32_debug (sim_libsel4vm no_vbe) sim_guest
           0x100000 13 0x1000000 0x1000000 0 0 0x100000
           (sim_alloc 4096 (vm_lib sim_guest)).2).
  - reflexivity.
  - lia.
  - vm_compute. reflexivity.
Defined.

(** X10.  The memory map inside the boot parameters.  Whenever the local
    structure of [make_guest_boot_info] is completed (and [E820MAX] fits the
    8 bits of [e820_entries]), [e820_map] has [E820MAX] slots,
    [e820_entries] is the number of entries [make_guest_e820_map] returned
    for the RAM regions of the VM, between 2 and [E820MAX], not cut by its
    8 bits; and the first [e820_entries] slots lie end to end from address 0,
    where a RESERVED entry starts, to 2^32, where a RESERVED entry ends,
    each of them RESERVED or RAM from the start of a region of the VM. *)
Theorem make_guest_boot_info_e820 {W} cfg (L : libsel4vm W) (vm : vm_t W)
    ca cl kla ka rla rsz bp vm' :
  (E820MAX cfg < 256)%nat →
  boot_info_local cfg L vm ca cl kla ka rla rsz = Returned bp vm' →
  ∃ n : nat,
    e820_entries bp = Z.of_nat n ∧ (2 ≤ n ≤ E820MAX cfg)%nat ∧
    length (e820_map bp) = E820MAX cfg ∧
    (∃ e0, e820_map bp !! 0%nat = Some e0 ∧
           e820_addr e0 = 0 ∧ e820_type e0 = E820_RESERVED cfg) ∧
    e820_contiguous (take n (e820_map bp)) ∧
    (∃ el, e820_map bp !! (n - 1)%nat = Some el ∧
           e820_type el = E820_RESERVED cfg ∧
           wrap64 (e820_addr el + e820_size el) = 4294967296) ∧
    Forall (e820_entry_kind cfg (ram_regions (vm_mem L (vm_lib vm'))))
      (take n (e820_map bp)).
Proof.
  intros Hmax Hlocal.
  apply boot_info_local_inv in Hlocal as (n & e820 & _ & He820 & ->).
  cbn [e820_entries e820_map].
  destruct (vm_mem L (vm_lib vm')) as [rs]. cbn [ram_regions].
  apply make_guest_e820_map_inv in He820. cbv zeta in He820.
  destruct He820 as (-> & Hroom & -> & _). rewrite length_replicate in Hroom.
  destruct (e820_map_of_layout cfg rs) as (Hc & (e0 & H0 & Ha0 & Ht0) & Hk & Hl & Hlen).
  set (m := e820_map_of cfg rs) in *. destruct Hl as (el & Hl & Htl & Hel).
  exists (length m). rewrite take_app_length.
  split; [|split; [|split; [|split; [|split; [|split]]]]].
  - unfold wrap8, wrap. apply Z.mod_small. change (2 ^ 8) with 256. lia.
  - lia.
  - rewrite length_app, length_drop, length_replicate. lia.
  - exists e0. split; [|done]. by apply lookup_app_l_Some.
  - by eapply chain64_contiguous.
  - exists el. split; [by apply lookup_app_l_Some|done].
  - done.
Qed.

Lemma make_guest_boot_info_e820_witness :
  ∃ bp vm',
    boot_info_local ia32_debug (sim_libsel4vm no_vbe) sim_guest
      0x100000 13 0x1000000 0x1000000 0 0 = Returned bp vm' ∧
    ∃ n : nat,
      e820_entries bp = Z.of_nat n ∧ (2 ≤ n ≤ E820MAX ia32_debug)%nat ∧
      length (e820_map bp) = E820MAX ia32_debug ∧
      (∃ e0, e820_map bp !! 0%nat = Some e0 ∧
             e820_addr e0 = 0 ∧ e820_type e0 = E820_RESERVED ia32_debug) ∧
      e820_contiguous (take n (e820_map bp)) ∧
      (∃ el, e820_map bp !! (n - 1)%nat = Some el ∧
             e820_type el = E820_RESERVED ia32_debug ∧
             wrap64 (e820_addr el + e820_size el) = 4294967296) ∧
      Forall (e820_entry_kind ia32_debug
                (ram_regions (vm_mem (sim_libsel4vm no_vbe) (vm_lib vm'))))
        (take n (e820_map bp)).
Proof.
  do 2 eexists. split; [vm_compute; reflexivity|].
  eapply (make_guest_boot_info_e820 ia32_debug (sim_libsel4vm no_vbe) sim_guest
            0x100000 13 0x1000000 0x1000000 0 0).
  - simpl. lia.
  - vm_compute. reflexivity.
Defined.

(** ** A checked run *)

(** X11.  In a build with assertions, whenever
    [vmm_plat_init_guest_boot_structure] returns, every step has been made
    and has succeeded, in this order: the allocator gave a non-zero address
    for the [strlen(cmdline) + 1] bytes of the command line and the copy of
    the command line to it returned 0; the allocator then gave a non-zero
    address for the boot parameters, which is the address recorded in the
    VM; the boot parameters were completed, with that command line address
    and [strlen(cmdline)] in their header (cut to 32 bits), and their copy
    returned 0; and [make_guest_acpi_tables] ran last and returned 0. *)
Theorem vmm_plat_init_guest_boot_structure_checked {W} cfg (L : libsel4vm W)
    (vm : vm_t W) cmdline kla ka rla rsz vm' :
  NDEBUG cfg = false →
  vmm_plat_init_guest_boot_structure cfg L vm cmdline kla ka rla rsz = Returned tt vm' →
  ∃ cmd_addr w1 w2 addr w3 bp vm4 w5,
    vm_ram_allocate L (vm_lib vm) (strlen cmdline + 1) = (cmd_addr, w1) ∧
    cmd_addr ≠ 0 ∧
    vm_ram_touch L w1 cmd_addr (strlen cmdline + 1)
      (make_guest_cmd_line_continued (Obj_cmdline cmdline)) = (0, w2) ∧
    vm_ram_allocate L w2 (sizeof_boot_params cfg) = (addr, w3) ∧
    addr ≠ 0 ∧
    boot_info_local cfg L {| vm_lib := w3; guest_boot_info_boot_info := addr |}
      cmd_addr (strlen cmdline) kla ka rla rsz = Returned bp vm4 ∧
    cmd_line_ptr (hdr bp) = wrap32 cmd_addr ∧
    cmdline_size (hdr bp) = wrap32 (strlen cmdline) ∧
    vm_ram_touch L (vm_lib vm4) addr (sizeof_boot_params cfg)
      (guest_elf_write_address (Obj_boot_params bp)) = (0, w5) ∧
    make_guest_acpi_tables L w5 = (0, vm_lib vm') ∧
    guest_boot_info_boot_info vm' = addr.
Proof.
  intros Hd. unfold vmm_plat_init_guest_boot_structure, make_guest_cmd_line.
  cbv zeta. unfold assert_no_err. rewrite Hd.
  destruct (vm_ram_allocate L (vm_lib vm) (strlen cmdline + 1)) as [cmd_addr w1] eqn:E1.
  destruct (cmd_addr =? 0) eqn:Hcmd; [done|]. apply Z.eqb_neq in Hcmd.
  cbn [vm_lib set_vm_lib].
  destruct (vm_ram_touch L w1 cmd_addr _ _) as [r1 w2] eqn:E2.
  destruct (r1 =? 0) eqn:Hr1; [|done]. apply Z.eqb_eq in Hr1 as ->.
  unfold make_guest_boot_info. cbn [vm_lib set_vm_lib].
  destruct (vm_ram_allocate L w2 (sizeof_boot_params cfg)) as [addr w3] eqn:E3.
  destruct (addr =? 0) eqn:Haddr; [done|]. apply Z.eqb_neq in Haddr.
  cbn [vm_lib set_vm_lib set_boot_info guest_boot_info_boot_info].
  destruct (boot_info_local cfg L _ _ _ _ _ _ _) as [bp vm4| |] eqn:E4; [|done..].
  destruct (vm_ram_touch L (vm_lib vm4) addr _ _) as [r2 w5] eqn:E5.
  destruct (r2 =? 0) eqn:Hr2; [|done]. apply Z.eqb_eq in Hr2 as ->.
  cbn [vm_lib set_vm_lib].
  destruct (make_guest_acpi_tables L w5) as [r3 w6] eqn:E6.
  destruct (r3 =? 0) eqn:Hr3; [|done]. apply Z.eqb_eq in Hr3 as ->.
  intros [= <-].
  exists cmd_addr, w1, w2, addr, w3, bp, vm4, w5.
  pose proof (boot_info_local_keeps_boot_info _ _ _ _ _ _ _ _ _ _ _ E4) as Hkeep.
  pose proof E4 as Hbp. apply boot_info_local_inv in Hbp as (n & e820 & _ & _ & Hbp).
  repeat (split; [done|]).
  split; [by rewrite Hbp|]. split; [by rewrite Hbp|].
  repeat (split; [done|]). done.
Qed.

Lemma vmm_plat_init_guest_boot_structure_checked_witness :
  ∃ cmd_addr w1 w2 addr w3 bp vm4 w5,
    vm_ram_allocate (sim_libsel4vm no_vbe) (vm_lib sim_guest)
      (strlen "console=ttyS0" + 1) = (cmd_addr, w1) ∧
    cmd_addr ≠ 0 ∧
    vm_ram_touch (sim_libsel4vm no_vbe) w1 cmd_addr (strlen "console=ttyS0" + 1)
      (make_guest_cmd_line_continued (Obj_cmdline "console=ttyS0")) = (0, w2) ∧
    vm_ram_allocate (sim_libsel4vm no_vbe) w2 (sizeof_boot_params ia32_debug)
    = (addr, w3) ∧
    addr ≠ 0 ∧
    boot_info_local ia32_debug (sim_libsel4vm no_vbe)
      {| vm_lib := w3; guest_boot_info_boot_info := addr |}
      cmd_addr (strlen "console=ttyS0") 0x1000000 0x1000000 0 0 = Returned bp vm4 ∧
    cmd_line_ptr (hdr bp) = wrap32 cmd_addr ∧
    cmdline_size (hdr bp) = wrap32 (strlen "console=ttyS0") ∧
    vm_ram_touch (sim_libsel4vm no_vbe) (vm_lib vm4) addr (sizeof_boot_params ia32_debug)
      (guest_elf_write_address (Obj_boot_params bp)) = (0, w5) ∧
    make_guest_acpi_tables (sim_libsel4vm no_vbe) w5 = (0, vm_lib sim_guest_booted) ∧
    guest_boot_info_boot_info sim_guest_booted = addr.
Proof.
  apply (vmm_plat_init_guest_boot_structure_checked ia32_debug (sim_libsel4vm no_vbe)
           sim_guest "console=ttyS0" 0x1000000 0x1000000 0 0 sim_guest_booted).
  - reflexivity.
  - vm_compute. reflexivity.
Defined.

(** ** An unchecked run *)

(** How the local structure of [make_guest_boot_info] ends, by how the map
    ends. *)
Lemma boot_info_local_outcome {W} cfg (L : libsel4vm W) (vm : vm_t W)
    ca cl kla ka rla rsz :
  let vm3 := (make_guest_screen_info cfg L vm screen_info_zero).2 in
  let map := make_guest_e820_map cfg (replicate (E820MAX cfg) e820_zero)
               (vm_mem L (vm_lib vm3)) in
  let local := boot_info_local cfg L vm ca cl kla ka rla rsz in
  (local = Undefined ↔ map = OutOfBounds) ∧
  (∀ vm', local = Aborted vm' → map = AssertFail).
Proof.
  cbv zeta. unfold boot_info_local.
  cbn [bp_screen_info set_hdr boot_params_zero].
  destruct (make_guest_screen_info cfg L vm screen_info_zero) as [info vm1].
  cbn [set_screen_info e820_map snd].
  destruct (make_guest_e820_map _ _ _) as [[n e820]| |]; by split.
Qed.

(** X12.  In a build without assertions (NDEBUG), nothing stops
    [vmm_plat_init_guest_boot_structure]: it never aborts, whatever the
    allocator and the copies return.  Its behaviour is undefined in one case
    only, when the boot parameters have their memory and
    [make_guest_e820_map] leaves the array of [E820MAX] entries on the RAM
    regions of the VM, which it does not do when twice the number of
    regions plus two is at most [E820MAX].  In every other case it returns,
    after a call of [make_guest_acpi_tables] that was its last step and
    whose result it does not look at. *)
Theorem vmm_plat_init_guest_boot_structure_unchecked {W} cfg (L : libsel4vm W)
    (vm : vm_t W) cmdline kla ka rla rsz :
  NDEBUG cfg = true →
  (0 < E820MAX cfg)%nat →
  let run := vmm_plat_init_guest_boot_structure cfg L vm cmdline kla ka rla rsz in
  let vm1 :=
    (make_guest_cmd_line L vm cmdline (indeterminate cfg) (indeterminate cfg)).2 in
  let alloc := vm_ram_allocate L (vm_lib vm1) (sizeof_boot_params cfg) in
  let vm2 := set_boot_info alloc.1 (set_vm_lib alloc.2 vm1) in
  let vm3 := (make_guest_screen_info cfg L vm2 screen_info_zero).2 in
  let map := make_guest_e820_map cfg (replicate (E820MAX cfg) e820_zero)
               (vm_mem L (vm_lib vm3)) in
  (∀ vm', run ≠ Aborted vm') ∧
  (run = Undefined ↔ alloc.1 ≠ 0 ∧ map = OutOfBounds) ∧
  ((2 * length (ram_regions (vm_mem L (vm_lib vm3))) + 2 ≤ E820MAX cfg)%nat →
   map ≠ OutOfBounds) ∧
  (run ≠ Undefined →
   ∃ vm' err w, run = Returned tt vm' ∧
                make_guest_acpi_tables L w = (err, vm_lib vm')).
Proof.
  intros Hd Hmax. cbv zeta.
  unfold vmm_plat_init_guest_boot_structure, assert_no_err. rewrite Hd.
  destruct (make_guest_cmd_line L vm cmdline _ _) as [[err [ca cl]] vm1].
  cbn [snd]. unfold make_guest_boot_info.
  destruct (vm_ram_allocate L (vm_lib vm1) (sizeof_boot_params cfg)) as [addr w2].
  cbn [fst snd].
  set (vm2 := set_boot_info addr (set_vm_lib w2 vm1)).
  set (vm3 := (make_guest_screen_info cfg L vm2 screen_info_zero).2).
  set (map := make_guest_e820_map cfg _ (vm_mem L (vm_lib vm3))).
  assert ((2 * length (ram_regions (vm_mem L (vm_lib vm3))) + 2 ≤ E820MAX cfg)%nat →
          map ≠ OutOfBounds) as Hroom.
  { intros Hlen. subst map. destruct (vm_mem L (vm_lib vm3)) as [rs].
    cbn [ram_regions] in Hlen.
    destruct (e820_map_of_layout cfg rs) as (_ & _ & _ & _ & Hm).
    rewrite make_guest_e820_map_list; [done| |intros; congruence].
    rewrite length_replicate. lia. }
  assert (∀ vm4, ∃ err w vm',
            (let '(err, w) := make_guest_acpi_tables L (vm_lib vm4) in
             Returned tt (set_vm_lib w vm4)) = Returned tt vm' ∧
            make_guest_acpi_tables L w = (err, vm_lib vm')) as Hacpi.
  { intros vm4. destruct (make_guest_acpi_tables L (vm_lib vm4)) as [e w] eqn:E.
    by exists e, (vm_lib vm4), (set_vm_lib w vm4). }
  destruct (addr =? 0) eqn:Haddr.
  { apply Z.eqb_eq in Haddr.
    destruct (Hacpi (set_vm_lib w2 vm1)) as (e & w & vm' & -> & Hw).
    split; [done|]. split; [split; [done|by intros [? _]]|]. split; [done|].
    intros _. by exists vm', e, w. }
  apply Z.eqb_neq in Haddr.
  destruct (boot_info_local_outcome cfg L vm2 ca cl kla ka rla rsz) as [Hundef Habort].
  fold vm3 map in Hundef, Habort.
  pose proof (make_guest_e820_map_outcome cfg (replicate (E820MAX cfg) e820_zero)
                (vm_mem L (vm_lib vm3)) Hmax) as Hout.
  fold map in Hout.
  destruct (boot_info_local cfg L vm2 ca cl kla ka rla rsz) as [bp vm4|vm4|].
  - destruct (vm_ram_touch L (vm_lib vm4) addr _ _) as [r w4].
    destruct (Hacpi (set_vm_lib w4 vm4)) as (e & w & vm' & -> & Hw).
    split; [done|]. split.
    { split; [done|]. intros [_ Hm]. by apply Hundef in Hm. }
    split; [done|]. intros _. by exists vm', e, w.
  - exfalso. rewrite (Habort vm4 eq_refl) in Hout. congruence.
  - split; [done|]. split; [|split; [done|done]].
    split; [|done]. intros _. split; [done|]. by apply Hundef.
Qed.

Lemma vmm_plat_init_guest_boot_structure_unchecked_witness :
  let cfg := ia32_release in
  let L := sim_libsel4vm no_vbe in
  let vm := sim_guest in
  let run := vmm_plat_init_guest_boot_structure cfg L vm "console=ttyS0"
               0x1000000 0x1000000 0 0 in
  let vm1 :=
    (make_guest_cmd_line L vm "console=ttyS0" (indeterminate cfg) (indeterminate cfg)).2 in
  let alloc := vm_ram_allocate L (vm_lib vm1) (sizeof_boot_params cfg) in
  let vm2 := set_boot_info alloc.1 (set_vm_lib alloc.2 vm1) in
  let vm3 := (make_guest_screen_info cfg L vm2 screen_info_zero).2 in
  let map := make_guest_e820_map cfg (replicate (E820MAX cfg) e820_zero)
               (vm_mem L (vm_lib vm3)) in
  (∀ vm', run ≠ Aborted vm') ∧
  (run = Undefined ↔ alloc.1 ≠ 0 ∧ map = OutOfBounds) ∧
  ((2 * length (ram_regions (vm_mem L (vm_lib vm3))) + 2 ≤ E820MAX cfg)%nat →
   map ≠ OutOfBounds) ∧
  (run ≠ Undefined →
   ∃ vm' err w, run = Returned tt vm' ∧
                make_guest_acpi_tables L w = (err, vm_lib vm')).
Proof.
  apply (vmm_plat_init_guest_boot_structure_unchecked ia32_release
           (sim_libsel4vm no_vbe) sim_guest "console=ttyS0").
  - reflexivity.
  - simpl. lia.
Defined.

(** ** The first thread, once more *)

(** X13.  What [vmm_init_guest_thread_state] leaves alone and what it
    forgets.  The VM of the vCPU is not written; every register other than
    EAX, EBX, ECX, EDX and ESI and every control field other than the guest
    RIP keeps its value; and the six that are written do not depend on what
    the vCPU held: two vCPUs of VMs with the same boot parameters address
    agree on them after the call, so that a second call with the same
    entry address changes nothing. *)
Theorem vmm_init_guest_thread_state_frame {W} (vcpu : vm_vcpu_t W)
    (guest_entry_addr : Z) :
  let vcpu' := vmm_init_guest_thread_state vcpu guest_entry_addr in
  vcpu_vm vcpu' = vcpu_vm vcpu ∧
  (∀ r, r ∉ [VCPU_CONTEXT_EAX; VCPU_CONTEXT_EBX; VCPU_CONTEXT_ECX;
             VCPU_CONTEXT_EDX; VCPU_CONTEXT_ESI] →
        vcpu_context vcpu' r = vcpu_context vcpu r) ∧
  (∀ f, f ≠ VMX_GUEST_RIP → vcpu_vmcs vcpu' f = vcpu_vmcs vcpu f) ∧
  (∀ other : vm_vcpu_t W,
     guest_boot_info_boot_info (vcpu_vm other) = guest_boot_info_boot_info (vcpu_vm vcpu) →
     let other' := vmm_init_guest_thread_state other guest_entry_addr in
     (∀ r, r ∈ [VCPU_CONTEXT_EAX; VCPU_CONTEXT_EBX; VCPU_CONTEXT_ECX;
                VCPU_CONTEXT_EDX; VCPU_CONTEXT_ESI] →
           vcpu_context other' r = vcpu_context vcpu' r) ∧
     vcpu_vmcs other' VMX_GUEST_RIP = vcpu_vmcs vcpu' VMX_GUEST_RIP) ∧
  (let again := vmm_init_guest_thread_state vcpu' guest_entry_addr in
   vcpu_vm again = vcpu_vm vcpu' ∧
   (∀ r, vcpu_context again r = vcpu_context vcpu' r) ∧
   (∀ f, vcpu_vmcs again f = vcpu_vmcs vcpu' f)).
Proof.
  cbv zeta. unfold vmm_init_guest_thread_state. cbv zeta.
  cbn [vm_set_thread_context_reg vm_set_vmcs_field vcpu_vm vcpu_context vcpu_vmcs].
  split; [done|]. split; [|split; [|split]].
  - intros r Hr. rewrite !not_elem_of_cons in Hr.
    destruct Hr as (? & ? & ? & ? & ? & _).
    by repeat (case_decide; [done|]).
  - intros f Hf. by case_decide.
  - intros other Hother. split.
    + intros r Hr. rewrite Hother. repeat case_decide; try done.
      rewrite !elem_of_cons, elem_of_nil in Hr. tauto.
    + done.
  - split; [done|]. split.
    + intros r. by repeat case_decide.
    + intros f. by repeat case_decide.
Qed.

(** * The copies into guest memory, byte by byte *)

Lemma strlen_nonneg s : 0 ≤ strlen s.
Proof.
  induction s as [|c s IH]; cbn [strlen]; [done|].
  destruct (Ascii.eqb c Ascii.zero); lia.
Qed.

Lemma byte_of_ascii_zero c : Z.of_N (N_of_ascii c) = 0 → c = Ascii.zero.
Proof.
  intros H. rewrite <- (ascii_N_embedding c).
  replace (N_of_ascii c) with 0%N by lia. done.
Qed.

Lemma strlen_string_bytes s :
  ∃ l, take (Z.to_nat (strlen s + 1)) (string_bytes s) = l ++ [0] ∧
       Forall (λ b, b ≠ 0) l ∧ Z.of_nat (length l) = strlen s ∧
       l = take (Z.to_nat (strlen s)) (string_bytes s).
Proof.
  unfold string_bytes. induction s as [|c s IH]; cbn [strlen list_ascii_of_string map app].
  - exists []. by repeat split.
  - destruct (Ascii.eqb c Ascii.zero) eqn:E.
    + apply Ascii.eqb_eq in E as ->. exists []. by repeat split.
    + destruct IH as (l & Htake & Hnz & Hlen & Hl).
      pose proof (strlen_nonneg s) as Hs.
      exists (Z.of_N (N_of_ascii c) :: l).
      replace (Z.to_nat (1 + strlen s + 1)) with (S (Z.to_nat (strlen s + 1))) by lia.
      replace (Z.to_nat (1 + strlen s)) with (S (Z.to_nat (strlen s))) by lia.
      cbn [take app length]. rewrite Htake, <- Hl.
      split; [done|]. split; [|split; [lia|done]].
      constructor; [|done]. intros H0. apply byte_of_ascii_zero in H0.
      apply Ascii.eqb_neq in E. done.
Qed.

Section Bytes_properties.
Variable boot_params_bytes : boot_params → list Z.

(** X14.  The copy of the command line is a C string.  When
    [make_guest_cmd_line_continued] is called, as [make_guest_cmd_line] asks
    for, on the [strlen(cmdline) + 1] bytes from offset 0, it writes the
    [strlen(cmdline)] characters of the command line, none of them NUL, and
    the NUL after them, and nothing after that NUL; it reads nothing
    outside the string; and it returns 0. *)
Theorem make_guest_cmd_line_continued_string (cmdline : string) (vaddr : list Z) :
  let len := strlen cmdline in
  let cb := make_guest_cmd_line_continued (Obj_cmdline cmdline) (len + 1) 0 in
  (Z.to_nat (len + 1) ≤ length vaddr)%nat →
  cb.2 = 0 ∧
  (Z.to_nat (len + 1) ≤ length (string_bytes cmdline))%nat ∧
  ∃ chars,
    copy_to boot_params_bytes cb.1 vaddr
    = Some (chars ++ [0] ++ drop (Z.to_nat (len + 1)) vaddr) ∧
    Forall (λ b, b ≠ 0) chars ∧ Z.of_nat (length chars) = len ∧
    chars = take (Z.to_nat len) (string_bytes cmdline).
Proof.
  intros len cb Hroom. subst cb. cbn [make_guest_cmd_line_continued fst snd].
  split; [done|].
  destruct (strlen_string_bytes cmdline) as (l & Htake & Hnz & Hlen & Hl).
  fold len in Htake, Hlen, Hl.
  assert (Z.to_nat (len + 1) ≤ length (string_bytes cmdline))%nat as Hsrc.
  { apply (f_equal length) in Htake. rewrite length_take, length_app in Htake.
    cbn [length] in Htake. lia. }
  split; [done|]. exists l.
  unfold copy_to, memcpy. cbn [copy_from copy_offset copy_size object_bytes].
  change (Z.to_nat 0) with 0%nat. rewrite drop_0.
  rewrite decide_True by lia.
  rewrite decide_True by done. rewrite Htake, <- app_assoc. done.
Qed.

(** X15.  A copy made in pieces is the copy made at once.  When
    [vm_ram_touch] hands a range to [guest_elf_write_address] or to
    [make_guest_cmd_line_continued] in two consecutive pieces, the second at
    the offset where the first ends, the bytes written by the two calls are
    the bytes one call writes for the whole range. *)
Theorem ram_touch_callbacks_compose (cb : object → ram_touch_callback)
    (cookie : object) (size1 size2 offset : Z)
    (vaddr1 vaddr2 written1 written2 : list Z) :
  0 ≤ size1 → 0 ≤ size2 → 0 ≤ offset →
  length vaddr1 = Z.to_nat size1 →
  cb = guest_elf_write_address ∨ cb = make_guest_cmd_line_continued →
  copy_to boot_params_bytes (cb cookie size1 offset).1 vaddr1 = Some written1 →
  copy_to boot_params_bytes (cb cookie size2 (offset + size1)).1 vaddr2
  = Some written2 →
  copy_to boot_params_bytes (cb cookie (size1 + size2) offset).1 (vaddr1 ++ vaddr2)
  = Some (written1 ++ written2) ∧
  (cb cookie (size1 + size2) offset).2 = 0.
Proof.
  intros H1 H2 Hoff Hlen Hcb.
  assert ((cb cookie size1 offset).1 =
          {| copy_from := cookie; copy_offset := offset; copy_size := size1 |} ∧
          (cb cookie size2 (offset + size1)).1 =
          {| copy_from := cookie; copy_offset := offset + size1; copy_size := size2 |} ∧
          (cb cookie (size1 + size2) offset).1 =
          {| copy_from := cookie; copy_offset := offset; copy_size := size1 + size2 |} ∧
          (cb cookie (size1 + size2) offset).2 = 0) as (-> & -> & -> & ->)
    by (destruct Hcb as [-> | ->]; done).
  unfold copy_to, memcpy. cbn [copy_from copy_offset copy_size].
  set (src := object_bytes boot_params_bytes cookie).
  case_decide as Ho1; [|done]. case_decide as Hc1; [|done].
  case_decide as Ho2; [|done]. case_decide as Hc2; [|done].
  intros [= <-] [= <-].
  rewrite length_drop in Hc1, Hc2.
  rewrite decide_True by (rewrite length_drop, length_app; lia).
  split; [|done]. f_equal.
  rewrite !Z2Nat.inj_add by lia. rewrite <- take_take_drop, drop_drop.
  rewrite drop_app_add' by done.
  rewrite (drop_ge vaddr1) by lia.
  by rewrite app_nil_r, <- app_assoc.
Qed.

(** X16.  [guest_elf_write_address] and [guest_elf_read_address] undo each
    other on a range that lies inside both buffers, whatever the two buffers
    hold.  Reading back what was just written leaves the bytes of the cookie
    as they are; writing out what was just read leaves the guest bytes as
    they are; both return 0.  The bytes written are those of the copy that
    the callback describes, for every object that has the bytes of the
    cookie. *)
Theorem guest_elf_write_read_round_trip (cookie vaddr : list Z) (size offset : Z) :
  0 ≤ size → 0 ≤ offset →
  (Z.to_nat offset + Z.to_nat size ≤ length cookie)%nat →
  (Z.to_nat size ≤ length vaddr)%nat →
  (∃ vaddr',
     guest_elf_write_bytes vaddr cookie size offset = Some (vaddr', 0) ∧
     guest_elf_read_address vaddr' cookie size offset = Some (cookie, 0)) ∧
  (∃ cookie',
     guest_elf_read_address vaddr cookie size offset = Some (cookie', 0) ∧
     length cookie' = length cookie ∧
     guest_elf_write_bytes vaddr cookie' size offset = Some (vaddr, 0)) ∧
  (∀ object,
     object_bytes boot_params_bytes object = cookie →
     (v ← copy_to boot_params_bytes (guest_elf_write_address object size offset).1 vaddr;
      Some (v, (guest_elf_write_address object size offset).2))
     = guest_elf_write_bytes vaddr cookie size offset).
Proof.
  intros Hsize Hoff Hsrc Hdst.
  set (n := Z.to_nat size) in *. set (o := Z.to_nat offset) in *.
  split; [|split].
  - exists (take n (drop o cookie) ++ drop n vaddr).
    unfold guest_elf_write_bytes, guest_elf_read_address, memcpy. fold n o.
    rewrite decide_True by lia.
    rewrite decide_True by (rewrite length_drop; lia).
    split; [done|].
    rewrite decide_True by lia.
    rewrite decide_True
      by (rewrite length_drop, length_app, length_take, !length_drop; lia).
    do 2 f_equal.
    rewrite take_app_le by (rewrite length_take, length_drop; lia).
    rewrite take_take, Nat.min_id, drop_drop.
    by rewrite <- drop_drop, !take_drop.
  - exists (take o cookie ++ take n vaddr ++ drop n (drop o cookie)).
    unfold guest_elf_write_bytes, guest_elf_read_address, memcpy. fold n o.
    rewrite decide_True by lia.
    rewrite decide_True by (rewrite length_drop; lia).
    split; [done|]. split.
    + rewrite !length_app, !length_take, !length_drop. lia.
    + rewrite decide_True by (rewrite !length_app, !length_take, !length_drop; lia).
      rewrite drop_app_length' by (rewrite length_take; lia).
      rewrite decide_True
        by (rewrite length_app, length_take, !length_drop; lia).
      do 2 f_equal. rewrite take_app_length' by (rewrite length_take; lia).
      apply take_drop.
  - intros object <-.
    unfold copy_to, guest_elf_write_bytes.
    cbn [guest_elf_write_address fst snd copy_from copy_offset copy_size].
    fold n o. case_decide; [|done].
    by destruct (memcpy vaddr _ n).
Qed.

End Bytes_properties.

Lemma make_guest_cmd_line_continued_string_witness :
  let cmdline := "console=ttyS0"%string in
  let vaddr := replicate 16 255 in
  let len := strlen cmdline in
  let cb := make_guest_cmd_line_continued (Obj_cmdline cmdline) (len + 1) 0 in
  cb.2 = 0 ∧
  (Z.to_nat (len + 1) ≤ length (string_bytes cmdline))%nat ∧
  ∃ chars,
    copy_to (λ _, replicate 4096 0) cb.1 vaddr
    = Some (chars ++ [0] ++ drop (Z.to_nat (len + 1)) vaddr) ∧
    Forall (λ b, b ≠ 0) chars ∧ Z.of_nat (length chars) = len ∧
    chars = take (Z.to_nat len) (string_bytes cmdline).
Proof.
  apply (make_guest_cmd_line_continued_string (λ _, replicate 4096 0)
           "console=ttyS0" (replicate 16 255)).
  vm_compute. lia.
Defined.

Lemma ram_touch_callbacks_compose_witness :
  copy_to (λ _, replicate 4096 0)
    (make_guest_cmd_line_continued (Obj_cmdline "console=ttyS0") (8 + 6) 0).1
    (replicate 8 255 ++ replicate 6 255)
  = Some ([99; 111; 110; 115; 111; 108; 101; 61] ++ [116; 116; 121; 83; 48; 0]) ∧
  (make_guest_cmd_line_continued (Obj_cmdline "console=ttyS0") (8 + 6) 0).2 = 0.
Proof.
  apply (ram_touch_callbacks_compose (λ _, replicate 4096 0)
           make_guest_cmd_line_continued (Obj_cmdline "console=ttyS0") 8 6 0
           (replicate 8 255) (replicate 6 255)).
  - lia.
  - lia.
  - lia.
  - reflexivity.
  - by right.
  - reflexivity.
  - reflexivity.
Defined.

Lemma guest_elf_write_read_round_trip_witness :
  let layout : boot_params → list Z := λ _, replicate 4096 0 in
  let cookie := string_bytes "console=ttyS0" in
  let vaddr := replicate 6 255 in
  (∃ vaddr',
     guest_elf_write_bytes vaddr cookie 6 8 = Some (vaddr', 0) ∧
     guest_elf_read_address vaddr' cookie 6 8 = Some (cookie, 0)) ∧
  (∃ cookie',
     guest_elf_read_address vaddr cookie 6 8 = Some (cookie', 0) ∧
     length cookie' = length cookie ∧
     guest_elf_write_bytes vaddr cookie' 6 8 = Some (vaddr, 0)) ∧
  (∀ object,
     object_bytes layout object = cookie →
     (v ← copy_to layout (guest_elf_write_address object 6 8).1 vaddr;
      Some (v, (guest_elf_write_address object 6 8).2))
     = guest_elf_write_bytes vaddr cookie 6 8).
Proof.
  apply (guest_elf_write_read_round_trip (λ _, replicate 4096 0)
           (string_bytes "console=ttyS0") (replicate 6 255) 6 8).
  - lia.
  - lia.
  - vm_compute. lia.
  - vm_compute. lia.
Defined.

(** * What the map does not depend on *)

(** X17.  [make_guest_e820_map] reads no entry of the array before it has
    written it: on two arrays of the same length (at most [E820MAX]),
    whatever they hold, it returns on both or on neither, and when it
    returns, the count and the entries returned are the same; past the
    count each array keeps what it held. *)
Theorem make_guest_e820_map_initial_contents cfg e820a e820b mem (n : nat) e820a' :
  length e820a = length e820b →
  (length e820b ≤ E820MAX cfg)%nat →
  make_guest_e820_map cfg e820a mem = Done (n, e820a') →
  ∃ e820b',
    make_guest_e820_map cfg e820b mem = Done (n, e820b') ∧
    take n e820b' = take n e820a' ∧
    drop n e820b' = drop n e820b.
Proof.
  intros Hlen Hmax H. destruct mem as [rs].
  apply make_guest_e820_map_inv in H. cbv zeta in H.
  destruct H as (-> & Hroom & -> & Hd).
  set (m := e820_map_of cfg rs) in *.
  exists (m ++ drop (length m) e820b). split; [|split].
  - apply make_guest_e820_map_list; fold m; [lia|].
    intros Hdbg. destruct (Hd Hdbg) as (? & _ & ?). done.
  - by rewrite !take_app_length.
  - by rewrite drop_app_length.
Qed.

Lemma make_guest_e820_map_initial_contents_witness :
  ∃ e820b',
    make_guest_e820_map ia32_debug e820_garbage
      {| ram_regions := [region 0x100000 0x100000] |} = Done (3%nat, e820b') ∧
    take 3 e820b' = take 3 e820_1MiB_map ∧
    drop 3 e820b' = drop 3 e820_garbage.
Proof.
  apply (make_guest_e820_map_initial_contents ia32_debug (replicate 128 e820_zero)
           e820_garbage {| ram_regions := [region 0x100000 0x100000] |} 3
           e820_1MiB_map).
  - reflexivity.
  - simpl. lia.
  - vm_compute. reflexivity.
Defined.

(** * A run that fails *)

(** X18.  In a build with assertions, once the command line has its memory,
    [vmm_plat_init_guest_boot_structure] stops at the first step that
    fails, with the VM as that step left it, and makes none of the later
    calls: at the copy of the command line when that returns non-zero; else
    at the allocation of the boot parameters when that gives 0, with no
    address recorded; else at the copy of the boot parameters; else at
    [make_guest_acpi_tables]. *)
Theorem vmm_plat_init_guest_boot_structure_first_failure {W} cfg (L : libsel4vm W)
    (vm : vm_t W) cmdline kla ka rla rsz cmd_addr w1 r1 w2 :
  NDEBUG cfg = false →
  vm_ram_allocate L (vm_lib vm) (strlen cmdline + 1) = (cmd_addr, w1) →
  cmd_addr ≠ 0 →
  vm_ram_touch L w1 cmd_addr (strlen cmdline + 1)
    (make_guest_cmd_line_continued (Obj_cmdline cmdline)) = (r1, w2) →
  let run := vmm_plat_init_guest_boot_structure cfg L vm cmdline kla ka rla rsz in
  (r1 ≠ 0 → run = Aborted (set_vm_lib w2 vm)) ∧
  (r1 = 0 → ∀ w3,
     vm_ram_allocate L w2 (sizeof_boot_params cfg) = (0, w3) →
     run = Aborted (set_vm_lib w3 vm)) ∧
  (r1 = 0 → ∀ addr w3 bp vm4 r2 w5,
     vm_ram_allocate L w2 (sizeof_boot_params cfg) = (addr, w3) →
     addr ≠ 0 →
     boot_info_local cfg L {| vm_lib := w3; guest_boot_info_boot_info := addr |}
       cmd_addr (strlen cmdline) kla ka rla rsz = Returned bp vm4 →
     vm_ram_touch L (vm_lib vm4) addr (sizeof_boot_params cfg)
       (guest_elf_write_address (Obj_boot_params bp)) = (r2, w5) →
     (r2 ≠ 0 → run = Aborted (set_vm_lib w5 vm4)) ∧
     (r2 = 0 → ∀ r3 w6,
        make_guest_acpi_tables L w5 = (r3, w6) → r3 ≠ 0 →
        run = Aborted (set_vm_lib w6 vm4))).
Proof.
  intros Hd E1 Hcmd E2 run. subst run.
  unfold vmm_plat_init_guest_boot_structure, make_guest_cmd_line.
  cbv zeta. unfold assert_no_err. rewrite Hd, E1.
  apply Z.eqb_neq in Hcmd as ->. cbn [vm_lib set_vm_lib]. rewrite E2.
  split; [|split].
  - intros Hr1. by apply Z.eqb_neq in Hr1 as ->.
  - intros -> w3 E3. cbn [Z.eqb]. unfold make_guest_boot_info.
    cbn [vm_lib set_vm_lib]. by rewrite E3.
  - intros -> addr w3 bp vm4 r2 w5 E3 Haddr E4 E5. cbn [Z.eqb].
    unfold make_guest_boot_info. cbn [vm_lib set_vm_lib]. rewrite E3.
    apply Z.eqb_neq in Haddr as ->.
    change (set_boot_info addr _)
      with {| vm_lib := w3; guest_boot_info_boot_info := addr |}.
    rewrite E4, E5. split.
    + intros Hr2. by apply Z.eqb_neq in Hr2 as ->.
    + intros -> r3 w6 E6 Hr3. cbn [Z.eqb vm_lib set_vm_lib]. rewrite E6.
      by apply Z.eqb_neq in Hr3 as ->.
Qed.

Lemma vmm_plat_init_guest_boot_structure_first_failure_witness :
  let L := sim_libsel4vm no_vbe in
  let vm := sim_guest_tight in
  let w1 := (sim_alloc 14 (vm_lib vm)).2 in
  let w2 := (vm_ram_touch L w1 0x100000 14
               (make_guest_cmd_line_continued (Obj_cmdline "console=ttyS0"))).2 in
  let run := vmm_plat_init_guest_boot_structure ia32_debug L vm "console=ttyS0"
               0x1000000 0x1000000 0 0 in
  (0 ≠ 0 → run = Aborted (set_vm_lib w2 vm)) ∧
  (0 = 0 → ∀ w3,
     vm_ram_allocate L w2 (sizeof_boot_params ia32_debug) = (0, w3) →
     run = Aborted (set_vm_lib w3 vm)) ∧
  (0 = 0 → ∀ addr w3 bp vm4 r2 w5,
     vm_ram_allocate L w2 (sizeof_boot_params ia32_debug) = (addr, w3) →
     addr ≠ 0 →
     boot_info_local ia32_debug L {| vm_lib := w3; guest_boot_info_boot_info := addr |}
       0x100000 (strlen "console=ttyS0") 0x1000000 0x1000000 0 0 = Returned bp vm4 →
     vm_ram_touch L (vm_lib vm4) addr (sizeof_boot_params ia32_debug)
       (guest_elf_write_address (Obj_boot_params bp)) = (r2, w5) →
     (r2 ≠ 0 → run = Aborted (set_vm_lib w5 vm4)) ∧
     (r2 = 0 → ∀ r3 w6,
        make_guest_acpi_tables L w5 = (r3, w6) → r3 ≠ 0 →
        run = Aborted (set_vm_lib w6 vm4))).
Proof.
  apply (vmm_plat_init_guest_boot_structure_first_failure ia32_debug
           (sim_libsel4vm no_vbe) sim_guest_tight "console=ttyS0"
           0x1000000 0x1000000 0 0 0x100000
           (sim_alloc 14 (vm_lib sim_guest_tight)).2 0).
  - reflexivity.
  - reflexivity.
  - lia.
  - reflexivity.
Defined.

(** * What the screen information costs the VM *)

(** X19.  The calls [make_guest_screen_info] makes on the VM.  It never
    writes the recorded address of the boot parameters.  When the frame
    buffer is not configured or the query for the VBE information returns -1
    it leaves the VM as it was.  Otherwise it stops after the protected mode
    interface when its mapping fails, reserving no frame buffer; it stops
    after [vm_reserve_anon_memory] when that returns [NULL]; and otherwise
    its last call is [map_ut_alloc_reservation_with_base_paddr], on the
    physical base of the mode and that reservation. *)
Theorem make_guest_screen_info_calls {W} cfg (L : libsel4vm W) (vm : vm_t W)
    info result vbeinfo :
  simple_get_extended_bootinfo L (vm_lib vm) = (result, vbeinfo) →
  let vm' := (make_guest_screen_info cfg L vm info).2 in
  let pm := map_vbe_pm_interface cfg L (vm_lib vm) vbeinfo in
  let fb := vm_reserve_anon_memory L pm.2
              (vmm_plat_vesa_fbuffer_size (vbeModeInfoBlock vbeinfo)) in
  guest_boot_info_boot_info vm' = guest_boot_info_boot_info vm ∧
  (CONFIG_VMM_VESA_FRAMEBUFFER cfg = false ∨ result = -1 → vm' = vm) ∧
  (CONFIG_VMM_VESA_FRAMEBUFFER cfg = true → result ≠ -1 →
   (pm.1 ≠ 0 → vm_lib vm' = pm.2) ∧
   (pm.1 = 0 → fb.1.1 = 0 → vm_lib vm' = fb.2) ∧
   (pm.1 = 0 → fb.1.1 ≠ 0 →
    vm_lib vm' =
    (map_ut_alloc_reservation_with_base_paddr L fb.2
       (physBasePtr (vbe20 (vbeModeInfoBlock vbeinfo))) fb.1.1).2)).
Proof.
  intros Hquery. cbv zeta.
  split; [apply make_guest_screen_info_keeps_boot_info|].
  unfold make_guest_screen_info, screen_info_base. rewrite Hquery.
  split.
  - intros Hoff.
    assert (CONFIG_VMM_VESA_FRAMEBUFFER cfg && negb (result =? -1) = false) as ->.
    { destruct Hoff as [-> | ->]; [done|]. apply andb_false_r. }
    cbn [Z.eqb negb snd]. by destruct vm.
  - intros -> Hres. apply Z.eqb_neq in Hres as ->. cbn [andb negb].
    destruct (map_vbe_pm_interface cfg L (vm_lib vm) vbeinfo) as [error w1].
    cbn [fst snd]. split; [|split].
    + intros Herr. apply Z.eqb_neq in Herr as ->. done.
    + intros -> Hfb. cbn [Z.eqb negb]. unfold map_vesa_frame_buffer. cbv zeta.
      destruct (vm_reserve_anon_memory L w1 _) as [[reservation stored] w2].
      cbn [fst snd] in *. subst reservation. cbn [Z.eqb].
      by destruct (negb (default 0 stored =? 0)).
    + intros -> Hfb. cbn [Z.eqb negb]. unfold map_vesa_frame_buffer. cbv zeta.
      destruct (vm_reserve_anon_memory L w1 _) as [[reservation stored] w2].
      cbn [fst snd] in *. apply Z.eqb_neq in Hfb as ->.
      destruct (map_ut_alloc_reservation_with_base_paddr L w2 _ reservation)
        as [error w3].
      cbn [snd]. destruct (negb (error =? 0)); cbn [Z.eqb negb]; [done|].
      by destruct (negb (default 0 stored =? 0)).
Qed.

Lemma make_guest_screen_info_calls_witness :
  let L := sim_libsel4vm no_frame_buffer in
  let vm := sim_guest in
  let vbeinfo := vbe_1024x768 in
  let vm' := (make_guest_screen_info ia32_debug L vm screen_info_zero).2 in
  let pm := map_vbe_pm_interface ia32_debug L (vm_lib vm) vbeinfo in
  let fb := vm_reserve_anon_memory L pm.2
              (vmm_plat_vesa_fbuffer_size (vbeModeInfoBlock vbeinfo)) in
  guest_boot_info_boot_info vm' = guest_boot_info_boot_info vm ∧
  (CONFIG_VMM_VESA_FRAMEBUFFER ia32_debug = false ∨ 0 = -1 → vm' = vm) ∧
  (CONFIG_VMM_VESA_FRAMEBUFFER ia32_debug = true → 0 ≠ -1 →
   (pm.1 ≠ 0 → vm_lib vm' = pm.2) ∧
   (pm.1 = 0 → fb.1.1 = 0 → vm_lib vm' = fb.2) ∧
   (pm.1 = 0 → fb.1.1 ≠ 0 →
    vm_lib vm' =
    (map_ut_alloc_reservation_with_base_paddr L fb.2
       (physBasePtr (vbe20 (vbeModeInfoBlock vbeinfo))) fb.1.1).2)).
Proof.
  apply (make_guest_screen_info_calls ia32_debug (sim_libsel4vm no_frame_buffer)
           sim_guest screen_info_zero 0 vbe_1024x768).
  reflexivity.
Defined.
